(** * traffic: SO6 trajectories and AIRAC sectors

    A shallow embedding of [traffic/so6/so6.py] and [traffic/data/airac.py].

    Conventions of the embedding.
    - A pandas [DataFrame] of SO6 segments is the list of its rows, in row
      order; a boolean mask is [filter]; [groupby('flight_id')] gathers the
      rows carrying one identifier, in row order.
    - A [datetime] is an integer number of microseconds; a Python [float] is
      an exact rational ([Q]) extended with the two infinities where the
      source uses them.  Rounding of binary floating point and NaN are not
      part of the model.
    - Exceptions are values of [exn]; a function that may raise returns a
      [result].
    - The planar geometry library (shapely) is an interface, [Shapely]. *)

From Stdlib Require Import String Ascii.
From Stdlib Require Import ZArith QArith Qround Qpower Bool List Lia.
From Stdlib Require Import Permutation Sorted.
Import ListNotations.

Set Implicit Arguments.

(** ** Exceptions *)

Inductive exn : Type :=
| ValueError
| TypeError
| IndexError.

Inductive result (A : Type) : Type :=
| Ok (a : A)
| Raise (e : exn).
Arguments Ok {A} a.
Arguments Raise {A} e.

Definition bind {A B} (r : result A) (k : A -> result B) : result B :=
  match r with
  | Ok a => k a
  | Raise e => Raise e
  end.

Notation "x <- r ;; k" := (bind r (fun x => k))
  (at level 61, r at next level, right associativity).
Notation "' pat <- r ;; k" := (bind r (fun x => match x with pat => k end))
  (at level 61, pat pattern, r at next level, right associativity).

(** ** Sequences *)

(** [xs[-1]], when there is one. *)
Fixpoint last_error {A} (l : list A) : option A :=
  match l with
  | [] => None
  | [x] => Some x
  | _ :: l' => last_error l'
  end.

(** [xs[0]] and [xs[-1]] *)
Definition item_first {A} (xs : list A) : result A :=
  match xs with
  | [] => Raise IndexError
  | x :: _ => Ok x
  end.

Definition item_last {A} (xs : list A) : result A :=
  match last_error xs with
  | None => Raise IndexError
  | Some x => Ok x
  end.

(** ** Python floats: rationals with the two infinities *)

Inductive pyfloat : Type :=
| NegInf
| Fin (q : Q)
| PosInf.

Definition Qlt_bool (a b : Q) : bool := negb (Qle_bool b a).

Definition pyfloat_ltb (a b : pyfloat) : bool :=
  match a, b with
  | NegInf, NegInf => false
  | NegInf, _ => true
  | Fin _, NegInf => false
  | Fin x, Fin y => Qlt_bool x y
  | Fin _, PosInf => true
  | PosInf, _ => false
  end.

Definition pyfloat_leb (a b : pyfloat) : bool := negb (pyfloat_ltb b a).

(** [k * x] for a positive finite [k]. *)
Definition pyfloat_scale (k : Q) (x : pyfloat) : pyfloat :=
  match x with
  | NegInf => NegInf
  | Fin q => Fin (k * q)
  | PosInf => PosInf
  end.

(** ** The planar geometry library *)

(** A coordinate tuple [(lon, lat, alt)]. *)
Definition Coord : Type := (Q * Q * Q)%type.

Definition LineString : Type := list Coord.

(** What an intersection returns: a geometry with a coordinate sequence of
    its own (a point, a line string), or a [BaseMultipartGeometry], which
    is iterated part by part. *)
Inductive BaseGeometry : Type :=
| Simple (coords : list Coord)
| Multipart (parts : list (list Coord)).

Definition is_nil {A} (l : list A) : bool :=
  match l with [] => true | _ => false end.

(** A geometry is empty when it holds no point. *)
Definition is_empty (g : BaseGeometry) : bool :=
  match g with
  | Simple coords => is_nil coords
  | Multipart parts => forallb is_nil parts
  end.

Class Shapely : Type := {
  Polygon : Type;
  (** [shapely.ops.cascaded_union] *)
  cascaded_union : list Polygon -> Polygon;
  (** [a.equals(b)]: the two polygons cover the same points *)
  equals : Polygon -> Polygon -> bool;
  (** [LineString(coords).intersection(polygon)] *)
  intersection : LineString -> Polygon -> BaseGeometry;
  (** [polygon.bounds], as [(west, south, east, north)] *)
  bounds : Polygon -> Q * Q * Q * Q
}.

(** The points of the plane a polygon covers, and what union and [equals]
    mean for them. *)
Class ShapelyRegions (G : Shapely) : Type := {
  covers : Polygon -> Q * Q -> Prop;
  covers_cascaded_union : forall (ps : list Polygon) (x : Q * Q),
      covers (cascaded_union ps) x <-> exists p, In p ps /\ covers p x;
  covers_equals : forall (p q : Polygon),
      equals p q = true -> forall x, covers p x <-> covers q x
}.

(** ** [traffic/data/airac.py] *)

Module Airac.

Section WithShapely.
Context {G : Shapely}.

(** [ExtrudedPolygon = NamedTuple(polygon, lower: float, upper: float)] *)
Record ExtrudedPolygon : Type := mkExtrudedPolygon {
  polygon : Polygon;
  lower : pyfloat;
  upper : pyfloat
}.

Definition SectorList := list ExtrudedPolygon.

Record Sector : Type := mkSector {
  name : string;
  area : list ExtrudedPolygon;
  type : option string
}.

Definition flatten (self : Sector) : Polygon :=
  cascaded_union (map polygon (area self)).

Definition Sector_bounds (self : Sector) : Q * Q * Q * Q :=
  bounds (flatten self).

(** The triples handed to [cascaded_union_with_alt]: the parser also
    passes [(polygon, None, None)] for a ring without limits. *)
Definition PolyAlt : Type := (Polygon * option pyfloat * option pyfloat)%type.

(** [alt for _, *low_up in polyalt for alt in low_up] *)
Definition altitudes (polyalt : list PolyAlt) : list (option pyfloat) :=
  flat_map (fun '(_, low, up) => [low; up]) polyalt.

Definition is_None {A} (o : option A) : bool :=
  match o with None => true | Some _ => false end.

(** The triples with their limits as numbers, when all limits are. *)
Fixpoint numeric_bands (polyalt : list PolyAlt)
  : option (list (Polygon * pyfloat * pyfloat)) :=
  match polyalt with
  | [] => Some []
  | (p, Some low, Some up) :: rest =>
      match numeric_bands rest with
      | Some bands => Some ((p, low, up) :: bands)
      | None => None
      end
  | _ :: _ => None
  end.

(** [sorted(set(xs))] on numbers: the distinct values in ascending
    order. *)
Fixpoint insert_sorted (x : pyfloat) (l : list pyfloat) : list pyfloat :=
  match l with
  | [] => [x]
  | y :: l' =>
      if pyfloat_ltb x y then x :: l
      else if pyfloat_ltb y x then y :: insert_sorted x l'
      else l
  end.

Definition sorted_set (xs : list pyfloat) : list pyfloat :=
  fold_right insert_sorted [] xs.

Definition band_limits (bands : list (Polygon * pyfloat * pyfloat))
  : list pyfloat :=
  flat_map (fun '(_, low, up) => [low; up]) bands.

(** [[p for (p, low_, up_) in polyalt
      if low_ <= low <= up_ and low_ <= up <= up_]] *)
Definition matched_poly (bands : list (Polygon * pyfloat * pyfloat))
           (low up : pyfloat) : list Polygon :=
  map (fun '(p, _, _) => p)
      (filter (fun '(_, low_, up_) =>
                 (pyfloat_leb low_ low && pyfloat_leb low up_)
                 && (pyfloat_leb low_ up && pyfloat_leb up up_))
              bands).

(** One turn of the loop over [zip(slices, slices[1:])]. *)
Definition slice_step (bands : list (Polygon * pyfloat * pyfloat))
           (results : SectorList) (low_up : pyfloat * pyfloat) : SectorList :=
  let '(low, up) := low_up in
  let new_poly := mkExtrudedPolygon (cascaded_union (matched_poly bands low up))
                                    low up in
  match last_error results with
  | Some prev =>
      if equals (polygon new_poly) (polygon prev)
      then removelast results
             ++ [mkExtrudedPolygon (polygon new_poly) (lower prev) up]
      else results ++ [new_poly]
  | None => results ++ [new_poly]
  end.

Definition cascaded_union_with_alt (polyalt : list PolyAlt) : result SectorList :=
  let altitudes := altitudes polyalt in
  if negb (is_nil altitudes) && forallb is_None altitudes then
    (* slices == [None] *)
    let simple_union := cascaded_union (map (fun '(p, _, _) => p) polyalt) in
    Ok [mkExtrudedPolygon simple_union NegInf PosInf]
  else
    match numeric_bands polyalt with
    | None => Raise TypeError   (* sorted: None is not ordered with a float *)
    | Some bands =>
        let slices := sorted_set (band_limits bands) in
        Ok (fold_left (slice_step bands) (combine slices (tl slices)) [])
    end.

End WithShapely.

(** *** Altitude limits of an airspace volume *)

Definition is_digit (c : ascii) : bool :=
  let n := nat_of_ascii c in (48 <=? n)%nat && (n <=? 57)%nat.

Definition digit_value (c : ascii) : Z := Z.of_nat (nat_of_ascii c - 48).

(** [re.match("\d{3}", text)]: the text starts with three digits. *)
Definition starts_with_three_digits (text : string) : bool :=
  match text with
  | String a (String b (String c _)) => is_digit a && is_digit b && is_digit c
  | _ => false
  end.

Definition re_match_d3 (text : option string) : result bool :=
  match text with
  | None => Raise TypeError     (* expected string or bytes-like object *)
  | Some s => Ok (starts_with_three_digits s)
  end.

(** [float(text)] on decimal numerals: optional surrounding white space,
    an optional sign, digits (single underscores allowed between digits),
    an optional fraction and an optional exponent.  The value is the
    exact decimal value.  The words [inf], [infinity] and [nan] are not
    numerals and are left out: they do not start with a digit. *)

Definition is_space (c : ascii) : bool :=
  let n := nat_of_ascii c in
  (n =? 32)%nat || ((9 <=? n)%nat && (n <=? 13)%nat).

Fixpoint lstrip (s : list ascii) : list ascii :=
  match s with
  | c :: s' => if is_space c then lstrip s' else s
  | [] => []
  end.

Definition strip (s : list ascii) : list ascii :=
  rev (lstrip (rev (lstrip s))).

(** After a first digit: [(["_"] digit)*].  Returns the value read, the
    number of digits read and the rest of the input. *)
Fixpoint digitpart_rest (acc : Z) (n : nat) (s : list ascii)
  : Z * nat * list ascii :=
  match s with
  | c :: s' =>
      if is_digit c then digitpart_rest (acc * 10 + digit_value c) (S n) s'
      else if Ascii.eqb c "_" then
        match s' with
        | d :: s'' =>
            if is_digit d
            then digitpart_rest (acc * 10 + digit_value d) (S n) s''
            else (acc, n, s)
        | [] => (acc, n, s)
        end
      else (acc, n, s)
  | [] => (acc, n, [])
  end.

Definition digitpart (s : list ascii) : option (Z * nat * list ascii) :=
  match s with
  | c :: s' => if is_digit c then Some (digitpart_rest (digit_value c) 1 s')
               else None
  | [] => None
  end.

Definition read_sign (s : list ascii) : Z * list ascii :=
  match s with
  | c :: s' => if Ascii.eqb c "-" then (-1, s')
               else if Ascii.eqb c "+" then (1, s')
               else (1, s)
  | [] => (1, [])
  end%Z.

(** Mantissa: [digitpart ["." [digitpart]]] or ["." digitpart]; the
    result is the integer made of all digits and the number of digits
    after the point. *)
Definition read_mantissa (s : list ascii) : option (Z * nat * list ascii) :=
  match digitpart s with
  | Some (i, _, r) =>
      match r with
      | c :: r' =>
          if Ascii.eqb c "." then
            match digitpart r' with
            | Some (f, k, r'') =>
                Some (i * 10 ^ Z.of_nat k + f, k, r'')%Z
            | None => Some (i, 0%nat, r')
            end
          else Some (i, 0%nat, r)
      | [] => Some (i, 0%nat, [])
      end
  | None =>
      match s with
      | c :: r' =>
          if Ascii.eqb c "." then
            match digitpart r' with
            | Some (f, k, r'') => Some (f, k, r'')
            | None => None
            end
          else None
      | [] => None
      end
  end.

(** Exponent: nothing, or [("e" | "E") ["+" | "-"] digitpart]; then the
    end of the text. *)
Definition read_exponent (s : list ascii) : option Z :=
  match s with
  | [] => Some 0%Z
  | c :: s' =>
      if Ascii.eqb c "e" || Ascii.eqb c "E" then
        let '(sg, s'') := read_sign s' in
        match digitpart s'' with
        | Some (e, _, []) => Some (sg * e)%Z
        | _ => None
        end
      else None
  end.

Definition float_ (text : string) : result pyfloat :=
  let '(sg, s) := read_sign (strip (list_ascii_of_string text)) in
  match read_mantissa s with
  | Some (m, k, r) =>
      match read_exponent r with
      | Some e =>
          Ok (Fin (inject_Z (sg * m) * Qpower 10 (e - Z.of_nat k)))
      | None => Raise ValueError
      end
  | None => Raise ValueError
  end.

(** The result of [element.find(...)]: the element found, of which only
    the text matters here, or [None]. *)
Record Element : Type := mkElement { text : option string }.

(** [float(e.text) if e is not None and re.match("\d{3}", e.text)
     else float(default)] *)
Definition limit_or (default : pyfloat) (e : option Element) : result pyfloat :=
  match e with
  | None => Ok default
  | Some elt =>
      m <- re_match_d3 (text elt) ;;
      if m then
        match text elt with
        | Some s => float_ s
        | None => Raise TypeError
        end
      else Ok default
  end.

(** An [aixm:AirspaceVolume] block, as [make_polygon] reads its limits:
    what [block.find] returns for the two limit elements. *)
Record VolumeBlock : Type := mkVolumeBlock {
  upperLimit : option Element;
  lowerLimit : option Element
}.

(** The [(upper, lower)] pair at the head of the loop over blocks in
    [make_polygon]. *)
Definition block_limits (block : VolumeBlock) : result (pyfloat * pyfloat) :=
  upper <- limit_or PosInf (upperLimit block) ;;
  lower <- limit_or NegInf (lowerLimit block) ;;
  Ok (upper, lower).

End Airac.

(** ** Times *)

Definition datetime := Z.
Definition timedelta := Z.

(** [time_or_delta = Union[timelike, timedelta]]; [to_datetime] is the
    identity on a [datetime], the only form of [timelike] kept here. *)
Inductive time_or_delta : Type :=
| Time (t : datetime)
| Delta (d : timedelta).

Definition resolve_after (before : datetime) (after : time_or_delta) : datetime :=
  match after with
  | Delta d => (before + d)%Z
  | Time t => t
  end.

(** ** Segments: the rows of an SO6 table *)

Record Segment : Type := mkSegment {
  flight_id : Z;
  callsign : string;
  origin : string;
  destination : string;
  aircraft : string;
  time1 : datetime;
  time2 : datetime;
  lon1 : Q; lat1 : Q; alt1 : Q;
  lon2 : Q; lat2 : Q; alt2 : Q
}.

Definition DataFrame := list Segment.

(** [set(column)]: the distinct values of a column. *)
Definition set_Z (l : list Z) : list Z := nodup Z.eq_dec l.
Definition set_str (l : list string) : list string := nodup string_dec l.

(** [df.groupby('flight_id').get_group(i)] *)
Definition get_group (df : DataFrame) (i : Z) : DataFrame :=
  filter (fun r => (flight_id r =? i)%Z) df.

(** [df.groupby('flight_id').filter(f)]: the rows whose group satisfies
    [f], in the order of [df]. *)
Definition groupby_filter (df : DataFrame) (f : DataFrame -> bool) : DataFrame :=
  filter (fun r => f (get_group df (flight_id r))) df.

(** [df.iloc[0]] *)
Definition iloc0 (df : DataFrame) : result Segment :=
  match df with
  | [] => Raise IndexError
  | r :: _ => Ok r
  end.

(** [np.stack(xs)]: at least one array is needed. *)
Definition stack {A} (xs : list A) : result (list A) :=
  match xs with
  | [] => Raise ValueError
  | _ :: _ => Ok xs
  end.

(** [min(xs)], [max(xs)]. *)
Definition py_min (xs : list Z) : result Z :=
  match xs with
  | [] => Raise ValueError
  | x :: xs' => Ok (fold_left Z.min xs' x)
  end.

Definition py_max (xs : list Z) : result Z :=
  match xs with
  | [] => Raise ValueError
  | x :: xs' => Ok (fold_left Z.max xs' x)
  end.

(** ** [scipy.interpolate.interp1d], linear, with its default bounds check *)

Definition lerp1 (x_lo x_hi y_lo y_hi x_new : Q) : Q :=
  let slope := (y_hi - y_lo) / (x_hi - x_lo) in
  slope * (x_new - x_lo) + y_lo.

Definition lerp (x_lo x_hi : Q) (y_lo y_hi : Coord) (x_new : Q) : Coord :=
  let '(a_lo, b_lo, c_lo) := y_lo in
  let '(a_hi, b_hi, c_hi) := y_hi in
  (lerp1 x_lo x_hi a_lo a_hi x_new,
   lerp1 x_lo x_hi b_lo b_hi x_new,
   lerp1 x_lo x_hi c_lo c_hi x_new).

(** The knots are sorted by abscissa when the interpolator is built. *)
Fixpoint insert_knot (k : Q * Coord) (l : list (Q * Coord)) : list (Q * Coord) :=
  match l with
  | [] => [k]
  | k' :: l' => if Qle_bool (fst k) (fst k') then k :: l
                else k' :: insert_knot k l'
  end.

Definition sort_knots (l : list (Q * Coord)) : list (Q * Coord) :=
  fold_right insert_knot [] l.

(** [np.searchsorted(xs, v)]: the number of abscissas below [v]. *)
Definition searchsorted (xs : list Q) (v : Q) : nat :=
  length (filter (fun x => Qlt_bool x v) xs).

Definition clip (i lo hi : nat) : nat := Nat.min (Nat.max i lo) hi.

Definition interp1d (knots : list (Q * Coord)) (x_new : Q) : result Coord :=
  let knots := sort_knots knots in
  match knots, last_error knots with
  | (x_first, _) :: _, Some (x_last, _) =>
      if Qlt_bool x_new x_first then Raise ValueError       (* below the range *)
      else if Qlt_bool x_last x_new then Raise ValueError   (* above the range *)
      else
        let hi := clip (searchsorted (map fst knots) x_new) 1 (length knots - 1) in
        let lo := (hi - 1)%nat in
        match nth_error knots lo, nth_error knots hi with
        | Some (x_lo, y_lo), Some (x_hi, y_hi) => Ok (lerp x_lo x_hi y_lo y_hi x_new)
        | _, _ => Raise ValueError
        end
  | _, _ => Raise ValueError
  end.

(** ** [class Flight] *)

Module Flight.

(** The [interpolator] dictionary only caches the interpolator built
    from [times] and [coords]; it is not part of the state kept here. *)
Record t : Type := mk { data : DataFrame }.

Definition len (self : t) : nat := length (data self).

Definition point1 (s : Segment) : Coord := (lon1 s, lat1 s, alt1 s).
Definition point2 (s : Segment) : Coord := (lon2 s, lat2 s, alt2 s).

(** The start point of every segment, then the end point of the last. *)
Definition coords (self : t) : list Coord :=
  match last_error (data self) with
  | None => []
  | Some s => map point1 (data self) ++ [point2 s]
  end.

Definition times (self : t) : list datetime :=
  match last_error (data self) with
  | None => []
  | Some s => map time1 (data self) ++ [time2 s]
  end.

Definition start (self : t) : result datetime := py_min (times self).
Definition stop (self : t) : result datetime := py_max (times self).

Definition linestring (self : t) : LineString := coords self.

(** [t.timestamp()], in seconds. *)
Definition timestamp (t : datetime) : Q := t # 1000000.

(** [interpolate] with the default projection, for which
    [transform_points] changes nothing, at one time. *)
Definition at_ (self : t) (time : datetime) : result Coord :=
  xs <- stack (map timestamp (times self)) ;;
  ys <- stack (coords self) ;;
  interp1d (combine xs ys) (timestamp time).

(** [pd.DataFrame.from_records(np.c_[new_data[:-1, :], new_data[1:, :]],
    columns=...).assign(time1=..., time2=..., origin=..., ...)];
    [assign] refuses a column whose length is not the number of rows. *)
Definition from_records (new_data : list Coord) (time1 time2 : list datetime)
           (meta : Segment) : result DataFrame :=
  let rows := combine (removelast new_data) (tl new_data) in
  if (length time1 =? length rows)%nat && (length time2 =? length rows)%nat
  then Ok (map (fun '((a, b), (t1, t2)) =>
                  let '(x1, y1, z1) := a in
                  let '(x2, y2, z2) := b in
                  mkSegment (flight_id meta) (callsign meta)
                            (origin meta) (destination meta) (aircraft meta)
                            t1 t2 x1 y1 z1 x2 y2 z2)
               (combine rows (combine time1 time2)))
  else Raise ValueError.

Definition between (self : t) (before : datetime) (after : time_or_delta)
  : result t :=
  let after := resolve_after before after in
  t <- stack (times self) ;;
  let index := fun x : datetime => (before <? x)%Z && (x <? after)%Z in
  cs <- stack (coords self) ;;
  let new_data := map snd (filter (fun tc => index (fst tc)) (combine t cs)) in
  let t_index := filter index t in
  let time1 := before :: t_index in
  let time2 := t_index ++ [after] in
  t_first <- item_first t ;;
  t_last <- item_last t ;;
  '(new_data, time1, time2) <-
    (if (before >? t_first)%Z
     then p <- at_ self before ;; Ok (p :: new_data, time1, time2)
     else Ok (new_data, tl time1, tl time2)) ;;
  '(new_data, time1, time2) <-
    (if (after <? t_last)%Z
     then p <- at_ self after ;; Ok (new_data ++ [p], time1, time2)
     else Ok (new_data, removelast time1, removelast time2)) ;;
  meta <- iloc0 (data self) ;;
  df <- from_records new_data time1 time2 meta ;;
  Ok (mk df).

Section WithShapely.
Context {G : Shapely}.

(** [100*layer.lower < x[2] < 100*layer.upper] *)
Definition in_layer (layer : Airac.ExtrudedPolygon) (x : Coord) : bool :=
  let '(_, _, z) := x in
  pyfloat_ltb (pyfloat_scale 100 (Airac.lower layer)) (Fin z)
  && pyfloat_ltb (Fin z) (pyfloat_scale 100 (Airac.upper layer)).

(** The body of the loop of [intersects] for one layer: [true] when
    the function returns [True] at this layer. *)
Definition hits_layer (line : LineString) (layer : Airac.ExtrudedPolygon) : bool :=
  let ix := intersection line (Airac.polygon layer) in
  if negb (is_empty ix) then
    match ix with
    | Multipart parts => existsb (fun part => existsb (in_layer layer) part) parts
    | Simple coords => existsb (in_layer layer) coords
    end
  else false.

Fixpoint intersects_layers (line : LineString)
         (layers : list Airac.ExtrudedPolygon) : bool :=
  match layers with
  | [] => false
  | layer :: rest =>
      if hits_layer line layer then true
      else intersects_layers line rest
  end.

Definition intersects (self : t) (sector : Airac.Sector) : bool :=
  intersects_layers (linestring self) (Airac.area sector).

End WithShapely.

Definition callsign (self : t) : result string :=
  r <- iloc0 (data self) ;; Ok (callsign r).

Definition flight_id (self : t) : result Z :=
  r <- iloc0 (data self) ;; Ok (flight_id r).

End Flight.

(** ** [Decimal(x).quantize(Decimal('0.00'), rounding=...)]

    [ROUND_DOWN] drops the digits after the second decimal place;
    [ROUND_UP] moves to the next hundredth in the direction away from zero
    unless the dropped digits are all zero. *)

Definition quantize_ROUND_DOWN (x : Q) : Q :=
  Z.quot (Qnum x * 100) (Zpos (Qden x)) # 100.

Definition quantize_ROUND_UP (x : Q) : Q :=
  let n := (Qnum x * 100)%Z in
  let d := Zpos (Qden x) in
  (if (Z.rem n d =? 0)%Z then Z.quot n d else Z.quot n d + Z.sgn n)%Z # 100.

Module SO6.

Record t : Type := mk { data : DataFrame }.

Definition flight_ids (self : t) : list Z :=
  set_Z (map flight_id (data self)).

Definition callsigns (self : t) : list string :=
  set_str (map callsign (data self)).

Definition len (self : t) : nat := length (flight_ids self).

Definition at_ (self : t) (time : datetime) : t :=
  mk (filter (fun r => (time1 r <=? time)%Z && (time2 r >? time)%Z)
             (data self)).

Definition between (self : t) (before : datetime) (after : time_or_delta) : t :=
  let after := resolve_after before after in
  mk (filter (fun r => (time1 r <=? after)%Z && (time2 r >=? before)%Z)
             (data self)).

Definition select_callsigns (self : t) (query : list string) : t :=
  mk (filter (fun r => if in_dec string_dec (callsign r) query
                       then true else false)
             (data self)).

Section WithShapely.
Context {G : Shapely}.

Definition intersects (self : t) (sector : Airac.Sector) : t :=
  mk (groupby_filter (data self)
        (fun flight => Flight.intersects (Flight.mk flight) sector)).

(** What [inside_bbox] accepts: a sector, a geometry or the four
    numbers. *)
Inductive bounds_arg : Type :=
| OfSector (s : Airac.Sector)
| OfGeometry (g : Polygon)
| OfTuple (b : Q * Q * Q * Q).

Definition bounds_of (b : bounds_arg) : Q * Q * Q * Q :=
  match b with
  | OfSector s => bounds (Airac.flatten s)
  | OfGeometry g => bounds g
  | OfTuple b => b
  end.

Definition rounded_bounds (b : bounds_arg) : Q * Q * Q * Q :=
  let '(west, south, east, north) := bounds_of b in
  (quantize_ROUND_DOWN west, quantize_ROUND_DOWN south,
   quantize_ROUND_UP east, quantize_ROUND_UP north).

(** ["{0} <= lon1 <= {2} & {1} <= lat1 <= {3}"] *)
Definition bbox_query (box : Q * Q * Q * Q) (r : Segment) : bool :=
  let '(west, south, east, north) := box in
  (Qle_bool west (lon1 r) && Qle_bool (lon1 r) east)
  && (Qle_bool south (lat1 r) && Qle_bool (lat1 r) north).

Definition inside_bbox (self : t) (b : bounds_arg) : t :=
  let data_ := filter (bbox_query (rounded_bounds b)) (data self) in
  let callsigns := set_str (map callsign data_) in
  mk (groupby_filter (data self)
        (fun group =>
           match group with
           | first :: _ =>
               if in_dec string_dec (callsign first) callsigns
               then true else false
           | [] => false
           end)).

End WithShapely.

(** [select] takes another table, whose callsigns it uses, or the
    callsigns themselves. *)
Inductive select_query : Type :=
| OfSO6 (other : t)
| OfCallsigns (names : list string).

Definition select (self : t) (query : select_query) : t :=
  let query := match query with
               | OfSO6 other => callsigns other
               | OfCallsigns names => names
               end in
  select_callsigns self query.

End SO6.

(** ** [pathlib.Path(filename).suffixes] *)

(** [s.split(sep)] for a one-character separator. *)
Fixpoint split_on (sep : ascii) (s : list ascii) : list (list ascii) :=
  match s with
  | [] => [[]]
  | c :: s' =>
      if Ascii.eqb c sep then [] :: split_on sep s'
      else match split_on sep s' with
           | piece :: pieces => (c :: piece) :: pieces
           | [] => [[c]]
           end
  end.

Definition is_dot (c : ascii) : bool := Ascii.eqb c ".".

(** The final component of the path; empty and ["."] components do not
    count. *)
Definition path_name (filename : list ascii) : list ascii :=
  let parts := filter (fun part => match part with
                                   | [] => false
                                   | [c] => negb (is_dot c)
                                   | _ => true
                                   end)
                      (split_on "/" filename) in
  match last_error parts with
  | Some name => name
  | None => []
  end.

Fixpoint lstrip_dots (s : list ascii) : list ascii :=
  match s with
  | c :: s' => if is_dot c then lstrip_dots s' else s
  | [] => []
  end.

Definition endswith_dot (s : list ascii) : bool :=
  match last_error s with
  | Some c => is_dot c
  | None => false
  end.

Definition suffixes (filename : string) : list string :=
  let name := path_name (list_ascii_of_string filename) in
  if endswith_dot name then []
  else map (fun suffix => String "." (string_of_list_ascii suffix))
           (tl (split_on "." (lstrip_dots name))).

(** ** Loading a table *)

(** The three readers, which go to the file system. *)
Class Loaders : Type := {
  parse_pkl : string -> result SO6.t;
  parse_so6_7z : string -> result SO6.t;
  parse_so6 : string -> result SO6.t
}.

Definition suffixes_eqb (a b : list string) : bool :=
  if list_eq_dec string_dec a b then true else false.

Definition parse_file {L : Loaders} (filename : string) : result SO6.t :=
  let suffixes := suffixes filename in
  if suffixes_eqb suffixes [".pkl"%string] then parse_pkl filename
  else if suffixes_eqb suffixes [".so6"%string; ".7z"%string] then parse_so6_7z filename
  else if suffixes_eqb suffixes [".so6"%string] then parse_so6 filename
  else Raise ValueError.

(** All the suffixes of a file name, joined: the part of the final
    component from its first dot on, leading dots aside.  For [x.so6.7z]
    it is [.so6.7z], for [flights.2018.01.01.so6] it is
    [.2018.01.01.so6]. *)
Definition suffix_run (filename : string) : string :=
  String.concat "" (suffixes filename).

(** A file name has the extension [ext], as one usually says: its final
    component is a stem that is not empty, followed by [ext]. *)
Definition has_extension (ext filename : string) : Prop :=
  exists stem : list ascii,
    stem <> []
    /\ path_name (list_ascii_of_string filename)
       = stem ++ list_ascii_of_string ext.

(** ** SO6 objects and their tables

    An SO6 object is a reference; the store gives the table held by each
    object.  [SO6(df)] allocates a new object.  The filtering methods read
    [self.data] and build the new table with the operations of [SO6]
    above. *)

Module Objects.

Definition ref := nat.
Definition store := list DataFrame.
Definition M (A : Type) : Type := store -> result (A * store).

Definition ret {A} (a : A) : M A := fun h => Ok (a, h).

Definition mbind {A B} (m : M A) (k : A -> M B) : M B :=
  fun h => match m h with
           | Ok (a, h') => k a h'
           | Raise e => Raise e
           end.

(** [SO6(df)] *)
Definition new_SO6 (df : DataFrame) : M ref :=
  fun h => Ok (length h, h ++ [df]).

(** [self.data].  Every reference handed to a method holds an object; the
    other case only makes the function total. *)
Definition get_data (self : ref) : M DataFrame :=
  fun h => match nth_error h self with
           | Some df => Ok (df, h)
           | None => Raise TypeError
           end.

Definition at_ (self : ref) (time : datetime) : M ref :=
  mbind (get_data self) (fun df =>
  new_SO6 (SO6.data (SO6.at_ (SO6.mk df) time))).

Definition between (self : ref) (before : datetime) (after : time_or_delta) : M ref :=
  mbind (get_data self) (fun df =>
  new_SO6 (SO6.data (SO6.between (SO6.mk df) before after))).

Definition intersects {G : Shapely} (self : ref) (sector : Airac.Sector) : M ref :=
  mbind (get_data self) (fun df =>
  new_SO6 (SO6.data (SO6.intersects (SO6.mk df) sector))).

Definition inside_bbox {G : Shapely} (self : ref) (b : SO6.bounds_arg) : M ref :=
  mbind (get_data self) (fun df =>
  new_SO6 (SO6.data (SO6.inside_bbox (SO6.mk df) b))).

Inductive select_query : Type :=
| OfSO6 (other : ref)
| OfCallsigns (names : list string).

Definition select (self : ref) (query : select_query) : M ref :=
  mbind (match query with
         | OfSO6 other =>
             mbind (get_data other) (fun df => ret (SO6.callsigns (SO6.mk df)))
         | OfCallsigns names => ret names
         end) (fun query =>
  mbind (get_data self) (fun df =>
  new_SO6 (SO6.data (SO6.select_callsigns (SO6.mk df) query)))).

End Objects.

(** ** A small geometry: sets of unit cells of the grid

    Used to run the definitions on concrete inputs.  A polygon is a list of
    cells [(i, j)], standing for the squares [[i, i+1) x [j, j+1)]. *)

Module Cells.

Definition cell_of (x : Q * Q) : Z * Z := (Qfloor (fst x), Qfloor (snd x)).

Definition cell_eqb (a b : Z * Z) : bool :=
  (fst a =? fst b)%Z && (snd a =? snd b)%Z.

Definition mem (c : Z * Z) (p : list (Z * Z)) : bool := existsb (cell_eqb c) p.

Definition subset (p q : list (Z * Z)) : bool := forallb (fun c => mem c q) p.

Definition cell_bounds (p : list (Z * Z)) : Q * Q * Q * Q :=
  match p with
  | [] => (0, 0, 0, 0)
  | (i, j) :: p' =>
      let w := fold_left Z.min (map fst p') i in
      let s := fold_left Z.min (map snd p') j in
      let e := fold_left Z.max (map fst p') i in
      let n := fold_left Z.max (map snd p') j in
      (inject_Z w, inject_Z s, inject_Z (e + 1), inject_Z (n + 1))
  end.

(** The vertices of the line that lie in the polygon. *)
Definition cell_intersection (line : LineString) (p : list (Z * Z)) : BaseGeometry :=
  Simple (filter (fun '(x, y, _) => mem (cell_of (x, y)) p) line).

Definition geometry : Shapely := {|
  Polygon := list (Z * Z);
  cascaded_union := @concat (Z * Z);
  equals := fun p q => subset p q && subset q p;
  intersection := cell_intersection;
  bounds := cell_bounds
|}.

End Cells.

(** The cells as regions of the plane. *)

Lemma cells_mem_iff (c : Z * Z) (p : list (Z * Z)) :
  Cells.mem c p = true <-> In c p.
Proof.
  unfold Cells.mem. rewrite existsb_exists. split.
  - intros [d [Hd Heq]]. unfold Cells.cell_eqb in Heq.
    apply andb_true_iff in Heq. destruct Heq as [H1 H2].
    apply Z.eqb_eq in H1, H2. destruct c, d; cbn in *. now subst.
  - intros Hin. exists c. split; [exact Hin|].
    unfold Cells.cell_eqb. now rewrite !Z.eqb_refl.
Qed.

Lemma cells_subset_iff (p q : list (Z * Z)) :
  Cells.subset p q = true <-> incl p q.
Proof.
  unfold Cells.subset, incl. rewrite forallb_forall.
  split; intros H c Hc; apply cells_mem_iff; now apply H.
Qed.

Lemma cells_union (ps : list (list (Z * Z))) (x : Q * Q) :
  In (Cells.cell_of x) (concat ps)
  <-> exists p, In p ps /\ In (Cells.cell_of x) p.
Proof. apply in_concat. Qed.

Lemma cells_equals (p q : list (Z * Z)) :
  Cells.subset p q && Cells.subset q p = true ->
  forall x : Q * Q, In (Cells.cell_of x) p <-> In (Cells.cell_of x) q.
Proof.
  intros H x. apply andb_true_iff in H. destruct H as [H1 H2].
  apply cells_subset_iff in H1, H2. split; [apply H1 | apply H2].
Qed.

Definition Cells_regions : ShapelyRegions Cells.geometry := {|
  covers := fun (p : @Polygon Cells.geometry) x => In (Cells.cell_of x) p;
  covers_cascaded_union := cells_union;
  covers_equals := cells_equals
|}.

(** Two bands with one footprint, at [0, 100] and at [100, 200], and what
    they slice to: the one band [0, 200]. *)
Definition two_levels : list (@Airac.PolyAlt Cells.geometry) :=
  [([(0, 0)%Z], Some (Fin 0), Some (Fin 100));
   ([(0, 0)%Z], Some (Fin 100), Some (Fin 200))].

(** ** Sample data *)

Module Sample.

Definition seg (id : Z) (cs : string) (t1 t2 : datetime)
           (x1 y1 z1 x2 y2 z2 : Q) : Segment :=
  mkSegment id cs "LFBO" "LFPO" "A320" t1 t2 x1 y1 z1 x2 y2 z2.

(** One flight of two segments, from time 0 to 5 and from 5 to 10. *)
Definition leg1 : Segment :=
  seg 1%Z "AFR101" 0%Z 5%Z 10 10 0 (1#2) (1#2) 30000.
Definition leg2 : Segment :=
  seg 1%Z "AFR101" 5%Z 10%Z (1#2) (1#2) 30000 3 3 10000.
Definition table : SO6.t := SO6.mk [leg1; leg2].

(** A flight of one segment, from time 0 to 10. *)
Definition single : Flight.t :=
  Flight.mk [seg 2%Z "BAW22" 0%Z 10%Z 0 0 0 10 20 30000].

(** Readers that tell which of them was called. *)
Definition loaders : Loaders := {|
  parse_pkl := fun _ => Ok table;
  parse_so6_7z := fun _ => Ok (SO6.mk [leg1]);
  parse_so6 := fun _ => Ok (SO6.mk [leg2])
|}.

End Sample.

(** ** Vocabulary of the statements *)

(** [y] has two decimal places. *)
Definition hundredth (y : Q) : Prop := exists k : Z, y = k # 100.

(** [y] is [x] cut to two decimal places: the nearest hundredth between
    zero and [x]. *)
Definition rounds_toward_zero (x y : Q) : Prop :=
  hundredth y
  /\ (0 <= x -> y <= x /\ x < y + (1 # 100))
  /\ (x <= 0 -> x <= y /\ y - (1 # 100) < x).

(** [y] is the nearest hundredth at or beyond [x], going away from zero. *)
Definition rounds_away_from_zero (x y : Q) : Prop :=
  hundredth y
  /\ (0 <= x -> x <= y /\ y < x + (1 # 100))
  /\ (x <= 0 -> y <= x /\ x - (1 # 100) < y).

(** The start point [(lon1, lat1)] of a segment lies in the box. *)
Definition starts_in_box (box : Q * Q * Q * Q) (r : Segment) : Prop :=
  let '(west, south, east, north) := box in
  (west <= lon1 r /\ lon1 r <= east) /\ (south <= lat1 r /\ lat1 r <= north).

(** The first row of the flight a segment belongs to. *)
Definition first_of_flight (df : DataFrame) (r : Segment) : option Segment :=
  hd_error (get_group df (flight_id r)).

(** Order on floats. *)
Definition pyfloat_lt (a b : pyfloat) : Prop :=
  match a, b with
  | NegInf, NegInf => False
  | NegInf, _ => True
  | Fin x, Fin y => x < y
  | Fin _, PosInf => True
  | _, _ => False
  end.

Definition pyfloat_le (a b : pyfloat) : Prop := ~ pyfloat_lt b a.

(** All the coordinate points of a geometry. *)
Definition geometry_points (g : BaseGeometry) : list Coord :=
  match g with
  | Simple coords => coords
  | Multipart parts => concat parts
  end.

(** The altitude of a point. *)
Definition altitude (x : Coord) : Q := snd x.

(** A band of a sector is crossed by a line: their planar intersection is
    not empty and one of its points has its altitude strictly between the
    limits of the band, times 100. *)
Definition crosses_band {G : Shapely} (line : LineString)
           (band : Airac.ExtrudedPolygon) : Prop :=
  let ix := intersection line (Airac.polygon band) in
  is_empty ix = false
  /\ exists x, In x (geometry_points ix)
               /\ pyfloat_lt (pyfloat_scale 100 (Airac.lower band)) (Fin (altitude x))
               /\ pyfloat_lt (Fin (altitude x)) (pyfloat_scale 100 (Airac.upper band)).

(** The value [v] of a limit read from the element [e]: the default when
    there is no element or when its text does not start with three digits,
    the number its text denotes otherwise. *)
Definition limit_value (default : pyfloat) (e : option Airac.Element)
           (v : pyfloat) : Prop :=
  match e with
  | None => v = default
  | Some elt =>
      exists s, Airac.text elt = Some s
                /\ if Airac.starts_with_three_digits s
                   then Airac.float_ s = Ok v
                   else v = default
  end.

(** Two floats that compare equal. *)
Definition pyfloat_same (a b : pyfloat) : Prop :=
  pyfloat_le a b /\ pyfloat_le b a.

(** A band lies below another: its upper limit is at most the lower limit
    of the other, so that the two share no altitude but, at most, that
    limit. *)
Definition band_below {G : Shapely} (b1 b2 : Airac.ExtrudedPolygon) : Prop :=
  pyfloat_le (Airac.upper b1) (Airac.lower b2).

(** Bands in ascending altitude order that are pairwise altitude-disjoint:
    every band lies below all the bands after it, and each band has its
    lower limit under its upper limit. *)
Definition ascending_disjoint {G : Shapely} (out : Airac.SectorList) : Prop :=
  StronglySorted band_below out
  /\ Forall (fun b => pyfloat_lt (Airac.lower b) (Airac.upper b)) out.

(** A point of the plane lies in the footprint of some band. *)
Definition covered_by {G : Shapely} {R : ShapelyRegions G}
           (out : Airac.SectorList) (x : Q * Q) : Prop :=
  exists b, In b out /\ covers (Airac.polygon b) x.

Definition covered_by_input {G : Shapely} {R : ShapelyRegions G}
           (polyalt : list Airac.PolyAlt) (x : Q * Q) : Prop :=
  exists p low up, In (p, low, up) polyalt /\ covers p x.

(** The recorded points of a flight, each with its time. *)
Definition recorded (f : Flight.t) : list (datetime * Coord) :=
  combine (Flight.times f) (Flight.coords f).

(** The recorded points with a time strictly between [t0] and [t1]. *)
Definition recorded_between (f : Flight.t) (t0 t1 : datetime)
  : list (datetime * Coord) :=
  filter (fun tc => (t0 <? fst tc)%Z && (fst tc <? t1)%Z) (recorded f).

(** The end of a sub-trajectory at a boundary time [t]: one interpolated
    point, at exactly [t] and where [at(t)] is, when [inside] holds;
    nothing otherwise. *)
Definition synthetic_end (f : Flight.t) (inside : Prop) (t : datetime)
           (e : list (datetime * Coord)) : Prop :=
  (inside /\ exists p, Flight.at_ f t = Ok p /\ e = [(t, p)])
  \/ (~ inside /\ e = []).

(** The flight [g] goes through the timed points [knots], and through
    nothing else; fewer than two points make no segment. *)
Definition follows (g : Flight.t) (knots : list (datetime * Coord)) : Prop :=
  ((2 <= length knots)%nat ->
   Flight.times g = map fst knots /\ Flight.coords g = map snd knots)
  /\ ((length knots < 2)%nat -> Flight.data g = []).

(** The segment from one timed point to the next, with the metadata of
    [meta]. *)
Definition segment_between (meta : Segment) (k1 k2 : datetime * Coord) : Segment :=
  let '(t1, (x1, y1, z1)) := k1 in
  let '(t2, (x2, y2, z2)) := k2 in
  mkSegment (flight_id meta) (callsign meta) (origin meta) (destination meta)
            (aircraft meta) t1 t2 x1 y1 z1 x2 y2 z2.

(** The segments that join timed points, in order. *)
Fixpoint segments_of (meta : Segment) (knots : list (datetime * Coord)) : DataFrame :=
  match knots with
  | k1 :: rest =>
      match rest with
      | k2 :: _ => segment_between meta k1 k2 :: segments_of meta rest
      | [] => []
      end
  | [] => []
  end.

(** What it means for a method call to return a new object holding [df']
    and to leave every existing object, the receiver among them, with the
    table it had. *)
Definition returns_new (m : Objects.M Objects.ref) (h : Objects.store)
           (self : Objects.ref) (df' : DataFrame) : Prop :=
  exists (r : Objects.ref) (h' : Objects.store),
    m h = Ok (r, h')
    /\ r <> self
    /\ nth_error h r = None
    /\ nth_error h' r = Some df'
    /\ nth_error h' self = nth_error h self
    /\ forall o df, nth_error h o = Some df -> nth_error h' o = Some df.

(** A suffix: a dot, then characters that are not dots. *)
Definition is_suffix (s : string) : Prop :=
  exists p, s = String "." (string_of_list_ascii p) /\ ~ In "."%char p.

(** The concatenation of suffixes is empty or starts with a dot. *)
Definition dot_led (s : string) : Prop :=
  s = EmptyString \/ exists s', s = String "." s'.

(** Consecutive pairs: every pair goes up, and starts where the one before
    it ends. *)
Fixpoint chained (cur : pyfloat) (pairs : list (pyfloat * pyfloat)) : Prop :=
  match pairs with
  | [] => True
  | (low, up) :: rest => low = cur /\ pyfloat_lt low up /\ chained up rest
  end.

(** The results end at the altitude where the next slice starts. *)
Definition ends_at {G : Shapely} (cur : pyfloat) (results : Airac.SectorList) : Prop :=
  match last_error results with
  | None => True
  | Some prev => Airac.upper prev = cur
  end.

Definition knot_le (a b : Q * Coord) : Prop := fst a <= fst b.

Definition timed (k : datetime * Coord) : Q * Coord :=
  (Flight.timestamp (fst k), snd k).

(** ** Further functions of [traffic/so6/so6.py] *)

(** [timedelta(hours=h, minutes=m, seconds=s)], in microseconds. *)
Definition py_timedelta (hours minutes seconds : Z) : timedelta :=
  ((hours * 3600 + minutes * 60 + seconds) * 1000000)%Z.

(** [hour(int_)]: the time of day written as the digits HHMMSS. *)
Definition hour (int_ : Z) : timedelta :=
  py_timedelta (int_ / 10000) (int_ / 100 mod 100) (int_ mod 100).

(** A clock reading: its minutes and its seconds are under 60. *)
Definition clock_reading (int_ : Z) : Prop :=
  (int_ / 100 mod 100 < 60)%Z /\ (int_ mod 100 < 60)%Z.

(** [SO6.__getitem__] with an integer: the flight of the rows carrying this
    identifier.  [get_group] raises [KeyError] when no row does; [None]
    stands for it. *)
Definition SO6_getitem_int (self : SO6.t) (_id : Z) : option Flight.t :=
  match get_group (SO6.data self) _id with
  | [] => None
  | group => Some (Flight.mk group)
  end.

(** [SO6.__getitem__] with a string: the rows carrying this callsign, as
    one flight. *)
Definition SO6_getitem_str (self : SO6.t) (_id : string) : option Flight.t :=
  match filter (fun r => String.eqb (callsign r) _id) (SO6.data self) with
  | [] => None
  | group => Some (Flight.mk group)
  end.

(** The keys of [groupby('flight_id')], which come in ascending order. *)
Fixpoint insert_id (x : Z) (l : list Z) : list Z :=
  match l with
  | [] => [x]
  | y :: l' =>
      if (x <? y)%Z then x :: l
      else if (y <? x)%Z then y :: insert_id x l'
      else l
  end.

Definition group_keys (df : DataFrame) : list Z :=
  fold_right insert_id [] (map flight_id df).

(** [SO6.__iter__]: what the generator yields, in order. *)
Definition SO6_iter (self : SO6.t) : list (Z * Flight.t) :=
  map (fun flight_id => (flight_id, Flight.mk (get_group (SO6.data self) flight_id)))
      (group_keys (SO6.data self)).


(** The rows carry the metadata of [meta]. *)
Definition same_metadata (meta r : Segment) : Prop :=
  flight_id r = flight_id meta /\ callsign r = callsign meta
  /\ origin r = origin meta /\ destination r = destination meta
  /\ aircraft r = aircraft meta.

(** Each segment starts where and when the one before it ends. *)
Fixpoint contiguous_rows (rows : DataFrame) : Prop :=
  match rows with
  | r :: rest =>
      match rest with
      | r' :: _ =>
          time2 r = time1 r' /\ Flight.point2 r = Flight.point1 r'
          /\ contiguous_rows rest
      | [] => True
      end
  | [] => True
  end.

(** [SO6.get(callsign)]: what the generator yields, in order.  The rows
    with this callsign are grouped by flight identifier; [get_group] raises
    [KeyError] when no row has the callsign, and [None] stands for it. *)
Definition SO6_get (self : SO6.t) (callsign_ : string)
  : option (list (Z * Flight.t)) :=
  match filter (fun r => String.eqb (callsign r) callsign_) (SO6.data self) with
  | [] => None
  | all_flights =>
      Some (map (fun flight_id =>
                   (flight_id, Flight.mk (get_group all_flights flight_id)))
                (group_keys all_flights))
  end.

(** ** Further functions of [traffic/data/airac.py] *)

(** [min(a, b)] and [max(a, b)] of Python: the first argument, unless the
    second is strictly smaller (larger). *)
Definition pyfloat_min (a b : pyfloat) : pyfloat :=
  if pyfloat_ltb b a then b else a.

Definition pyfloat_max (a b : pyfloat) : pyfloat :=
  if pyfloat_ltb a b then b else a.

(** A point of space: [(x, y, altitude)], the altitude a float. *)
Definition Point3 : Type := (Q * Q * pyfloat)%type.

(** [np.c_[c, alt]] for a constant column [alt]. *)
Definition with_alt (alt : pyfloat) (c : list (Q * Q)) : list Point3 :=
  map (fun xy => (fst xy, snd xy, alt)) c.

(** [rows[i:j]] for [0 <= i <= j]. *)
Definition rows_slice {A} (rows : list A) (i j : nat) : list A :=
  firstn (j - i) (skipn i rows).

(** [range(n, 1, -1)] *)
Definition range_down_to_2 (n : nat) : list nat := rev (seq 2 (n - 1)).

(** [Polygon(shell)] for a shell given by its points: a ring needs three
    of them. *)
Definition Polygon3 (shell : list Point3) : result (list Point3) :=
  if (length shell <? 3)%nat then Raise ValueError else Ok shell.

(** Running a list of computations in order, as a generator that is
    consumed to its end does. *)
Fixpoint sequence {A} (rs : list (result A)) : result (list A) :=
  match rs with
  | [] => Ok []
  | r :: rest => x <- r ;; xs <- sequence rest ;; Ok (x :: xs)
  end.

Section Decompose.
Context {G : Shapely}.

(** [polygon.exterior.coords]: the ring of a polygon, closed (its last
    point is its first) when the polygon is not empty. *)
Variable exterior_coords : Polygon -> list (Q * Q).

(** [Sector.decompose(extr_p)]: the polygons the generator yields. *)
Definition Sector_decompose (extr_p : Airac.ExtrudedPolygon)
  : result (list (list Point3)) :=
  c <- stack (exterior_coords (Airac.polygon extr_p)) ;;
  let n := length c in
  let alt := pyfloat_scale (3048 # 100)
                           (pyfloat_min (Airac.upper extr_p) (Fin 400)) in
  let upper_layer := with_alt alt c in
  let alt := pyfloat_scale (3048 # 100)
                           (pyfloat_max (Fin 0) (Airac.lower extr_p)) in
  let lower_layer := rev (with_alt alt c) in
  sequence
    (Polygon3 upper_layer
       :: Polygon3 lower_layer
       :: map (fun '(i, j) =>
                 Polygon3 (rows_slice lower_layer i (i + 2)
                             ++ rows_slice upper_layer (j - 2) j))
              (combine (seq 0 (n - 1)) (range_down_to_2 n))).

End Decompose.

(** Each band starts at the altitude where the band before it ends. *)
Fixpoint stacked {G : Shapely} (out : Airac.SectorList) : Prop :=
  match out with
  | b :: rest =>
      match rest with
      | b' :: _ => Airac.upper b = Airac.lower b' /\ stacked rest
      | [] => True
      end
  | [] => True
  end.

(** The results start at the altitude [cur]. *)
Definition starts_at {G : Shapely} (cur : pyfloat) (results : Airac.SectorList)
  : Prop :=
  match results with
  | [] => True
  | first :: _ => Airac.lower first = cur
  end.

(** The limit element is there and its text starts with three digits: the
    limit is read from the text. *)
Definition read_from_text (e : option Airac.Element) : Prop :=
  exists elt s,
    e = Some elt /\ Airac.text elt = Some s
    /\ Airac.starts_with_three_digits s = true.

(* ================================================================== *)
(** * Properties *)
(* ================================================================== *)

Unset Implicit Arguments.

(** ** The number of flights of a table *)

Lemma nodup_length_same_members (l l' : list Z) :
  (forall i, In i l <-> In i l') ->
  length (nodup Z.eq_dec l) = length (nodup Z.eq_dec l').
Proof.
  intros Hsame. apply Permutation_length, NoDup_Permutation.
  - apply NoDup_nodup.
  - apply NoDup_nodup.
  - intros i. rewrite !nodup_In. apply Hsame.
Qed.

(** C10. [len(s)] is the number of distinct [flight_id] values of the
    table: it is the length of any duplicate-free enumeration of the
    identifiers that occur in it.  It is not the number of rows: inserting
    anywhere one more segment of a flight that is already present leaves it
    unchanged. *)
Theorem C10_len_counts_distinct_flight_ids (s : SO6.t) :
  (forall ids : list Z,
      NoDup ids ->
      (forall i, In i ids <-> exists r, In r (SO6.data s) /\ flight_id r = i) ->
      SO6.len s = length ids)
  /\
  (forall (pre post : DataFrame) (r : Segment),
      SO6.data s = pre ++ post ->
      (exists r', In r' (SO6.data s) /\ flight_id r' = flight_id r) ->
      SO6.len (SO6.mk (pre ++ r :: post)) = SO6.len s).
Proof.
  split.
  - intros ids Hnd Hids. unfold SO6.len, SO6.flight_ids, set_Z.
    apply Permutation_length, NoDup_Permutation; auto using NoDup_nodup.
    intros i. rewrite nodup_In, in_map_iff, Hids.
    split; intros [r [H1 H2]]; exists r; tauto.
  - intros pre post r Hdata [r' [Hin Hid]].
    unfold SO6.len, SO6.flight_ids, set_Z; cbn [SO6.data].
    apply nodup_length_same_members. intros i.
    rewrite Hdata in Hin |- *. rewrite !in_map_iff. split.
    + intros [x [Hx Hi]]. apply in_app_iff in Hi.
      destruct Hi as [Hi|[Hi|Hi]].
      * exists x. split; [exact Hx | apply in_app_iff; now left].
      * subst x. exists r'. split; [congruence | exact Hin].
      * exists x. split; [exact Hx | apply in_app_iff; now right].
    + intros [x [Hx Hi]]. exists x. split; [exact Hx|].
      apply in_app_iff in Hi. apply in_app_iff. cbn [In]. tauto.
Qed.

Lemma C10_witness :
  SO6.len Sample.table = 1%nat
  /\ SO6.len (SO6.mk (Sample.leg1 :: Sample.leg1 :: [Sample.leg2]))
     = SO6.len Sample.table.
Proof.
  destruct (C10_len_counts_distinct_flight_ids Sample.table) as [Hcount Hdup].
  split.
  - apply (Hcount [1%Z]).
    + constructor; [intros [] | constructor].
    + intros i; split.
      * intros [<- | []]. exists Sample.leg1. split; [now left | reflexivity].
      * intros [r [[<- | [<- | []]] <-]]; now left.
  - apply (Hdup [Sample.leg1] [Sample.leg2] Sample.leg1).
    + reflexivity.
    + exists Sample.leg1. split; [now left | reflexivity].
Defined.

(** ** Filtering a table in time *)

Lemma in_at_iff (s : SO6.t) (t : datetime) (r : Segment) :
  In r (SO6.data (SO6.at_ s t))
  <-> In r (SO6.data s) /\ (time1 r <= t < time2 r)%Z.
Proof.
  unfold SO6.at_; cbn [SO6.data]. rewrite filter_In, andb_true_iff.
  rewrite Z.leb_le, Z.gtb_lt. tauto.
Qed.

Lemma in_between_iff (s : SO6.t) (before : datetime) (after : time_or_delta)
      (r : Segment) :
  In r (SO6.data (SO6.between s before after))
  <-> In r (SO6.data s)
      /\ (time1 r <= resolve_after before after)%Z /\ (before <= time2 r)%Z.
Proof.
  unfold SO6.between; cbn [SO6.data]. rewrite filter_In, andb_true_iff.
  rewrite Z.leb_le, Z.geb_le. tauto.
Qed.

(** C3, as the code has it.  [at(t)] keeps exactly the segments with
    [time1 <= t < time2]; [between(t, t)] keeps exactly those with
    [time1 <= t <= time2].  So [at(t)] is [between(t, t)] without the
    segments that end at [t], and applying [between(t, t)] after [at(t)]
    changes nothing. *)
Theorem C3_at_within_between (s : SO6.t) (t : datetime) :
  (forall r, In r (SO6.data (SO6.at_ s t))
             <-> In r (SO6.data s) /\ (time1 r <= t < time2 r)%Z)
  /\ (forall r, In r (SO6.data (SO6.between s t (Time t)))
                <-> In r (SO6.data s) /\ (time1 r <= t <= time2 r)%Z)
  /\ SO6.data (SO6.at_ s t)
     = filter (fun r => negb (time2 r =? t)%Z)
              (SO6.data (SO6.between s t (Time t)))
  /\ SO6.between (SO6.at_ s t) t (Time t) = SO6.at_ s t.
Proof.
  split; [|split; [|split]].
  - intros r. apply in_at_iff.
  - intros r. rewrite in_between_iff. cbn [resolve_after]. tauto.
  - unfold SO6.at_, SO6.between; cbn [SO6.data resolve_after].
    induction (SO6.data s) as [|r df IH]; [reflexivity|].
    cbn [filter].
    destruct (Z.leb_spec (time1 r) t); cbn [andb].
    + destruct (Z.gtb_spec (time2 r) t), (Z.geb_spec (time2 r) t);
        try lia; cbn [filter].
      * destruct (Z.eqb_spec (time2 r) t); [lia|]. cbn [negb]. now rewrite IH.
      * destruct (Z.eqb_spec (time2 r) t); [|lia]. cbn [negb]. exact IH.
      * exact IH.
    + exact IH.
  - unfold SO6.at_, SO6.between; cbn [SO6.data resolve_after]. f_equal.
    induction (SO6.data s) as [|r df IH]; [reflexivity|].
    cbn [filter].
    destruct (Z.leb_spec (time1 r) t), (Z.gtb_spec (time2 r) t);
      cbn [andb filter]; try exact IH.
    destruct (Z.leb_spec (time1 r) t), (Z.geb_spec (time2 r) t);
      try lia; cbn [andb]. now rewrite IH.
Qed.

(** C3 as stated fails: a segment that ends exactly at [t] is in
    [between(t, t)] and not in [at(t)]. *)
Lemma C3_counterexample :
  In Sample.leg1 (SO6.data (SO6.between Sample.table 5%Z (Time 5%Z)))
  /\ ~ In Sample.leg1 (SO6.data (SO6.at_ Sample.table 5%Z)).
Proof.
  split.
  - now left.
  - cbn. intros [H | []]. discriminate H.
Qed.

(** ** Objects: the receiver keeps its table *)

Lemma new_SO6_returns_new (h : Objects.store) (self : Objects.ref)
      (df df' : DataFrame) :
  nth_error h self = Some df ->
  returns_new (Objects.new_SO6 df') h self df'.
Proof.
  intros Hself. exists (length h), (h ++ [df']).
  assert (Hlt : (self < length h)%nat)
    by (apply nth_error_Some; congruence).
  repeat split.
  - lia.
  - apply nth_error_None. lia.
  - rewrite nth_error_app2, Nat.sub_diag by lia. reflexivity.
  - apply nth_error_app1. exact Hlt.
  - intros o d Ho. rewrite nth_error_app1; [exact Ho|].
    apply nth_error_Some. congruence.
Qed.

Lemma read_then_new (f : DataFrame -> DataFrame) (h : Objects.store)
      (self : Objects.ref) (df : DataFrame) :
  nth_error h self = Some df ->
  returns_new (Objects.mbind (Objects.get_data self)
                             (fun d => Objects.new_SO6 (f d))) h self (f df).
Proof.
  intros Hself.
  destruct (@new_SO6_returns_new h self df (f df) Hself)
    as [r [h' [Hrun Hrest]]].
  exists r, h'. split; [|exact Hrest].
  unfold Objects.mbind, Objects.get_data. rewrite Hself. exact Hrun.
Qed.

(** C9. Each filtering method of an SO6 object ([at], [between],
    [intersects], [inside_bbox], [select]) returns a new object, different
    from the receiver and from every object that existed, and leaves the
    table of the receiver, and of every other object, as it was. *)
Theorem C9_filters_leave_receiver_unchanged {G : Shapely}
        (h : Objects.store) (self : Objects.ref) (df : DataFrame) :
  nth_error h self = Some df ->
  (forall time,
      returns_new (Objects.at_ self time) h self
                  (SO6.data (SO6.at_ (SO6.mk df) time)))
  /\ (forall before after,
         returns_new (Objects.between self before after) h self
                     (SO6.data (SO6.between (SO6.mk df) before after)))
  /\ (forall sector,
         returns_new (Objects.intersects self sector) h self
                     (SO6.data (SO6.intersects (SO6.mk df) sector)))
  /\ (forall b,
         returns_new (Objects.inside_bbox self b) h self
                     (SO6.data (SO6.inside_bbox (SO6.mk df) b)))
  /\ (forall names,
         returns_new (Objects.select self (Objects.OfCallsigns names)) h self
                     (SO6.data (SO6.select (SO6.mk df) (SO6.OfCallsigns names))))
  /\ (forall other df_other,
         nth_error h other = Some df_other ->
         returns_new (Objects.select self (Objects.OfSO6 other)) h self
                     (SO6.data (SO6.select (SO6.mk df)
                                           (SO6.OfSO6 (SO6.mk df_other))))).
Proof.
  intros Hself. repeat split.
  - intros time.
    apply (@read_then_new (fun d => SO6.data (SO6.at_ (SO6.mk d) time)) _ _ _ Hself).
  - intros before after.
    apply (@read_then_new
             (fun d => SO6.data (SO6.between (SO6.mk d) before after)) _ _ _ Hself).
  - intros sector.
    apply (@read_then_new
             (fun d => SO6.data (SO6.intersects (SO6.mk d) sector)) _ _ _ Hself).
  - intros b.
    apply (@read_then_new
             (fun d => SO6.data (SO6.inside_bbox (SO6.mk d) b)) _ _ _ Hself).
  - intros names.
    apply (@read_then_new
             (fun d => SO6.data (SO6.select_callsigns (SO6.mk d) names)) _ _ _ Hself).
  - intros other df_other Hother.
    destruct (@read_then_new
                (fun d => SO6.data (SO6.select_callsigns
                                      (SO6.mk d) (SO6.callsigns (SO6.mk df_other))))
                _ _ _ Hself) as [r [h' [Hrun Hrest]]].
    exists r, h'. split; [|exact Hrest].
    unfold Objects.select, Objects.mbind, Objects.get_data, Objects.ret.
    rewrite Hother.
    unfold Objects.mbind, Objects.get_data in Hrun. exact Hrun.
Qed.

Lemma C9_witness :
  nth_error [SO6.data Sample.table] 0 = Some (SO6.data Sample.table)
  /\ returns_new (Objects.at_ 0%nat 5%Z) [SO6.data Sample.table] 0%nat
                 (SO6.data (SO6.at_ Sample.table 5%Z)).
Proof.
  split; [reflexivity|].
  apply (@C9_filters_leave_receiver_unchanged Cells.geometry
           [SO6.data Sample.table] 0%nat (SO6.data Sample.table)).
  reflexivity.
Defined.

(** ** Choosing a loader *)

Lemma split_on_nonempty (sep : ascii) (s : list ascii) : split_on sep s <> [].
Proof.
  destruct s as [|c s]; cbn; [discriminate|].
  destruct (Ascii.eqb c sep); [discriminate|].
  destruct (split_on sep s); discriminate.
Qed.

Lemma split_on_pieces (sep : ascii) (s : list ascii) :
  Forall (fun piece => ~ In sep piece) (split_on sep s).
Proof.
  induction s as [|c s IH]; cbn.
  - constructor; [intros [] | constructor].
  - destruct (Ascii.eqb_spec c sep) as [->|Hne].
    + constructor; [intros [] | exact IH].
    + destruct (split_on sep s) as [|piece pieces]; [constructor; [|constructor]|].
      * intros [H|[]]. congruence.
      * inversion IH; subst. constructor; [|assumption].
        intros [H|H]; [congruence | contradiction].
Qed.

Lemma suffixes_are_suffixes (filename : string) :
  Forall is_suffix (suffixes filename).
Proof.
  unfold suffixes. destruct (endswith_dot _); [constructor|].
  apply Forall_map.
  pose proof (split_on_pieces "." (lstrip_dots (path_name (list_ascii_of_string filename)))) as H.
  destruct (split_on _ _) as [|x l]; [constructor|].
  inversion H; subst. cbn [tl].
  eapply Forall_impl; [|eassumption].
  intros p Hp. exists p. split; [reflexivity | exact Hp].
Qed.

Lemma concat_cons (x : string) (xs : list string) :
  String.concat "" (x :: xs) = (x ++ String.concat "" xs)%string.
Proof.
  destruct xs as [|y ys]; cbn [String.concat].
  - clear. induction x as [|c x IH]; cbn; [reflexivity | now rewrite <- IH].
  - reflexivity.
Qed.

Lemma concat_dot_led (l : list string) :
  Forall is_suffix l -> dot_led (String.concat "" l).
Proof.
  intros H. destruct H as [|x xs [p [-> _]] _]; [now left|].
  right. rewrite concat_cons. cbn. eauto.
Qed.

Lemma dotfree_app_inj (p1 p2 : list ascii) (c1 c2 : string) :
  ~ In "."%char p1 -> ~ In "."%char p2 -> dot_led c1 -> dot_led c2 ->
  (string_of_list_ascii p1 ++ c1 = string_of_list_ascii p2 ++ c2)%string ->
  p1 = p2 /\ c1 = c2.
Proof.
  revert p2. induction p1 as [|a p1 IH]; intros [|b p2] H1 H2 Hc1 Hc2 Heq; cbn in *.
  - auto.
  - exfalso. subst c1. destruct Hc1 as [H|[s' H]]; [discriminate|].
    injection H as Hb _. subst b. tauto.
  - exfalso. subst c2. destruct Hc2 as [H|[s' H]]; [discriminate|].
    injection H as Ha _. subst a. tauto.
  - injection Heq as -> Heq.
    destruct (IH p2) as [-> ->]; auto.
Qed.

Lemma concat_suffixes_inj (l1 l2 : list string) :
  Forall is_suffix l1 -> Forall is_suffix l2 ->
  String.concat "" l1 = String.concat "" l2 -> l1 = l2.
Proof.
  intros H1. revert l2.
  induction H1 as [|x xs [p [-> Hp]] Hxs IH]; intros l2 H2 Heq.
  - destruct H2 as [|y ys [q [-> _]] _]; [reflexivity|].
    rewrite concat_cons in Heq. discriminate.
  - destruct H2 as [|y ys [q [-> Hq]] Hys].
    + rewrite concat_cons in Heq. discriminate.
    + rewrite !concat_cons in Heq. cbn in Heq. injection Heq as Heq.
      apply dotfree_app_inj in Heq; auto using concat_dot_led.
      destruct Heq as [-> Heq]. f_equal. apply IH; assumption.
Qed.

Lemma suffix_run_is (filename : string) (l : list string) :
  Forall is_suffix l ->
  (suffix_run filename = String.concat "" l <-> suffixes filename = l).
Proof.
  intros Hl. unfold suffix_run. split.
  - intros H. apply concat_suffixes_inj; auto using suffixes_are_suffixes.
  - now intros ->.
Qed.

Lemma suffixes_eqb_true (a b : list string) : suffixes_eqb a b = true <-> a = b.
Proof.
  unfold suffixes_eqb. destruct (list_eq_dec string_dec a b); split;
    congruence.
Qed.

Ltac suffix_list :=
  repeat constructor;
  match goal with
  | |- is_suffix (String _ ?s) =>
      exists (list_ascii_of_string s); split; [reflexivity|];
      cbn; intuition discriminate
  end.

(** The pieces of a split, joined again with the separator, give the
    string back. *)
Lemma join_split_on (sep : ascii) (s : list ascii) :
  forall p ps,
    split_on sep s = p :: ps -> s = p ++ concat (map (cons sep) ps).
Proof.
  induction s as [|c s IH]; intros p ps H; cbn in H.
  - injection H as <- <-. reflexivity.
  - destruct (Ascii.eqb_spec c sep) as [->|Hne].
    + injection H as <- <-.
      destruct (split_on sep s) as [|q qs] eqn:E;
        [now apply split_on_nonempty in E|].
      cbn [map concat app]. f_equal. now apply IH.
    + destruct (split_on sep s) as [|q qs] eqn:E;
        [now apply split_on_nonempty in E|].
      injection H as <- <-. cbn [app]. f_equal. now apply IH.
Qed.

Lemma lstrip_dots_split (s : list ascii) :
  exists dots, s = dots ++ lstrip_dots s.
Proof.
  induction s as [|c s [dots IH]]; [now exists []|]. cbn.
  destruct (is_dot c).
  - exists (c :: dots). cbn. now f_equal.
  - now exists [].
Qed.

Lemma lstrip_dots_head (s r : list ascii) (c : ascii) :
  lstrip_dots s = c :: r -> is_dot c = false.
Proof.
  induction s as [|d s IH]; [discriminate|]. cbn.
  destruct (is_dot d) eqn:E; [exact IH|]. intros H. now injection H as <- _.
Qed.

Lemma list_ascii_of_string_app (a b : string) :
  list_ascii_of_string (a ++ b)
  = list_ascii_of_string a ++ list_ascii_of_string b.
Proof. induction a as [|c a IH]; cbn; [reflexivity | now rewrite IH]. Qed.

Lemma suffixes_joined (ps : list (list ascii)) :
  list_ascii_of_string
    (String.concat "" (map (fun suffix => String "." (string_of_list_ascii suffix))
                           ps))
  = concat (map (cons "."%char) ps).
Proof.
  induction ps as [|q qs IH]; [reflexivity|].
  cbn [map]. rewrite concat_cons, list_ascii_of_string_app, IH.
  cbn [list_ascii_of_string concat app].
  now rewrite list_ascii_of_string_of_list_ascii.
Qed.

(** A file name ends with the run of its suffixes. *)
Lemma suffix_run_ends_name (filename : string) :
  suffix_run filename <> ""%string ->
  has_extension (suffix_run filename) filename.
Proof.
  unfold suffix_run, suffixes, has_extension. cbv zeta.
  set (name := path_name (list_ascii_of_string filename)).
  destruct (endswith_dot name); [intros H; now exfalso|].
  destruct (split_on "." (lstrip_dots name)) as [|p0 ps] eqn:E;
    [now apply split_on_nonempty in E|].
  cbn [tl]. intros Hrun.
  destruct ps as [|q qs]; [now exfalso|].
  destruct (lstrip_dots_split name) as [dots Hname].
  pose proof (join_split_on "." _ _ _ E) as Hjoin.
  exists (dots ++ p0). split.
  - intros Hnil. apply app_eq_nil in Hnil. destruct Hnil as [-> ->].
    cbn [map concat app] in Hjoin.
    apply lstrip_dots_head in Hjoin. discriminate.
  - rewrite suffixes_joined, <- app_assoc, <- Hjoin. exact Hname.
Qed.

(** C7, as the code has it.  [parse_file] chooses the reader by all the
    suffixes of the file name together, not by its extension alone: the
    run [.pkl] gives the snapshot reader, [.so6.7z] the archive reader,
    [.so6] the text reader; with any other run of suffixes the call raises
    [ValueError] and no table is returned.  A file name ends with the run
    of its suffixes, so a reader is chosen only for a name that has the
    matching extension, and a name that has none of the three extensions
    is refused. *)
Theorem C7_parse_file_by_all_suffixes {L : Loaders} (filename : string) :
  (suffix_run filename = ".pkl"%string -> parse_file filename = parse_pkl filename)
  /\ (suffix_run filename = ".so6.7z"%string ->
      parse_file filename = parse_so6_7z filename)
  /\ (suffix_run filename = ".so6"%string ->
      parse_file filename = parse_so6 filename)
  /\ (suffix_run filename <> ".pkl"%string ->
      suffix_run filename <> ".so6.7z"%string ->
      suffix_run filename <> ".so6"%string ->
      parse_file filename = Raise ValueError)
  /\ (suffix_run filename <> ""%string ->
      has_extension (suffix_run filename) filename)
  /\ (~ has_extension ".pkl" filename ->
      ~ has_extension ".so6.7z" filename ->
      ~ has_extension ".so6" filename ->
      parse_file filename = Raise ValueError).
Proof.
  assert (Hpkl : suffix_run filename = ".pkl"%string
                 <-> suffixes filename = [".pkl"%string])
    by (apply (@suffix_run_is filename [".pkl"%string]); suffix_list).
  assert (H7z : suffix_run filename = ".so6.7z"%string
                <-> suffixes filename = [".so6"%string; ".7z"%string])
    by (apply (@suffix_run_is filename [".so6"%string; ".7z"%string]); suffix_list).
  assert (Hso6 : suffix_run filename = ".so6"%string
                 <-> suffixes filename = [".so6"%string])
    by (apply (@suffix_run_is filename [".so6"%string]); suffix_list).
  assert (Hother : suffix_run filename <> ".pkl"%string ->
                   suffix_run filename <> ".so6.7z"%string ->
                   suffix_run filename <> ".so6"%string ->
                   parse_file filename = Raise ValueError).
  { intros N1 N2 N3. unfold parse_file.
    destruct (suffixes_eqb (suffixes filename) [".pkl"%string]) eqn:E1;
      [apply suffixes_eqb_true in E1; tauto|].
    destruct (suffixes_eqb (suffixes filename) [".so6"%string; ".7z"%string]) eqn:E2;
      [apply suffixes_eqb_true in E2; tauto|].
    destruct (suffixes_eqb (suffixes filename) [".so6"%string]) eqn:E3;
      [apply suffixes_eqb_true in E3; tauto|].
    reflexivity. }
  assert (Hends : forall ext,
             suffix_run filename = ext -> ext <> ""%string ->
             has_extension ext filename).
  { intros ext <- Hne. now apply suffix_run_ends_name. }
  split; [|split; [|split; [|split; [|split]]]].
  - intros H. apply Hpkl in H. unfold parse_file. rewrite H. reflexivity.
  - intros H. apply H7z in H. unfold parse_file. rewrite H. reflexivity.
  - intros H. apply Hso6 in H. unfold parse_file. rewrite H. reflexivity.
  - exact Hother.
  - apply suffix_run_ends_name.
  - intros N1 N2 N3. apply Hother; intros H.
    + apply N1. apply (Hends _ H). discriminate.
    + apply N2. apply (Hends _ H). discriminate.
    + apply N3. apply (Hends _ H). discriminate.
Qed.

Lemma C7_witness :
  parse_file (L := Sample.loaders) "data/day1.pkl" = Ok Sample.table
  /\ parse_file (L := Sample.loaders) "data/day1.so6.7z" = Ok (SO6.mk [Sample.leg1])
  /\ parse_file (L := Sample.loaders) "data/day1.so6" = Ok (SO6.mk [Sample.leg2])
  /\ parse_file (L := Sample.loaders) "data/day1.csv" = Raise ValueError.
Proof.
  split; [|split; [|split]].
  - apply (proj1 (@C7_parse_file_by_all_suffixes Sample.loaders "data/day1.pkl")).
    reflexivity.
  - apply (proj1 (proj2 (@C7_parse_file_by_all_suffixes
                           Sample.loaders "data/day1.so6.7z"))).
    reflexivity.
  - apply (proj1 (proj2 (proj2 (@C7_parse_file_by_all_suffixes
                                  Sample.loaders "data/day1.so6")))).
    reflexivity.
  - apply (proj1 (proj2 (proj2 (proj2 (@C7_parse_file_by_all_suffixes
                                         Sample.loaders "data/day1.csv")))));
      discriminate.
Defined.

(** C7 as stated fails: a file name with the extension [.so6], or [.pkl],
    and one more dot before it has another run of suffixes, and is
    refused. *)
Lemma C7_counterexample :
  has_extension ".so6" "flights.2018.01.01.so6"
  /\ suffix_run "flights.2018.01.01.so6" = ".2018.01.01.so6"%string
  /\ parse_file (L := Sample.loaders) "flights.2018.01.01.so6" = Raise ValueError
  /\ has_extension ".pkl" "day1.v2.pkl"
  /\ parse_file (L := Sample.loaders) "day1.v2.pkl" = Raise ValueError.
Proof.
  split; [|split; [reflexivity|split; [reflexivity|split; [|reflexivity]]]].
  - exists (list_ascii_of_string "flights.2018.01.01").
    split; [discriminate | reflexivity].
  - exists (list_ascii_of_string "day1.v2"). split; [discriminate | reflexivity].
Qed.

(** ** Rounding the bounding box *)

Lemma quot_rem_sign (a d : Z) :
  (0 < d)%Z ->
  (a = d * Z.quot a d + Z.rem a d)%Z
  /\ (0 <= a -> 0 <= Z.rem a d < d)%Z
  /\ (a <= 0 -> - d < Z.rem a d <= 0)%Z.
Proof.
  intros Hd. split; [apply Z.quot_rem'|]. split.
  - intros Ha. apply Z.rem_bound_pos; lia.
  - intros Ha.
    assert (H := Z.rem_bound_pos (- a) d ltac:(lia) Hd).
    rewrite Z.rem_opp_l in H by lia. lia.
Qed.

Ltac hundredths_arith q r d :=
  rewrite ?Pos2Z.inj_mul;
  clearbody q r;
  assert (0 < Z.pos d)%Z by lia;
  generalize dependent (Z.pos d); intros;
  try split; nia.

Lemma quantize_ROUND_DOWN_spec (x : Q) :
  rounds_toward_zero x (quantize_ROUND_DOWN x).
Proof.
  destruct x as [n d]. unfold rounds_toward_zero, quantize_ROUND_DOWN, hundredth.
  cbn [Qnum Qden].
  destruct (@quot_rem_sign (n * 100) (Zpos d) ltac:(lia)) as [Hqr [Hpos Hneg]].
  set (q := Z.quot (n * 100) (Zpos d)) in *.
  set (r := Z.rem (n * 100) (Zpos d)) in *.
  split; [now exists q|].
  unfold Qminus; unfold Qle, Qlt, Qplus, Qopp; cbn [Qnum Qden].
  split; intros H.
  - assert (0 <= n)%Z by lia. specialize (Hpos ltac:(lia)).
    hundredths_arith q r d.
  - assert (n <= 0)%Z by lia. specialize (Hneg ltac:(lia)).
    hundredths_arith q r d.
Qed.

Lemma quantize_ROUND_UP_spec (x : Q) :
  rounds_away_from_zero x (quantize_ROUND_UP x).
Proof.
  destruct x as [n d]. unfold rounds_away_from_zero, quantize_ROUND_UP, hundredth.
  cbn [Qnum Qden].
  destruct (@quot_rem_sign (n * 100) (Zpos d) ltac:(lia)) as [Hqr [Hpos Hneg]].
  set (q := Z.quot (n * 100) (Zpos d)) in *.
  set (r := Z.rem (n * 100) (Zpos d)) in *.
  split; [eexists; reflexivity|].
  unfold Qminus; unfold Qle, Qlt, Qplus, Qopp; cbn [Qnum Qden].
  destruct (Z.eqb_spec r 0) as [Hr|Hr].
  - split; intros H; hundredths_arith q r d.
  - split; intros H.
    + assert (0 <= n)%Z by lia. specialize (Hpos ltac:(lia)).
      assert (0 < n)%Z by (clearbody q r; nia).
      replace (Z.sgn (n * 100)) with 1%Z by (symmetry; apply Z.sgn_pos; lia).
      hundredths_arith q r d.
    + assert (n <= 0)%Z by lia. specialize (Hneg ltac:(lia)).
      assert (n < 0)%Z by (clearbody q r; nia).
      replace (Z.sgn (n * 100)) with (-1)%Z by (symmetry; apply Z.sgn_neg; lia).
      hundredths_arith q r d.
Qed.

(** C5, as the code has it.  Each edge of the box is rounded to two
    decimal places: west and south toward zero ([ROUND_DOWN]), east and
    north away from zero ([ROUND_UP]).  An edge that is not negative is
    therefore moved outward, west and south down and east and north up, by
    less than a hundredth; west = 2.004 gives 2.00 and east = 2.004 gives
    2.01. *)
Theorem C5_edges_rounded_toward_and_away_from_zero {G : Shapely}
        (b : SO6.bounds_arg) :
  (let '(west, south, east, north) := SO6.bounds_of b in
   let '(w, s, e, n) := SO6.rounded_bounds b in
   (rounds_toward_zero west w /\ rounds_toward_zero south s
    /\ rounds_away_from_zero east e /\ rounds_away_from_zero north n)
   /\ (0 <= west -> w <= west)
   /\ (0 <= south -> s <= south)
   /\ (0 <= east -> east <= e)
   /\ (0 <= north -> north <= n))
  /\ quantize_ROUND_DOWN (2004 # 1000) = 200 # 100
  /\ quantize_ROUND_UP (2004 # 1000) = 201 # 100.
Proof.
  split; [|split; reflexivity].
  unfold SO6.rounded_bounds.
  destruct (SO6.bounds_of b) as [[[west south] east] north].
  pose proof (quantize_ROUND_DOWN_spec west) as Hw.
  pose proof (quantize_ROUND_DOWN_spec south) as Hs.
  pose proof (quantize_ROUND_UP_spec east) as He.
  pose proof (quantize_ROUND_UP_spec north) as Hn.
  split; [tauto|].
  split; [intros H; now apply Hw|].
  split; [intros H; now apply Hs|].
  split; [intros H; now apply He | intros H; now apply Hn].
Qed.

Lemma C5_witness :
  SO6.rounded_bounds (G := Cells.geometry)
                     (SO6.OfTuple (2004 # 1000, 1 # 3, 2004 # 1000, 2 # 3))
  = (200 # 100, 33 # 100, 201 # 100, 67 # 100)
  /\ 200 # 100 <= 2004 # 1000 /\ 33 # 100 <= 1 # 3
  /\ 2004 # 1000 <= 201 # 100 /\ 2 # 3 <= 67 # 100.
Proof.
  split; [reflexivity|].
  pose proof (@C5_edges_rounded_toward_and_away_from_zero Cells.geometry
                (SO6.OfTuple (2004 # 1000, 1 # 3, 2004 # 1000, 2 # 3))) as H.
  cbv beta iota delta [SO6.bounds_of] in H.
  change (SO6.rounded_bounds
            (SO6.OfTuple (2004 # 1000, 1 # 3, 2004 # 1000, 2 # 3)))
    with (200 # 100, 33 # 100, 201 # 100, 67 # 100) in H.
  cbv beta iota in H.
  destruct H as [[_ [Hw [Hs [He Hn]]]] _].
  split; [apply Hw; discriminate|].
  split; [apply Hs; discriminate|].
  split; [apply He; discriminate | apply Hn; discriminate].
Defined.

(** C5 as stated fails: a negative west edge is rounded toward zero, to a
    larger value, and the rounded box then leaves out a part of the
    original one. *)
Lemma C5_counterexample :
  exists w s e n : Q,
    SO6.rounded_bounds (G := Cells.geometry)
                       (SO6.OfTuple (- (2004 # 1000), 0, 1, 1)) = (w, s, e, n)
    /\ w = - (200 # 100)
    /\ ~ w <= - (2004 # 1000).
Proof.
  exists (- (200 # 100)), (0 # 100), (100 # 100), (100 # 100).
  split; [reflexivity|]. split; [reflexivity|].
  intros H. apply H. reflexivity.
Qed.

(** ** Flights inside a box *)

Lemma in_groupby_filter (df : DataFrame) (f : DataFrame -> bool) (r : Segment) :
  In r (groupby_filter df f)
  <-> In r df /\ f (get_group df (flight_id r)) = true.
Proof. unfold groupby_filter. apply filter_In. Qed.

Lemma bbox_query_iff (box : Q * Q * Q * Q) (r : Segment) :
  SO6.bbox_query box r = true <-> starts_in_box box r.
Proof.
  destruct box as [[[west south] east] north].
  unfold SO6.bbox_query, starts_in_box.
  rewrite !andb_true_iff, !Qle_bool_iff. tauto.
Qed.

Lemma first_of_flight_some (df : DataFrame) (r : Segment) :
  In r df -> exists first, first_of_flight df r = Some first.
Proof.
  intros Hin. unfold first_of_flight.
  assert (H : In r (get_group df (flight_id r))).
  { unfold get_group. apply filter_In. split; [exact Hin | apply Z.eqb_refl]. }
  destruct (get_group df (flight_id r)) as [|first rest]; [destruct H|].
  exists first. reflexivity.
Qed.

Lemma inside_bbox_keeps_iff {G : Shapely} (s : SO6.t) (b : SO6.bounds_arg)
      (r : Segment) :
  In r (SO6.data (SO6.inside_bbox s b))
  <-> In r (SO6.data s)
      /\ exists first q,
          first_of_flight (SO6.data s) r = Some first
          /\ In q (SO6.data s)
          /\ starts_in_box (SO6.rounded_bounds b) q
          /\ callsign q = callsign first.
Proof.
  unfold SO6.inside_bbox; cbn [SO6.data]. rewrite in_groupby_filter.
  unfold first_of_flight.
  split; intros [Hin H]; (split; [exact Hin|]).
  - destruct (get_group (SO6.data s) (flight_id r)) as [|first rest];
      [discriminate|].
    destruct (in_dec string_dec _ _) as [Hcs|]; [|discriminate].
    unfold set_str in Hcs. rewrite nodup_In, in_map_iff in Hcs.
    destruct Hcs as [q [Hq Hqin]]. apply filter_In in Hqin.
    exists first, q. rewrite <- bbox_query_iff. cbn [hd_error]. tauto.
  - destruct H as [first [q [Hfirst [Hq [Hbox Hcs]]]]].
    destruct (get_group (SO6.data s) (flight_id r)) as [|first' rest];
      [discriminate|].
    injection Hfirst as ->.
    destruct (in_dec string_dec _ _) as [|Hn]; [reflexivity|].
    exfalso. apply Hn. unfold set_str. rewrite nodup_In, in_map_iff.
    exists q. split; [exact Hcs|]. apply filter_In.
    rewrite bbox_query_iff. tauto.
Qed.

Lemma first_of_flight_in (df : DataFrame) (r first : Segment) :
  first_of_flight df r = Some first ->
  In first df /\ flight_id first = flight_id r.
Proof.
  unfold first_of_flight. intros H.
  assert (Hin : In first (get_group df (flight_id r))).
  { destruct (get_group df (flight_id r)); [discriminate|].
    injection H as ->. now left. }
  unfold get_group in Hin. apply filter_In in Hin.
  destruct Hin as [Hin Hid]. apply Z.eqb_eq in Hid. tauto.
Qed.

(** C4, as the code has it.  [inside_bbox] keeps, in the order of the
    table, the segments of the flights whose first row carries the callsign
    of some segment of the table that starts in the rounded box.  The start
    point of every segment is looked at, not only the first of each flight.
    A flight whose first point lies in the box is kept in full, and a
    flight is kept or dropped as a whole. *)
Theorem C4_inside_bbox_keeps_flights_by_callsign {G : Shapely}
        (s : SO6.t) (b : SO6.bounds_arg) :
  (forall r,
      In r (SO6.data (SO6.inside_bbox s b))
      <-> In r (SO6.data s)
          /\ exists first q,
              first_of_flight (SO6.data s) r = Some first
              /\ In q (SO6.data s)
              /\ starts_in_box (SO6.rounded_bounds b) q
              /\ callsign q = callsign first)
  /\ (forall r first,
         In r (SO6.data s) ->
         first_of_flight (SO6.data s) r = Some first ->
         starts_in_box (SO6.rounded_bounds b) first ->
         In r (SO6.data (SO6.inside_bbox s b)))
  /\ (forall r r',
         In r (SO6.data (SO6.inside_bbox s b)) ->
         In r' (SO6.data s) ->
         flight_id r' = flight_id r ->
         In r' (SO6.data (SO6.inside_bbox s b)))
  /\ (exists keep : Segment -> bool,
         SO6.data (SO6.inside_bbox s b) = filter keep (SO6.data s)).
Proof.
  split; [|split; [|split]]; [| | |eexists; reflexivity].
  - intros r. apply inside_bbox_keeps_iff.
  - intros r first Hin Hfirst Hbox. apply inside_bbox_keeps_iff.
    split; [exact Hin|]. exists first, first.
    destruct (first_of_flight_in _ _ _ Hfirst) as [Hf _]. tauto.
  - intros r r' Hr Hr' Hid. apply inside_bbox_keeps_iff.
    apply inside_bbox_keeps_iff in Hr. destruct Hr as [_ Hr].
    split; [exact Hr'|]. unfold first_of_flight in *. rewrite Hid. exact Hr.
Qed.

Lemma C4_witness :
  In Sample.leg2
     (SO6.data (SO6.inside_bbox (G := Cells.geometry)
                                (SO6.mk [Sample.leg2; Sample.leg1])
                                (SO6.OfTuple (0, 0, 1, 1)))).
Proof.
  apply (proj1 (proj2 (@C4_inside_bbox_keeps_flights_by_callsign
                         Cells.geometry (SO6.mk [Sample.leg2; Sample.leg1])
                         (SO6.OfTuple (0, 0, 1, 1))))
               Sample.leg2 Sample.leg2).
  - now left.
  - reflexivity.
  - cbv. intuition discriminate.
Defined.

(** C4 as stated fails: the first point of the flight below lies outside
    the box, its second segment starts inside, and the flight is kept. *)
Lemma C4_counterexample :
  first_of_flight (SO6.data Sample.table) Sample.leg1 = Some Sample.leg1
  /\ ~ starts_in_box
       (SO6.rounded_bounds (G := Cells.geometry) (SO6.OfTuple (0, 0, 1, 1)))
       Sample.leg1
  /\ SO6.data (SO6.inside_bbox (G := Cells.geometry) Sample.table
                               (SO6.OfTuple (0, 0, 1, 1)))
     = [Sample.leg1; Sample.leg2].
Proof.
  split; [reflexivity|]. split; [|reflexivity].
  cbv. intros [[_ H] _]. apply H. reflexivity.
Qed.

(** ** A flight and a sector *)

Lemma Qlt_bool_iff (a b : Q) : Qlt_bool a b = true <-> a < b.
Proof.
  unfold Qlt_bool. rewrite negb_true_iff.
  split.
  - intros H. apply Qnot_le_lt. intros Hle.
    apply Qle_bool_iff in Hle. congruence.
  - intros H. destruct (Qle_bool b a) eqn:E; [|reflexivity].
    apply Qle_bool_iff in E. exfalso. apply (Qlt_not_le _ _ H E).
Qed.

Lemma pyfloat_ltb_iff (a b : pyfloat) : pyfloat_ltb a b = true <-> pyfloat_lt a b.
Proof.
  destruct a, b; cbn; try apply Qlt_bool_iff; intuition discriminate.
Qed.

Lemma in_layer_iff {G : Shapely} (layer : Airac.ExtrudedPolygon) (x : Coord) :
  Flight.in_layer layer x = true
  <-> pyfloat_lt (pyfloat_scale 100 (Airac.lower layer)) (Fin (altitude x))
      /\ pyfloat_lt (Fin (altitude x)) (pyfloat_scale 100 (Airac.upper layer)).
Proof.
  destruct x as [[lon lat] z]. unfold Flight.in_layer, altitude. cbn [snd].
  rewrite andb_true_iff, !pyfloat_ltb_iff. tauto.
Qed.

Lemma hits_layer_iff {G : Shapely} (line : LineString)
      (layer : Airac.ExtrudedPolygon) :
  Flight.hits_layer line layer = true <-> crosses_band line layer.
Proof.
  unfold Flight.hits_layer, crosses_band.
  destruct (is_empty (intersection line (Airac.polygon layer))) eqn:Hempty;
    cbn [negb].
  - split; [discriminate | intros [H _]; discriminate].
  - destruct (intersection line (Airac.polygon layer)) as [coords|parts];
      cbn [geometry_points].
    + rewrite existsb_exists. split.
      * intros [x [Hx Hin]]. apply in_layer_iff in Hin. split; eauto.
      * intros [_ [x [Hx Hin]]]. exists x. rewrite in_layer_iff. tauto.
    + rewrite existsb_exists. split.
      * intros [part [Hpart H]]. apply existsb_exists in H.
        destruct H as [x [Hx Hin]]. apply in_layer_iff in Hin.
        split; [reflexivity|]. exists x. split; [|exact Hin].
        apply in_concat. eauto.
      * intros [_ [x [Hx Hin]]]. apply in_concat in Hx.
        destruct Hx as [part [Hpart Hx]]. exists part. split; [exact Hpart|].
        apply existsb_exists. exists x. rewrite in_layer_iff. tauto.
Qed.

Lemma hits_layer_not_iff {G : Shapely} (line : LineString)
      (layer : Airac.ExtrudedPolygon) :
  Flight.hits_layer line layer = false <-> ~ crosses_band line layer.
Proof.
  rewrite <- hits_layer_iff.
  destruct (Flight.hits_layer line layer); intuition congruence.
Qed.

Lemma intersects_layers_first {G : Shapely} (line : LineString)
      (layers : list Airac.ExtrudedPolygon) :
  Flight.intersects_layers line layers = true
  <-> exists pre layer post,
      layers = pre ++ layer :: post
      /\ (forall l, In l pre -> Flight.hits_layer line l = false)
      /\ Flight.hits_layer line layer = true.
Proof.
  induction layers as [|layer rest IH]; cbn [Flight.intersects_layers].
  - split; [discriminate|]. intros [[|? ?] [? [? [H _]]]]; discriminate.
  - destruct (Flight.hits_layer line layer) eqn:Hhit.
    + split; [|reflexivity]. intros _. exists [], layer, rest.
      split; [reflexivity|]. split; [intros l []| exact Hhit].
    + rewrite IH. split.
      * intros [pre [l [post [-> [Hpre Hl]]]]].
        exists (layer :: pre), l, post. split; [reflexivity|].
        split; [|exact Hl]. intros l' [<-|Hin]; auto.
      * intros [[|l0 pre] [l [post [Heq [Hpre Hl]]]]];
          injection Heq as ? ?; subst.
        -- congruence.
        -- exists pre, l, post. split; [reflexivity|].
           split; [|exact Hl]. intros l' Hin. apply Hpre. now right.
Qed.

(** C1. [f.intersects(s)] is true exactly when some band of [s] is
    crossed by the path of [f]: the planar intersection of the path with
    the polygon of the band is not empty, and some coordinate point of it
    has an altitude [z] with [100*lower < z < 100*upper], both strict.  The
    bands are tried in order: the result is true at the first band that is
    crossed, whatever follows, and false when none is. *)
Theorem C1_intersects_iff_some_band_crossed {G : Shapely}
        (f : Flight.t) (s : Airac.Sector) :
  (Flight.intersects f s = true
   <-> exists band, In band (Airac.area s)
                    /\ crosses_band (Flight.linestring f) band)
  /\ (Flight.intersects f s = true
      <-> exists pre band post,
          Airac.area s = pre ++ band :: post
          /\ (forall b, In b pre -> ~ crosses_band (Flight.linestring f) b)
          /\ crosses_band (Flight.linestring f) band)
  /\ (Flight.intersects f s = false
      <-> forall band, In band (Airac.area s)
                       -> ~ crosses_band (Flight.linestring f) band).
Proof.
  assert (Hsome :
            Flight.intersects f s = true
            <-> exists band, In band (Airac.area s)
                             /\ crosses_band (Flight.linestring f) band).
  { unfold Flight.intersects.
    induction (Airac.area s) as [|layer rest IH];
      cbn [Flight.intersects_layers].
    - split; [discriminate | intros [? [[] _]]].
    - destruct (Flight.hits_layer (Flight.linestring f) layer) eqn:Hhit.
      + split; [|reflexivity]. intros _. exists layer.
        split; [now left | now apply hits_layer_iff].
      + rewrite IH. split.
        * intros [band [Hin Hc]]. exists band. split; [now right | exact Hc].
        * intros [band [[<-|Hin] Hc]].
          -- apply hits_layer_iff in Hc. congruence.
          -- exists band. split; assumption. }
  assert (Hfirst :
            Flight.intersects f s = true
            <-> exists pre band post,
              Airac.area s = pre ++ band :: post
              /\ (forall b, In b pre -> ~ crosses_band (Flight.linestring f) b)
              /\ crosses_band (Flight.linestring f) band).
  { unfold Flight.intersects. rewrite intersects_layers_first.
    split; intros [pre [band [post [Heq [Hpre Hband]]]]];
      exists pre, band, post; (split; [exact Heq|]).
    - split; [|now apply hits_layer_iff].
      intros b Hb. rewrite <- hits_layer_not_iff. now apply Hpre.
    - split; [|now apply hits_layer_iff].
      intros b Hb. rewrite hits_layer_not_iff. now apply Hpre. }
  split; [exact Hsome|]. split; [exact Hfirst|].
  split.
  - intros Hf band Hin Hc.
    assert (Flight.intersects f s = true) by (apply Hsome; eauto). congruence.
  - intros Hnone. destruct (Flight.intersects f s) eqn:E; [|reflexivity].
    destruct (proj1 Hsome eq_refl) as [band [Hin Hc]].
    exfalso. exact (Hnone band Hin Hc).
Qed.

(** ** Altitude limits of a volume *)

Lemma limit_or_ok_iff (default : pyfloat) (e : option Airac.Element) (v : pyfloat) :
  Airac.limit_or default e = Ok v <-> limit_value default e v.
Proof.
  unfold Airac.limit_or, limit_value. destruct e as [[[s|]]|]; cbn.
  - destruct (Airac.starts_with_three_digits s) eqn:E.
    + split.
      * intros H. exists s. rewrite E. split; [reflexivity | exact H].
      * intros [s' [Hs H]]. injection Hs as <-. rewrite E in H. exact H.
    + split.
      * intros H. exists s. rewrite E. split; congruence.
      * intros [s' [Hs H]]. injection Hs as <-. rewrite E in H. congruence.
  - split; [discriminate | intros [s [H _]]; discriminate].
  - split; congruence.
Qed.

(** C8, as the code has it.  For a volume block whose limit elements,
    where present, have a text: the upper (lower) limit is the number the
    text denotes when the text starts with three digits and is a numeral,
    and it is +inf (-inf) when the element is absent or its text does not
    start with three digits.  [make_polygon] gets its two limits in these
    cases and in no other. *)
Theorem C8_limits_of_a_volume (block : Airac.VolumeBlock) (upper lower : pyfloat) :
  Airac.block_limits block = Ok (upper, lower)
  <-> limit_value PosInf (Airac.upperLimit block) upper
      /\ limit_value NegInf (Airac.lowerLimit block) lower.
Proof.
  rewrite <- !limit_or_ok_iff. unfold Airac.block_limits.
  destruct (Airac.limit_or PosInf (Airac.upperLimit block)) as [u|e]; cbn.
  - destruct (Airac.limit_or NegInf (Airac.lowerLimit block)) as [l|e]; cbn.
    + split; [intros H; injection H as -> ->; tauto|].
      intros [H1 H2]. congruence.
    + split; [discriminate | intros [_ H]; discriminate].
  - split; [discriminate | intros [H _]; discriminate].
Qed.

(** The numerals of flight levels, and the words used for the other
    limits. *)
Example block_limits_FL245_GND :
  Airac.block_limits
    (Airac.mkVolumeBlock (Some (Airac.mkElement (Some "245"%string)))
                         (Some (Airac.mkElement (Some "GND"%string))))
  = Ok (Fin 245, NegInf).
Proof. reflexivity. Qed.

Example block_limits_UNL_095 :
  Airac.block_limits
    (Airac.mkVolumeBlock (Some (Airac.mkElement (Some "UNL"%string)))
                         (Some (Airac.mkElement (Some "095"%string))))
  = Ok (PosInf, Fin 95).
Proof. reflexivity. Qed.

Example block_limits_absent :
  Airac.block_limits (Airac.mkVolumeBlock None None) = Ok (PosInf, NegInf).
Proof. reflexivity. Qed.

(** C8 as stated fails on two kinds of block.  A text that starts with
    three digits and is not a numeral gives no limit: [float] raises.  An
    upper limit element without text gives no limit either, where the
    default is expected: the match on the text raises. *)
Lemma C8_counterexample :
  (Airac.starts_with_three_digits "123abc" = true
   /\ Airac.block_limits
        (Airac.mkVolumeBlock (Some (Airac.mkElement (Some "123abc"%string))) None)
      = Raise ValueError)
  /\ Airac.block_limits (Airac.mkVolumeBlock (Some (Airac.mkElement None)) None)
     = Raise TypeError.
Proof. repeat split. Qed.

(** ** The order of floats *)

Lemma pyfloat_leb_iff (a b : pyfloat) : pyfloat_leb a b = true <-> pyfloat_le a b.
Proof.
  unfold pyfloat_leb, pyfloat_le. rewrite negb_true_iff, <- pyfloat_ltb_iff.
  destruct (pyfloat_ltb b a); intuition congruence.
Qed.

Ltac float_order :=
  repeat match goal with
         | x : pyfloat |- _ => destruct x
         end;
  unfold pyfloat_same, pyfloat_le in *; cbn in *;
  try tauto;
  repeat match goal with
         | H : ~ (_ < _)%Q |- _ => apply Qnot_lt_le in H
         | H : _ /\ _ |- _ => destruct H
         end.

Lemma pyfloat_lt_irrefl (a : pyfloat) : ~ pyfloat_lt a a.
Proof. float_order. apply Qlt_irrefl. Qed.

Lemma pyfloat_lt_trans (a b c : pyfloat) :
  pyfloat_lt a b -> pyfloat_lt b c -> pyfloat_lt a c.
Proof. float_order. apply Qlt_trans. Qed.

Lemma pyfloat_le_lt_trans (a b c : pyfloat) :
  pyfloat_le a b -> pyfloat_lt b c -> pyfloat_lt a c.
Proof. intros H1 H2. float_order. eapply Qle_lt_trans; eassumption. Qed.

Lemma pyfloat_lt_le_trans (a b c : pyfloat) :
  pyfloat_lt a b -> pyfloat_le b c -> pyfloat_lt a c.
Proof. intros H1 H2. float_order. eapply Qlt_le_trans; eassumption. Qed.

Lemma pyfloat_lt_le (a b : pyfloat) : pyfloat_lt a b -> pyfloat_le a b.
Proof.
  intros H Hba. exact (pyfloat_lt_irrefl _ (pyfloat_lt_trans _ _ _ H Hba)).
Qed.

Lemma pyfloat_le_refl (a : pyfloat) : pyfloat_le a a.
Proof. exact (pyfloat_lt_irrefl a). Qed.

Lemma pyfloat_le_trans (a b c : pyfloat) :
  pyfloat_le a b -> pyfloat_le b c -> pyfloat_le a c.
Proof.
  intros H1 H2 Hca. apply H1. eapply pyfloat_le_lt_trans; eassumption.
Qed.

(** ** [sorted(set(...))] *)

Lemma insert_sorted_in (x z : pyfloat) (l : list pyfloat) :
  In z (Airac.insert_sorted x l) -> z = x \/ In z l.
Proof.
  induction l as [|y l IH]; cbn.
  - intros [<-|[]]. now left.
  - destruct (pyfloat_ltb x y); [cbn; intuition|].
    destruct (pyfloat_ltb y x); [cbn; intuition | cbn; intuition].
Qed.

Lemma insert_sorted_keeps (x z : pyfloat) (l : list pyfloat) :
  In z l -> In z (Airac.insert_sorted x l).
Proof.
  induction l as [|y l IH]; cbn; [tauto|].
  destruct (pyfloat_ltb x y); [cbn; intuition|].
  destruct (pyfloat_ltb y x); cbn; intuition.
Qed.

Lemma insert_sorted_holds (x : pyfloat) (l : list pyfloat) :
  exists y, In y (Airac.insert_sorted x l) /\ pyfloat_same x y.
Proof.
  induction l as [|y l [w [Hw Hsame]]]; cbn.
  - exists x. split; [now left|]. split; apply pyfloat_le_refl.
  - destruct (pyfloat_ltb x y) eqn:Hxy.
    + exists x. split; [now left|]. split; apply pyfloat_le_refl.
    + destruct (pyfloat_ltb y x) eqn:Hyx.
      * exists w. split; [now right | exact Hsame].
      * exists y. split; [now left|].
        unfold pyfloat_same, pyfloat_le. rewrite <- !pyfloat_ltb_iff.
        split; congruence.
Qed.

Lemma insert_sorted_sorted (x : pyfloat) (l : list pyfloat) :
  StronglySorted pyfloat_lt l ->
  StronglySorted pyfloat_lt (Airac.insert_sorted x l).
Proof.
  induction 1 as [|y l Hl IH Hy]; cbn.
  - constructor; constructor.
  - destruct (pyfloat_ltb x y) eqn:Hxy.
    + apply pyfloat_ltb_iff in Hxy. constructor.
      * constructor; assumption.
      * constructor; [exact Hxy|].
        eapply Forall_impl; [|exact Hy].
        intros z Hz. exact (pyfloat_lt_trans _ _ _ Hxy Hz).
    + destruct (pyfloat_ltb y x) eqn:Hyx.
      * apply pyfloat_ltb_iff in Hyx. constructor; [exact IH|].
        apply Forall_forall. intros z Hz.
        apply insert_sorted_in in Hz. destruct Hz as [->|Hz]; [exact Hyx|].
        rewrite Forall_forall in Hy. now apply Hy.
      * constructor; assumption.
Qed.

Lemma sorted_set_sorted (xs : list pyfloat) :
  StronglySorted pyfloat_lt (Airac.sorted_set xs).
Proof.
  induction xs as [|x xs IH]; cbn; [constructor|].
  now apply insert_sorted_sorted.
Qed.

Lemma sorted_set_holds (x : pyfloat) (xs : list pyfloat) :
  In x xs -> exists y, In y (Airac.sorted_set xs) /\ pyfloat_same x y.
Proof.
  induction xs as [|x' xs IH]; [intros []|].
  intros [->|Hin]; cbn.
  - apply insert_sorted_holds.
  - destruct (IH Hin) as [y [Hy Hsame]]. exists y.
    split; [now apply insert_sorted_keeps | exact Hsame].
Qed.

(** ** The last element of a list *)

Lemma last_error_snoc {A} (l : list A) (x : A) : last_error (l ++ [x]) = Some x.
Proof.
  induction l as [|y l IH]; [reflexivity|].
  cbn [app last_error]. destruct (l ++ [x]) eqn:E; [|exact IH].
  destruct l; discriminate.
Qed.

Lemma last_error_split {A} (l : list A) (x : A) :
  last_error l = Some x -> l = removelast l ++ [x].
Proof.
  induction l as [|y l IH]; [discriminate|].
  destruct l as [|z l].
  - cbn. congruence.
  - intros H. change (last_error (z :: l) = Some x) in H.
    change (y :: z :: l = y :: (removelast (z :: l) ++ [x])).
    f_equal. exact (IH H).
Qed.

Lemma last_error_none {A} (l : list A) : last_error l = None -> l = [].
Proof.
  induction l as [|y l IH]; [reflexivity|].
  destruct l as [|z l]; [discriminate|].
  intros H. change (last_error (z :: l) = None) in H.
  specialize (IH H). discriminate.
Qed.

Lemma StronglySorted_snoc {A} (R : A -> A -> Prop) (l : list A) (x : A) :
  StronglySorted R (l ++ [x])
  <-> StronglySorted R l /\ Forall (fun y => R y x) l.
Proof.
  induction l as [|y l IH]; cbn [app].
  - split; [intros _; split; constructor|].
    intros _. constructor; constructor.
  - split.
    + intros H. inversion H as [|? ? Hl Hy]; subst.
      apply IH in Hl. destruct Hl as [Hl Hx].
      apply Forall_app in Hy. destruct Hy as [Hy Hyx].
      split; [constructor; assumption|].
      constructor; [now inversion Hyx | exact Hx].
    + intros [H Hx]. inversion H as [|? ? Hl Hy]; subst.
      inversion Hx; subst. constructor.
      * apply IH. split; assumption.
      * apply Forall_app. split; [exact Hy|]. constructor; [assumption|constructor].
Qed.

(** ** The loop over the slices *)

Lemma chained_combine (x : pyfloat) (l : list pyfloat) :
  StronglySorted pyfloat_lt (x :: l) -> chained x (combine (x :: l) l).
Proof.
  revert x. induction l as [|y l IH]; intros x H; [exact I|].
  cbn [combine chained]. inversion H as [|? ? Hl Hx]; subst.
  split; [reflexivity|]. split; [now inversion Hx|].
  now apply IH.
Qed.

Lemma ascending_all_below {G : Shapely} (results : Airac.SectorList) (cur : pyfloat) :
  ascending_disjoint results -> ends_at cur results ->
  Forall (fun b => pyfloat_le (Airac.upper b) cur) results.
Proof.
  intros [Hsorted Hlt] Hend. unfold ends_at in Hend.
  destruct (last_error results) as [prev|] eqn:Hlast.
  - subst cur. apply last_error_split in Hlast.
    rewrite Hlast in Hsorted, Hlt |- *.
    apply StronglySorted_snoc in Hsorted. destruct Hsorted as [_ Hbelow].
    apply Forall_app in Hlt. destruct Hlt as [_ Hprev].
    apply Forall_inv in Hprev.
    apply Forall_app. split.
    + eapply Forall_impl; [|exact Hbelow]. intros b Hb. unfold band_below in Hb.
      apply pyfloat_lt_le. eapply pyfloat_le_lt_trans; eassumption.
    + constructor; [|constructor]. apply pyfloat_le_refl.
  - apply last_error_none in Hlast. subst. constructor.
Qed.

Lemma slice_step_ascending {G : Shapely}
      (bands : list (Polygon * pyfloat * pyfloat))
      (results : Airac.SectorList) (low up : pyfloat) :
  ascending_disjoint results -> ends_at low results -> pyfloat_lt low up ->
  ascending_disjoint (Airac.slice_step bands results (low, up))
  /\ ends_at up (Airac.slice_step bands results (low, up)).
Proof.
  intros Hasc Hend Hlt.
  pose proof (ascending_all_below _ _ Hasc Hend) as Hbelow.
  assert (Happend :
            forall new_poly,
              Airac.lower new_poly = low -> Airac.upper new_poly = up ->
              ascending_disjoint (results ++ [new_poly])
              /\ ends_at up (results ++ [new_poly])).
  { intros new_poly Hlo Hup. destruct Hasc as [Hsorted Hall]. split; [split|].
    - apply StronglySorted_snoc. split; [exact Hsorted|].
      eapply Forall_impl; [|exact Hbelow]. intros b Hb.
      unfold band_below. now rewrite Hlo.
    - apply Forall_app. split; [exact Hall|].
      constructor; [|constructor]. now rewrite Hlo, Hup.
    - unfold ends_at. rewrite last_error_snoc. exact Hup. }
  unfold Airac.slice_step.
  destruct (last_error results) as [prev|] eqn:Hlast; [|now apply Happend].
  destruct (equals _ _); [|now apply Happend].
  cbn [Airac.polygon].
  pose proof (last_error_split _ _ Hlast) as Hsplit.
  destruct Hasc as [Hsorted Hall]. rewrite Hsplit in Hsorted, Hall.
  apply StronglySorted_snoc in Hsorted. destruct Hsorted as [Hsorted Hprev].
  apply Forall_app in Hall. destruct Hall as [Hall Hp].
  apply Forall_inv in Hp. rename Hp into Hplt.
  unfold ends_at in Hend. rewrite Hlast in Hend.
  split; [split|].
  - apply StronglySorted_snoc. split; [exact Hsorted|].
    eapply Forall_impl; [|exact Hprev]. intros b Hb. exact Hb.
  - apply Forall_app. split; [exact Hall|].
    constructor; [|constructor]. cbn [Airac.lower Airac.upper].
    eapply pyfloat_lt_trans; [exact Hplt|]. now rewrite Hend.
  - unfold ends_at. rewrite last_error_snoc. reflexivity.
Qed.

Lemma fold_slices_ascending {G : Shapely}
      (bands : list (Polygon * pyfloat * pyfloat))
      (pairs : list (pyfloat * pyfloat)) :
  forall (results : Airac.SectorList) (cur : pyfloat),
    chained cur pairs -> ascending_disjoint results -> ends_at cur results ->
    ascending_disjoint (fold_left (Airac.slice_step bands) pairs results).
Proof.
  induction pairs as [|[low up] pairs IH]; intros results cur Hch Hasc Hend;
    [exact Hasc|].
  cbn [fold_left]. destruct Hch as [-> [Hlt Hch]].
  destruct (slice_step_ascending bands _ _ _ Hasc Hend Hlt) as [Hasc' Hend'].
  exact (IH _ _ Hch Hasc' Hend').
Qed.

(** ** The footprints of the slices *)

Lemma in_matched_poly {G : Shapely} (bands : list (Polygon * pyfloat * pyfloat))
      (low up : pyfloat) (p : Polygon) :
  In p (Airac.matched_poly bands low up)
  <-> exists low_ up_,
      In (p, low_, up_) bands
      /\ (pyfloat_le low_ low /\ pyfloat_le low up_)
      /\ (pyfloat_le low_ up /\ pyfloat_le up up_).
Proof.
  unfold Airac.matched_poly. rewrite in_map_iff. split.
  - intros [[[q low_] up_] [<- Hin]]. apply filter_In in Hin.
    destruct Hin as [Hin Hc]. rewrite !andb_true_iff, !pyfloat_leb_iff in Hc.
    exists low_, up_. tauto.
  - intros [low_ [up_ [Hin Hc]]]. exists (p, low_, up_).
    split; [reflexivity|]. apply filter_In. split; [exact Hin|].
    rewrite !andb_true_iff, !pyfloat_leb_iff. tauto.
Qed.

Section Footprints.
Context {G : Shapely} {R : ShapelyRegions G}.
Variable bands : list (Polygon * pyfloat * pyfloat).

Lemma slice_step_keeps_covered (results : Airac.SectorList)
      (low_up : pyfloat * pyfloat) (x : Q * Q) :
  covered_by results x ->
  covered_by (Airac.slice_step bands results low_up) x.
Proof.
  intros [b [Hin Hb]]. destruct low_up as [low up]. unfold Airac.slice_step.
  destruct (last_error results) as [prev|] eqn:Hlast;
    [|exists b; split; [apply in_app_iff; now left | exact Hb]].
  destruct (equals _ _) eqn:Heq;
    [|exists b; split; [apply in_app_iff; now left | exact Hb]].
  cbn [Airac.polygon] in *.
  rewrite (last_error_split _ _ Hlast) in Hin. apply in_app_iff in Hin.
  destruct Hin as [Hin|[<-|[]]].
  - exists b. split; [apply in_app_iff; now left | exact Hb].
  - eexists. split; [apply in_app_iff; right; now left|].
    cbn [Airac.polygon]. apply (covers_equals _ _ Heq). exact Hb.
Qed.

Lemma slice_step_covers_new (results : Airac.SectorList)
      (low up : pyfloat) (x : Q * Q) :
  covers (cascaded_union (Airac.matched_poly bands low up)) x ->
  covered_by (Airac.slice_step bands results (low, up)) x.
Proof.
  intros Hx. unfold Airac.slice_step.
  destruct (last_error results) as [prev|];
    [destruct (equals _ _)|];
    (eexists; split; [apply in_app_iff; right; now left | exact Hx]).
Qed.

Lemma slice_step_covered_from (results : Airac.SectorList)
      (low up : pyfloat) (x : Q * Q) :
  covered_by (Airac.slice_step bands results (low, up)) x ->
  covered_by results x
  \/ covers (cascaded_union (Airac.matched_poly bands low up)) x.
Proof.
  unfold Airac.slice_step.
  destruct (last_error results) as [prev|] eqn:Hlast.
  - destruct (equals _ _) eqn:Heq; intros [b [Hin Hb]];
      apply in_app_iff in Hin; destruct Hin as [Hin|[<-|[]]].
    + left. exists b. split; [|exact Hb].
      rewrite (last_error_split _ _ Hlast). apply in_app_iff. now left.
    + right. exact Hb.
    + left. exists b. split; assumption.
    + right. exact Hb.
  - intros [b [Hin Hb]].
    apply in_app_iff in Hin; destruct Hin as [Hin|[<-|[]]].
    + left. exists b. split; assumption.
    + right. exact Hb.
Qed.

Lemma fold_slices_keeps_covered (pairs : list (pyfloat * pyfloat)) :
  forall (results : Airac.SectorList) (x : Q * Q),
    covered_by results x ->
    covered_by (fold_left (Airac.slice_step bands) pairs results) x.
Proof.
  induction pairs as [|pr pairs IH]; intros results x Hx; [exact Hx|].
  cbn [fold_left]. apply IH. now apply slice_step_keeps_covered.
Qed.

Lemma fold_slices_covers_pair (pairs : list (pyfloat * pyfloat)) :
  forall (results : Airac.SectorList) (low up : pyfloat) (x : Q * Q),
    In (low, up) pairs ->
    covers (cascaded_union (Airac.matched_poly bands low up)) x ->
    covered_by (fold_left (Airac.slice_step bands) pairs results) x.
Proof.
  induction pairs as [|pr pairs IH]; intros results low up x Hin Hx;
    [destruct Hin|].
  cbn [fold_left]. destruct Hin as [->|Hin].
  - apply fold_slices_keeps_covered. now apply slice_step_covers_new.
  - now apply (IH _ low up).
Qed.

Lemma fold_slices_covered_from (pairs : list (pyfloat * pyfloat)) :
  forall (results : Airac.SectorList) (x : Q * Q),
    covered_by (fold_left (Airac.slice_step bands) pairs results) x ->
    covered_by results x
    \/ exists low up,
        In (low, up) pairs
        /\ covers (cascaded_union (Airac.matched_poly bands low up)) x.
Proof.
  induction pairs as [|[low up] pairs IH]; intros results x Hx; [now left|].
  cbn [fold_left] in Hx. apply IH in Hx.
  destruct Hx as [Hx|[low' [up' [Hin Hx]]]].
  - apply slice_step_covered_from in Hx. destruct Hx as [Hx|Hx]; [now left|].
    right. exists low, up. split; [now left | exact Hx].
  - right. exists low', up'. split; [now right | exact Hx].
Qed.

End Footprints.

(** In a sorted list, an element that has a larger one after it is the
    first component of a pair of neighbours, and its neighbour is at most
    the larger one. *)
Lemma sorted_next_pair (l : list pyfloat) (a b : pyfloat) :
  StronglySorted pyfloat_lt l -> In a l -> In b l -> pyfloat_lt a b ->
  exists n, In (a, n) (combine l (tl l)) /\ pyfloat_lt a n /\ pyfloat_le n b.
Proof.
  induction 1 as [|x l Hl IH Hx]; intros Ha Hb Hab; [destruct Ha|].
  rewrite Forall_forall in Hx.
  assert (Hbl : In b l).
  { destruct Hb as [<-|Hb]; [|exact Hb]. exfalso.
    destruct Ha as [<-|Ha]; [exact (pyfloat_lt_irrefl _ Hab)|].
    exact (pyfloat_lt_irrefl _ (pyfloat_lt_trans _ _ _ Hab (Hx _ Ha))). }
  destruct Ha as [<-|Ha].
  - destruct l as [|n l]; [destruct Hbl|]. exists n.
    split; [now left|]. split; [apply Hx; now left|].
    destruct Hbl as [<-|Hbl]; [apply pyfloat_le_refl|].
    apply pyfloat_lt_le. inversion Hl as [|? ? _ Hn]; subst.
    rewrite Forall_forall in Hn. now apply Hn.
  - destruct (IH Ha Hbl Hab) as [n [Hin Hn]]. exists n. split; [|exact Hn].
    destruct l as [|y l]; [destruct Ha|]. cbn [tl combine]. right. exact Hin.
Qed.

Lemma numeric_bands_map {G : Shapely} (polyalt : list Airac.PolyAlt)
      (bands : list (Polygon * pyfloat * pyfloat)) :
  Airac.numeric_bands polyalt = Some bands ->
  polyalt = map (fun '(p, low, up) => (p, Some low, Some up)) bands.
Proof.
  revert bands. induction polyalt as [|[[p [low|]] [up|]] rest IH];
    intros bands H; cbn in H; try discriminate.
  - now injection H as <-.
  - destruct (Airac.numeric_bands rest) as [bands'|]; [|discriminate].
    injection H as <-. cbn [map]. f_equal. now apply IH.
Qed.

Lemma in_band_limits {G : Shapely} (bands : list (Polygon * pyfloat * pyfloat))
      (p : Polygon) (low up : pyfloat) :
  In (p, low, up) bands ->
  In low (Airac.band_limits bands) /\ In up (Airac.band_limits bands).
Proof.
  intros Hin. unfold Airac.band_limits.
  split; apply in_flat_map; exists (p, low, up); (split; [exact Hin|]);
    cbn; tauto.
Qed.

Lemma numeric_bands_some {G : Shapely} (polyalt : list Airac.PolyAlt) :
  Forall (fun '(_, low, up) => low <> None /\ up <> None) polyalt ->
  exists bands, Airac.numeric_bands polyalt = Some bands.
Proof.
  induction 1 as [|[[p low] up] rest [Hlow Hup] _ [bands IH]]; cbn.
  - now exists [].
  - destruct low as [low|]; [|congruence]. destruct up as [up|]; [|congruence].
    rewrite IH. eauto.
Qed.

Lemma altitudes_all_None {G : Shapely} (polyalt : list Airac.PolyAlt) :
  Forall (fun '(_, low, up) => low = None /\ up = None) polyalt ->
  forallb Airac.is_None (Airac.altitudes polyalt) = true.
Proof.
  induction 1 as [|[[p low] up] rest [-> ->] _ IH]; [reflexivity|].
  cbn. exact IH.
Qed.

Lemma slices_cover_band {G : Shapely} {R : ShapelyRegions G}
      (bands : list (Polygon * pyfloat * pyfloat))
      (p : Polygon) (low up : pyfloat) (x : Q * Q) :
  In (p, low, up) bands -> pyfloat_lt low up -> covers p x ->
  let slices := Airac.sorted_set (Airac.band_limits bands) in
  covered_by (fold_left (Airac.slice_step bands) (combine slices (tl slices)) []) x.
Proof.
  intros Hin Hlt Hx slices.
  destruct (in_band_limits _ _ _ _ Hin) as [Hlow Hup].
  destruct (sorted_set_holds _ _ Hlow) as [a [Ha [Hla Hal]]].
  destruct (sorted_set_holds _ _ Hup) as [b [Hb [Hub Hbu]]].
  assert (Hab : pyfloat_lt a b).
  { eapply pyfloat_le_lt_trans; [exact Hal|].
    eapply pyfloat_lt_le_trans; [exact Hlt | exact Hub]. }
  destruct (sorted_next_pair _ a b (sorted_set_sorted _) Ha Hb Hab)
    as [n [Hpair [Han Hnb]]].
  apply (fold_slices_covers_pair bands _ _ a n x Hpair).
  apply covers_cascaded_union. exists p. split; [|exact Hx].
  apply in_matched_poly. exists low, up. split; [exact Hin|].
  split; split.
  - exact Hla.
  - apply pyfloat_lt_le. eapply pyfloat_lt_le_trans; [exact Hab | exact Hbu].
  - apply pyfloat_lt_le. eapply pyfloat_le_lt_trans; [exact Hla | exact Han].
  - eapply pyfloat_le_trans; [exact Hnb | exact Hbu].
Qed.

(** C2, as the code has it.  When every limit of the input is a number,
    or every limit is [None], [cascaded_union_with_alt] returns.  The bands it returns
    are in ascending altitude order and pairwise altitude-disjoint.  When
    moreover every input band with numbers for limits has its lower limit
    strictly under its upper limit, the union of the footprints returned is
    the union of the footprints given. *)
Theorem C2_slices_ascending_disjoint_covering {G : Shapely} {R : ShapelyRegions G}
        (polyalt : list Airac.PolyAlt) :
  (Forall (fun '(_, low, up) => low <> None /\ up <> None) polyalt
   \/ Forall (fun '(_, low, up) => low = None /\ up = None) polyalt ->
   exists out, Airac.cascaded_union_with_alt polyalt = Ok out)
  /\ forall out,
      Airac.cascaded_union_with_alt polyalt = Ok out ->
      ascending_disjoint out
      /\ ((forall p low up,
              In (p, Some low, Some up) polyalt -> pyfloat_lt low up) ->
          forall x, covered_by out x <-> covered_by_input polyalt x).
Proof.
  unfold Airac.cascaded_union_with_alt. split.
  - intros [Hnum|Hnone].
    + destruct (numeric_bands_some _ Hnum) as [bands ->].
      destruct (_ && _); eauto.
    + destruct polyalt as [|band rest]; [cbn; eauto|].
      rewrite (altitudes_all_None _ Hnone).
      destruct band as [[p low] up]. cbn. eauto.
  - intros out. destruct (_ && _).
    + intros H. injection H as <-. split; [split|].
      * constructor; constructor.
      * constructor; [exact I | constructor].
      * intros _ x. unfold covered_by, covered_by_input. split.
        -- intros [b [[<-|[]] Hb]]. cbn [Airac.polygon] in Hb.
           apply covers_cascaded_union in Hb. destruct Hb as [p [Hp Hx]].
           apply in_map_iff in Hp. destruct Hp as [[[q low] up] [<- Hin]].
           exists q, low, up. split; assumption.
        -- intros [p [low [up [Hin Hx]]]]. eexists. split; [now left|].
           cbn [Airac.polygon]. apply covers_cascaded_union. exists p.
           split; [|exact Hx]. apply in_map_iff. exists (p, low, up).
           split; [reflexivity | exact Hin].
    + destruct (Airac.numeric_bands polyalt) as [bands|] eqn:Hbands;
        [|discriminate].
      intros H. injection H as <-.
      pose proof (numeric_bands_map _ _ Hbands) as Hmap.
      split.
      * pose proof (sorted_set_sorted (Airac.band_limits bands)) as Hsorted.
        destruct (Airac.sorted_set (Airac.band_limits bands)) as [|x l];
          [split; constructor|].
        cbn [tl]. apply (fold_slices_ascending bands _ [] x).
        -- now apply chained_combine.
        -- split; constructor.
        -- exact I.
      * intros Hlt x. split.
        -- intros Hx. apply fold_slices_covered_from in Hx.
           destruct Hx as [[b [[] _]]|[low [up [_ Hx]]]].
           apply covers_cascaded_union in Hx. destruct Hx as [p [Hp Hx]].
           apply in_matched_poly in Hp. destruct Hp as [low_ [up_ [Hin _]]].
           exists p, (Some low_), (Some up_). split; [|exact Hx].
           rewrite Hmap. apply in_map_iff. exists (p, low_, up_).
           split; [reflexivity | exact Hin].
        -- intros [p [low [up [Hin Hx]]]].
           pose proof Hin as Hin'. rewrite Hmap in Hin'.
           apply in_map_iff in Hin'.
           destruct Hin' as [[[q low_] up_] [Heq Hin']].
           injection Heq as -> <- <-.
           apply (slices_cover_band bands p low_ up_ x Hin'); [|exact Hx].
           exact (Hlt _ _ _ Hin).
Qed.

Example two_levels_merge :
  Airac.cascaded_union_with_alt two_levels
  = Ok [Airac.mkExtrudedPolygon (G := Cells.geometry) [(0, 0)%Z] (Fin 0) (Fin 200)].
Proof. reflexivity. Qed.

Lemma C2_witness :
  exists out,
    Airac.cascaded_union_with_alt two_levels = Ok out
    /\ ascending_disjoint out
    /\ forall x, covered_by (R := Cells_regions) out x
                 <-> covered_by_input (R := Cells_regions) two_levels x.
Proof.
  destruct (@C2_slices_ascending_disjoint_covering
              Cells.geometry Cells_regions two_levels) as [Hret Hout].
  destruct Hret as [out Hrun].
  - left. repeat constructor; discriminate.
  - exists out. split; [exact Hrun|].
    destruct (Hout out Hrun) as [Hasc Hcover]. split; [exact Hasc|].
    apply Hcover. intros p low up [H|[H|[]]]; injection H as _ <- <-;
      reflexivity.
Defined.

(** C2 as stated fails: a band whose two limits are equal lies between no
    two altitudes, and its footprint is in no band of the result. *)
Lemma C2_counterexample :
  Airac.cascaded_union_with_alt (G := Cells.geometry)
    [([(0, 0)%Z], Some (Fin 100), Some (Fin 100))] = Ok []
  /\ covered_by_input (R := Cells_regions)
       [([(0, 0)%Z], Some (Fin 100), Some (Fin 100))] (1 # 2, 1 # 2)
  /\ ~ covered_by (R := Cells_regions) [] (1 # 2, 1 # 2).
Proof.
  split; [reflexivity|]. split.
  - exists [(0, 0)%Z], (Some (Fin 100)), (Some (Fin 100)).
    split; [now left | now left].
  - intros [b [[] _]].
Qed.

(** ** The points of a flight *)

Lemma combine_fst_snd {A B} (K : list (A * B)) :
  combine (map fst K) (map snd K) = K.
Proof.
  induction K as [|[a b] K IH]; [reflexivity|]. cbn. now rewrite IH.
Qed.

Lemma last_error_map {A B} (f : A -> B) (l : list A) :
  last_error (map f l) = option_map f (last_error l).
Proof.
  induction l as [|x l IH]; [reflexivity|].
  destruct l as [|y l]; [reflexivity|]. exact IH.
Qed.

Lemma last_error_cons_some {A} (x : A) (l : list A) :
  exists y, last_error (x :: l) = Some y.
Proof.
  revert x. induction l as [|z l IH]; intros x; [now exists x|].
  destruct (IH z) as [y Hy]. exists y. exact Hy.
Qed.

Lemma flight_shape (f : Flight.t) :
  Flight.data f <> [] ->
  exists K, (2 <= length K)%nat
            /\ Flight.times f = map fst K
            /\ Flight.coords f = map snd K.
Proof.
  intros Hne. unfold Flight.times, Flight.coords.
  destruct (Flight.data f) as [|r rows]; [congruence|].
  destruct (last_error_cons_some r rows) as [s ->].
  exists (map (fun r => (time1 r, Flight.point1 r)) (r :: rows)
          ++ [(time2 s, Flight.point2 s)]).
  rewrite !map_app, !map_map. cbn [fst snd map].
  split; [|split; reflexivity].
  rewrite length_app. cbn. lia.
Qed.

Lemma recorded_shape (f : Flight.t) (K : list (datetime * Coord)) :
  Flight.times f = map fst K -> Flight.coords f = map snd K -> recorded f = K.
Proof. intros Ht Hc. unfold recorded. rewrite Ht, Hc. apply combine_fst_snd. Qed.

(** ** Interpolation inside the span *)

Lemma sort_knots_sorted (l : list (Q * Coord)) :
  Sorted knot_le l -> sort_knots l = l.
Proof.
  induction 1 as [|k l Hl IH Hk]; [reflexivity|].
  cbn [sort_knots fold_right]. fold (sort_knots l). rewrite IH.
  destruct Hk as [|k' l' Hk]; [reflexivity|].
  cbn [insert_knot]. unfold knot_le in Hk.
  apply Qle_bool_iff in Hk. now rewrite Hk.
Qed.

Lemma timestamp_le (a b : datetime) :
  (a <= b)%Z -> Flight.timestamp a <= Flight.timestamp b.
Proof. intros H. unfold Flight.timestamp, Qle. cbn. lia. Qed.

Lemma timed_sorted (K : list (datetime * Coord)) :
  StronglySorted Z.lt (map fst K) -> Sorted knot_le (map timed K).
Proof.
  induction K as [|k K IH]; intros H; [constructor|].
  cbn [map] in *. inversion H as [|? ? Hs Hk]; subst.
  constructor; [now apply IH|].
  destruct K as [|k' K]; [constructor|]. constructor.
  unfold knot_le, timed. cbn [fst map] in *.
  apply timestamp_le. inversion Hk; subst. lia.
Qed.

Lemma interp1d_in_range (K : list (datetime * Coord)) (t first last_ : datetime) :
  StronglySorted Z.lt (map fst K) ->
  (2 <= length K)%nat ->
  hd_error (map fst K) = Some first ->
  last_error (map fst K) = Some last_ ->
  (first <= t <= last_)%Z ->
  exists p, interp1d (map timed K) (Flight.timestamp t) = Ok p.
Proof.
  intros Hsorted Hlen Hfirst Hlast [Hlo Hhi].
  unfold interp1d. cbv zeta.
  rewrite (sort_knots_sorted _ (timed_sorted _ Hsorted)).
  destruct K as [|[t0 c0] K]; [discriminate|].
  cbn in Hfirst. injection Hfirst as ->.
  assert (Hl : exists cl,
             last_error ((Flight.timestamp first, c0) :: map timed K)
             = Some (Flight.timestamp last_, cl)).
  { change ((Flight.timestamp first, c0) :: map timed K)
      with (map timed ((first, c0) :: K)).
    rewrite last_error_map. rewrite last_error_map in Hlast.
    destruct (last_error ((first, c0) :: K)) as [[a b]|]; [|discriminate].
    cbn in Hlast |- *. injection Hlast as ->. eexists. reflexivity. }
  destruct Hl as [cl Hl].
  cbn [map timed fst snd]. rewrite Hl.
  assert (H1 : Qlt_bool (Flight.timestamp t) (Flight.timestamp first) = false).
  { unfold Qlt_bool. apply negb_false_iff, Qle_bool_iff. now apply timestamp_le. }
  assert (H2 : Qlt_bool (Flight.timestamp last_) (Flight.timestamp t) = false).
  { unfold Qlt_bool. apply negb_false_iff, Qle_bool_iff. now apply timestamp_le. }
  rewrite H1, H2.
  set (knots := (Flight.timestamp first, c0) :: map timed K).
  assert (Hk : length knots = length ((first, c0) :: K))
    by (unfold knots; cbn; now rewrite length_map).
  match goal with |- context [clip ?i 1 ?n] => set (hi := clip i 1 n) end.
  assert (Hhi_bounds : (1 <= hi <= length K)%nat).
  { unfold hi, clip. cbn [length] in *. rewrite length_map.
    match goal with
    | |- context [searchsorted ?a ?b] => generalize (searchsorted a b)
    end.
    intros i. lia. }
  cbn [length] in Hk.
  change (timed (first, c0) :: map timed K) with knots.
  destruct (nth_error knots (hi - 1)) as [[x_lo y_lo]|] eqn:Elo.
  - destruct (nth_error knots hi) as [[x_hi y_hi]|] eqn:Ehi;
      [eexists; reflexivity|].
    apply nth_error_None in Ehi. lia.
  - apply nth_error_None in Elo. lia.
Qed.

Lemma at_in_range (f : Flight.t) (K : list (datetime * Coord))
      (t first last_ : datetime) :
  Flight.times f = map fst K -> Flight.coords f = map snd K ->
  StronglySorted Z.lt (map fst K) ->
  (2 <= length K)%nat ->
  hd_error (map fst K) = Some first ->
  last_error (map fst K) = Some last_ ->
  (first <= t <= last_)%Z ->
  exists p, Flight.at_ f t = Ok p.
Proof.
  intros Ht Hc Hsorted Hlen Hfirst Hlast Hrange.
  unfold Flight.at_. rewrite Ht, Hc.
  destruct K as [|k K]; [cbn in Hlen; lia|].
  cbn [map stack bind].
  change (Flight.timestamp (fst k) :: map Flight.timestamp (map fst K))
    with (map Flight.timestamp (map fst (k :: K))).
  change (snd k :: map snd K) with (map snd (k :: K)).
  replace (combine (map Flight.timestamp (map fst (k :: K))) (map snd (k :: K)))
    with (map timed (k :: K)).
  - now apply (interp1d_in_range (k :: K) t first last_).
  - clear. induction (k :: K) as [|[a b] l IH]; [reflexivity|].
    cbn. now rewrite <- IH.
Qed.

(** ** Building a flight from timed points *)

Lemma length_removelast_pred {A} (l : list A) :
  length (removelast l) = pred (length l).
Proof.
  induction l as [|x l IH]; [reflexivity|].
  destruct l as [|y l]; [reflexivity|].
  change (removelast (x :: y :: l)) with (x :: removelast (y :: l)).
  cbn [length] in *. now rewrite IH.
Qed.

Lemma length_tl_pred {A} (l : list A) : length (tl l) = pred (length l).
Proof. destruct l; reflexivity. Qed.

Lemma from_records_knots (meta : Segment) (knots : list (datetime * Coord)) :
  Flight.from_records (map snd knots) (removelast (map fst knots))
                      (tl (map fst knots)) meta
  = Ok (segments_of meta knots).
Proof.
  unfold Flight.from_records.
  assert (Hlen : forall n m : nat, n = m -> (n =? m)%nat = true)
    by (intros n m ->; apply Nat.eqb_refl).
  rewrite !Hlen.
  - cbn [andb]. f_equal.
    induction knots as [|[t1 [[x1 y1] z1]] rest IH]; [reflexivity|].
    destruct rest as [|[t2 [[x2 y2] z2]] rest]; [reflexivity|].
    cbn [map fst snd] in *.
    change (removelast ((x1, y1, z1) :: (x2, y2, z2) :: map snd rest))
      with ((x1, y1, z1) :: removelast ((x2, y2, z2) :: map snd rest)).
    change (removelast (t1 :: t2 :: map fst rest))
      with (t1 :: removelast (t2 :: map fst rest)).
    cbn [tl combine map segments_of segment_between] in *.
    f_equal. exact IH.
  - rewrite length_tl_pred, length_combine, length_removelast_pred,
      length_tl_pred, !length_map. lia.
  - rewrite length_combine, !length_removelast_pred, length_tl_pred,
      !length_map. lia.
Qed.

Lemma segment_between_ends (meta : Segment) (k1 k2 : datetime * Coord) :
  time1 (segment_between meta k1 k2) = fst k1
  /\ time2 (segment_between meta k1 k2) = fst k2
  /\ Flight.point1 (segment_between meta k1 k2) = snd k1
  /\ Flight.point2 (segment_between meta k1 k2) = snd k2.
Proof.
  destruct k1 as [t1 [[x1 y1] z1]], k2 as [t2 [[x2 y2] z2]].
  repeat split.
Qed.

Lemma segments_of_cons2 (meta : Segment) (k1 k2 : datetime * Coord)
      (rest : list (datetime * Coord)) :
  segments_of meta (k1 :: k2 :: rest)
  = segment_between meta k1 k2 :: segments_of meta (k2 :: rest).
Proof. reflexivity. Qed.

Lemma flight_cons2 (r r' : Segment) (l : DataFrame) :
  Flight.times (Flight.mk (r :: r' :: l))
  = time1 r :: Flight.times (Flight.mk (r' :: l))
  /\ Flight.coords (Flight.mk (r :: r' :: l))
     = Flight.point1 r :: Flight.coords (Flight.mk (r' :: l)).
Proof.
  unfold Flight.times, Flight.coords. cbn [Flight.data].
  change (last_error (r :: r' :: l)) with (last_error (r' :: l)).
  destruct (last_error_cons_some r' l) as [s ->].
  split; reflexivity.
Qed.

Lemma segments_of_points (meta : Segment) (rest : list (datetime * Coord)) :
  forall k1 k2,
    Flight.times (Flight.mk (segments_of meta (k1 :: k2 :: rest)))
    = map fst (k1 :: k2 :: rest)
    /\ Flight.coords (Flight.mk (segments_of meta (k1 :: k2 :: rest)))
       = map snd (k1 :: k2 :: rest).
Proof.
  induction rest as [|k3 rest IH]; intros k1 k2.
  - destruct (segment_between_ends meta k1 k2) as [H1 [H2 [H3 H4]]].
    unfold Flight.times, Flight.coords. cbn. now rewrite H1, H2, H3, H4.
  - rewrite segments_of_cons2. rewrite (segments_of_cons2 meta k2 k3 rest).
    destruct (flight_cons2 (segment_between meta k1 k2)
                           (segment_between meta k2 k3)
                           (segments_of meta (k3 :: rest))) as [-> ->].
    rewrite <- (segments_of_cons2 meta k2 k3 rest).
    destruct (IH k2 k3) as [-> ->].
    destruct (segment_between_ends meta k1 k2) as [-> [_ [-> _]]].
    split; reflexivity.
Qed.

Lemma segments_of_follows (meta : Segment) (knots : list (datetime * Coord)) :
  follows (Flight.mk (segments_of meta knots)) knots.
Proof.
  split.
  - intros Hlen. destruct knots as [|k1 [|k2 rest]]; [cbn in Hlen; lia..|].
    apply segments_of_points.
  - intros Hlen. destruct knots as [|k1 [|k2 rest]]; [reflexivity..|].
    cbn in Hlen. lia.
Qed.

Lemma filter_map_fst (idx : datetime -> bool) (K : list (datetime * Coord)) :
  filter idx (map fst K) = map fst (filter (fun tc => idx (fst tc)) K).
Proof.
  induction K as [|k K IH]; [reflexivity|]. cbn.
  destruct (idx (fst k)); cbn; now rewrite IH.
Qed.

Lemma removelast_tl_snoc {A} (X : list A) (a : A) :
  removelast (tl (X ++ [a])) = tl X.
Proof.
  destruct X as [|x X]; [reflexivity|]. cbn [app tl]. apply removelast_last.
Qed.

(** ** [Flight.between] *)

Lemma from_records_eq (meta : Segment) (knots : list (datetime * Coord))
      (pts : list Coord) (ts1 ts2 : list datetime) :
  pts = map snd knots ->
  ts1 = removelast (map fst knots) ->
  ts2 = tl (map fst knots) ->
  Flight.from_records pts ts1 ts2 meta = Ok (segments_of meta knots).
Proof. intros -> -> ->. apply from_records_knots. Qed.

Lemma between_knots (f : Flight.t) (K : list (datetime * Coord))
      (t0 t1 first last_ : datetime) (meta : Segment) :
  Flight.times f = map fst K -> Flight.coords f = map snd K ->
  hd_error (map fst K) = Some first ->
  last_error (map fst K) = Some last_ ->
  iloc0 (Flight.data f) = Ok meta ->
  Flight.between f t0 (Time t1)
  = (l <- (if (t0 >? first)%Z
           then p <- Flight.at_ f t0 ;; Ok [(t0, p)] else Ok []) ;;
     r <- (if (t1 <? last_)%Z
           then p <- Flight.at_ f t1 ;; Ok [(t1, p)] else Ok []) ;;
     Ok (Flight.mk (segments_of meta (l ++ recorded_between f t0 t1 ++ r)))).
Proof.
  intros Ht Hc Hfirst Hlast Hmeta.
  unfold recorded_between. rewrite (recorded_shape f K Ht Hc).
  destruct K as [|k K]; [discriminate|].
  unfold Flight.between. cbn [resolve_after]. rewrite Ht, Hc, Hmeta.
  cbn [map stack bind item_first].
  cbn [map hd_error] in Hfirst, Hlast. injection Hfirst as Hfirst.
  unfold item_last. rewrite Hlast. cbn [bind].
  change (fst k :: map fst K) with (map fst (k :: K)).
  change (snd k :: map snd K) with (map snd (k :: K)).
  rewrite Hfirst.
  set (K' := k :: K) in *.
  rewrite combine_fst_snd, filter_map_fst.
  set (inner := filter (fun tc => (t0 <? fst tc)%Z && (fst tc <? t1)%Z) K').
  destruct (t0 >? first)%Z.
  - destruct (Flight.at_ f t0) as [p0|e]; [|reflexivity]. cbn [bind].
    destruct (t1 <? last_)%Z.
    + destruct (Flight.at_ f t1) as [p1|e]; [|reflexivity]. cbn [bind].
      rewrite (from_records_eq meta ([(t0, p0)] ++ inner ++ [(t1, p1)])).
      * reflexivity.
      * cbn [app map fst snd]. rewrite map_app. reflexivity.
      * cbn [app map fst snd]. rewrite map_app. cbn [map fst].
        change (t0 :: map fst inner ++ [t1])
          with ((t0 :: map fst inner) ++ [t1]).
        now rewrite removelast_last.
      * cbn [app map fst snd]. rewrite map_app. reflexivity.
    + cbn [bind].
      rewrite (from_records_eq meta ([(t0, p0)] ++ inner ++ [])).
      * reflexivity.
      * rewrite app_nil_r. reflexivity.
      * rewrite app_nil_r. reflexivity.
      * rewrite app_nil_r. cbn [app map fst tl].
        now rewrite removelast_last.
  - cbn [bind]. destruct (t1 <? last_)%Z.
    + destruct (Flight.at_ f t1) as [p1|e]; [|reflexivity]. cbn [bind].
      rewrite (from_records_eq meta ([] ++ inner ++ [(t1, p1)])).
      * reflexivity.
      * cbn [app]. rewrite map_app. reflexivity.
      * cbn [app tl]. rewrite map_app. cbn [map fst].
        now rewrite removelast_last.
      * cbn [app tl]. rewrite map_app. reflexivity.
    + cbn [bind].
      rewrite (from_records_eq meta ([] ++ inner ++ [])).
      * reflexivity.
      * cbn [app]. rewrite app_nil_r. reflexivity.
      * cbn [app tl]. rewrite app_nil_r. reflexivity.
      * cbn [app tl]. rewrite app_nil_r. apply removelast_tl_snoc.
Qed.

Lemma fold_min_above (a : Z) (l : list Z) :
  Forall (fun x => a <= x)%Z l -> fold_left Z.min l a = a.
Proof.
  induction 1 as [|x l Hx _ IH]; [reflexivity|].
  cbn [fold_left]. now rewrite Z.min_l.
Qed.

Lemma fold_max_below (b : Z) (l : list Z) :
  forall a, (a <= b)%Z -> Forall (fun x => x <= b)%Z l ->
            (fold_left Z.max l a <= b)%Z.
Proof.
  induction l as [|x l IH]; intros a Ha Hl; [exact Ha|].
  cbn [fold_left]. inversion Hl; subst. apply IH; [lia | assumption].
Qed.

Lemma py_min_sorted (l : list Z) (a : Z) :
  StronglySorted Z.lt l -> hd_error l = Some a -> py_min l = Ok a.
Proof.
  intros Hs Hhd. destruct l as [|x l]; [discriminate|].
  injection Hhd as ->. cbn [py_min]. f_equal.
  apply fold_min_above. inversion Hs as [|? ? _ Hx]; subst.
  eapply Forall_impl; [|exact Hx]. cbn. lia.
Qed.

Lemma py_max_sorted (l : list Z) (b : Z) :
  StronglySorted Z.lt l -> last_error l = Some b -> py_max l = Ok b.
Proof.
  intros Hs Hlast. destruct l as [|x l]; [discriminate|].
  cbn [py_max]. f_equal. revert x Hs Hlast.
  induction l as [|y l IH]; intros x Hs Hlast.
  - cbn in Hlast |- *. congruence.
  - cbn [fold_left]. inversion Hs as [|? ? Hs' Hx]; subst.
    inversion Hx; subst. rewrite Z.max_r by lia. now apply IH.
Qed.

Lemma both_ends_span (meta : Segment) (t0 t1 : datetime) (p0 p1 : Coord)
      (inner : list (datetime * Coord)) :
  (t0 < t1)%Z ->
  Forall (fun tc => t0 < fst tc < t1)%Z inner ->
  let g := Flight.mk (segments_of meta ([(t0, p0)] ++ inner ++ [(t1, p1)])) in
  Flight.start g = Ok t0 /\ Flight.stop g = Ok t1.
Proof.
  intros Hlt Hin g.
  destruct (segments_of_follows meta ([(t0, p0)] ++ inner ++ [(t1, p1)]))
    as [Hf _].
  destruct Hf as [Ht _]; [rewrite !length_app; cbn; lia|].
  fold g in Ht. unfold Flight.start, Flight.stop. rewrite Ht.
  cbn [app map fst]. rewrite map_app. cbn [map fst py_min py_max].
  assert (Hinner : Forall (fun x => t0 < x < t1)%Z (map fst inner)).
  { apply Forall_forall. intros x Hx. apply in_map_iff in Hx.
    destruct Hx as [tc [<- Htc]]. rewrite Forall_forall in Hin. now apply Hin. }
  split; f_equal.
  - apply fold_min_above. apply Forall_app. split.
    + eapply Forall_impl; [|exact Hinner]. cbn. lia.
    + constructor; [lia | constructor].
  - rewrite fold_left_app. cbn [fold_left]. apply Z.max_r.
    apply fold_max_below; [lia|].
    eapply Forall_impl; [|exact Hinner]. cbn. lia.
Qed.

(** C6, as the code has it.  Take a flight whose times go strictly up,
    from [start] to [stop], and a window [t0 < t1] that meets the span
    ([t0 <= stop] and [start <= t1]).  [between(t0, t1)] returns a flight
    that goes through: an interpolated point at exactly [t0], where
    [at(t0)] is, when [start < t0], and no such point when [t0 <= start];
    then the recorded points strictly between [t0] and [t1]; then an
    interpolated point at exactly [t1], where [at(t1)] is, when
    [t1 < stop], and none when [stop <= t1].  With fewer than two such
    points the result has no segment.  When [start < t0 < t1 < stop] the
    result starts at [t0] and stops at [t1]. *)
Theorem C6_between_synthetic_endpoints
        (f : Flight.t) (t0 t1 start stop : datetime) :
  Flight.data f <> [] ->
  StronglySorted Z.lt (Flight.times f) ->
  Flight.start f = Ok start ->
  Flight.stop f = Ok stop ->
  (t0 < t1)%Z -> (t0 <= stop)%Z -> (start <= t1)%Z ->
  exists g left right,
    Flight.between f t0 (Time t1) = Ok g
    /\ synthetic_end f (start < t0)%Z t0 left
    /\ synthetic_end f (t1 < stop)%Z t1 right
    /\ follows g (left ++ recorded_between f t0 t1 ++ right)
    /\ ((start < t0)%Z -> (t1 < stop)%Z ->
        Flight.start g = Ok t0 /\ Flight.stop g = Ok t1).
Proof.
  intros Hne Hsorted Hstart Hstop Hlt Hleft Hright.
  destruct (flight_shape f Hne) as [K [Hlen [Ht Hc]]].
  rewrite Ht in Hsorted.
  assert (Hfirst : hd_error (map fst K) = Some start).
  { destruct K as [|k K]; [cbn in Hlen; lia|].
    unfold Flight.start in Hstart. rewrite Ht in Hstart.
    rewrite (py_min_sorted _ (fst k) Hsorted eq_refl) in Hstart.
    cbn. congruence. }
  assert (Hlast : last_error (map fst K) = Some stop).
  { destruct K as [|k K]; [cbn in Hlen; lia|].
    destruct (last_error_cons_some (fst k) (map fst K)) as [b Hb].
    unfold Flight.stop in Hstop. rewrite Ht in Hstop.
    change (map fst (k :: K)) with (fst k :: map fst K) in *.
    rewrite (py_max_sorted _ b Hsorted Hb) in Hstop. congruence. }
  assert (Hmeta : exists meta, iloc0 (Flight.data f) = Ok meta).
  { destruct (Flight.data f) as [|r rows]; [congruence|]. now exists r. }
  destruct Hmeta as [meta Hmeta].
  rewrite (between_knots f K t0 t1 start stop meta Ht Hc Hfirst Hlast Hmeta).
  assert (Hinner : Forall (fun tc => t0 < fst tc < t1)%Z
                          (recorded_between f t0 t1)).
  { apply Forall_forall. intros tc Htc. unfold recorded_between in Htc.
    apply filter_In in Htc. destruct Htc as [_ Htc].
    apply andb_true_iff in Htc. lia. }
  rewrite Z.gtb_ltb.
  destruct (Z.ltb_spec start t0) as [Hl|Hl].
  - destruct (at_in_range f K t0 start stop Ht Hc Hsorted Hlen Hfirst Hlast)
      as [p0 Hp0]; [lia|].
    rewrite Hp0. cbn [bind].
    destruct (Z.ltb_spec t1 stop) as [Hr|Hr].
    + destruct (at_in_range f K t1 start stop Ht Hc Hsorted Hlen Hfirst Hlast)
        as [p1 Hp1]; [lia|].
      rewrite Hp1. cbn [bind].
      eexists; exists [(t0, p0)], [(t1, p1)].
      split; [reflexivity|].
      split; [left; split; [exact Hl|]; exists p0; split; [exact Hp0|reflexivity]|].
      split; [left; split; [exact Hr|]; exists p1; split; [exact Hp1|reflexivity]|].
      split; [apply segments_of_follows|].
      intros _ _. now apply both_ends_span.
    + cbn [bind]. eexists; exists [(t0, p0)], [].
      split; [reflexivity|].
      split; [left; split; [exact Hl|]; exists p0; split; [exact Hp0|reflexivity]|].
      split; [right; split; [lia | reflexivity]|].
      split; [apply segments_of_follows | intros; lia].
  - cbn [bind]. destruct (Z.ltb_spec t1 stop) as [Hr|Hr].
    + destruct (at_in_range f K t1 start stop Ht Hc Hsorted Hlen Hfirst Hlast)
        as [p1 Hp1]; [lia|].
      rewrite Hp1. cbn [bind].
      eexists; exists [], [(t1, p1)].
      split; [reflexivity|].
      split; [right; split; [lia | reflexivity]|].
      split; [left; split; [exact Hr|]; exists p1; split; [exact Hp1|reflexivity]|].
      split; [apply segments_of_follows | intros; lia].
    + cbn [bind]. eexists; exists [], [].
      split; [reflexivity|].
      split; [right; split; [lia | reflexivity]|].
      split; [right; split; [lia | reflexivity]|].
      split; [apply segments_of_follows | intros; lia].
Qed.

Lemma C6_witness :
  exists g left right,
    Flight.between (Flight.mk (SO6.data Sample.table)) 2%Z (Time 7%Z) = Ok g
    /\ synthetic_end (Flight.mk (SO6.data Sample.table)) (0 < 2)%Z 2%Z left
    /\ synthetic_end (Flight.mk (SO6.data Sample.table)) (7 < 10)%Z 7%Z right
    /\ follows g (left
                  ++ recorded_between (Flight.mk (SO6.data Sample.table)) 2%Z 7%Z
                  ++ right)
    /\ ((0 < 2)%Z -> (7 < 10)%Z ->
        Flight.start g = Ok 2%Z /\ Flight.stop g = Ok 7%Z).
Proof.
  apply (C6_between_synthetic_endpoints
           (Flight.mk (SO6.data Sample.table)) 2%Z 7%Z 0%Z 10%Z).
  - discriminate.
  - repeat (constructor; try reflexivity).
  - reflexivity.
  - reflexivity.
  - reflexivity.
  - discriminate.
  - discriminate.
Defined.

(** C6 as stated fails.  In a flight of one segment from 0 to 10, the time
    5 is strictly inside the span and [at(5)] exists, but [between(5, 10)]
    has no point at 5: it has no segment at all, the recorded point at 10
    being neither strictly before 10 nor replaced by an interpolated one.
    And with both boundaries after the span, no flight is returned: the
    interpolation at 12 is out of range. *)
Lemma C6_counterexample :
  Flight.start Sample.single = Ok 0%Z
  /\ Flight.stop Sample.single = Ok 10%Z
  /\ (exists p, Flight.at_ Sample.single 5%Z = Ok p)
  /\ Flight.between Sample.single 5%Z (Time 10%Z) = Ok (Flight.mk [])
  /\ Flight.between Sample.single 12%Z (Time 15%Z) = Raise ValueError.
Proof.
  split; [reflexivity|]. split; [reflexivity|].
  split; [eexists; reflexivity|]. split; reflexivity.
Qed.

(* ================================================================== *)
(** * Further properties of the code *)
(* ================================================================== *)

(** ** Times of day *)

(** X1. [hour] reads the digits HHMMSS: for minutes and seconds of two
    digits, [hour(10000*h + 100*m + s)] is [h] hours, [m] minutes and [s]
    seconds. *)
Theorem X1_hour_reads_HHMMSS (h m s : Z) :
  (0 <= m < 100)%Z -> (0 <= s < 100)%Z ->
  hour (h * 10000 + m * 100 + s) = py_timedelta h m s.
Proof.
  intros Hm Hs. unfold hour.
  assert (H1 : ((h * 10000 + m * 100 + s) mod 100 = s)%Z).
  { replace (h * 10000 + m * 100 + s)%Z with (s + (h * 100 + m) * 100)%Z by ring.
    rewrite Z.mod_add by lia. now apply Z.mod_small. }
  assert (H2 : ((h * 10000 + m * 100 + s) / 100 = h * 100 + m)%Z).
  { replace (h * 10000 + m * 100 + s)%Z with (s + (h * 100 + m) * 100)%Z by ring.
    rewrite Z.div_add by lia. rewrite Z.div_small by lia. ring. }
  assert (H3 : ((h * 10000 + m * 100 + s) / 10000 = h)%Z).
  { replace ((h * 10000 + m * 100 + s) / 10000)%Z
      with ((h * 10000 + m * 100 + s) / 100 / 100)%Z
      by (rewrite Z.div_div by lia; reflexivity).
    rewrite H2. replace (h * 100 + m)%Z with (m + h * 100)%Z by ring.
    rewrite Z.div_add by lia. rewrite Z.div_small by lia. ring. }
  rewrite H1, H2, H3.
  replace (h * 100 + m)%Z with (m + h * 100)%Z by ring.
  rewrite Z.mod_add by lia. now rewrite Z.mod_small.
Qed.

Lemma X1_witness : hour 235959 = py_timedelta 23 59 59.
Proof.
  apply (X1_hour_reads_HHMMSS 23 59 59); split; (discriminate || reflexivity).
Defined.

(** X2. On clock readings [hour] keeps the order: a later reading gives a
    longer time since midnight. *)
Theorem X2_hour_increasing (a b : Z) :
  clock_reading a -> clock_reading b -> (a < b)%Z -> (hour a < hour b)%Z.
Proof.
  unfold clock_reading, hour, py_timedelta. intros [Ha1 Ha2] [Hb1 Hb2] Hab.
  pose proof (Z.div_mod a 100 ltac:(lia)) as Da.
  pose proof (Z.div_mod b 100 ltac:(lia)) as Db.
  pose proof (Z.div_mod (a / 100) 100 ltac:(lia)) as Da'.
  pose proof (Z.div_mod (b / 100) 100 ltac:(lia)) as Db'.
  pose proof (Z.mod_pos_bound a 100 ltac:(lia)).
  pose proof (Z.mod_pos_bound b 100 ltac:(lia)).
  pose proof (Z.mod_pos_bound (a / 100) 100 ltac:(lia)).
  pose proof (Z.mod_pos_bound (b / 100) 100 ltac:(lia)).
  replace (a / 10000)%Z with (a / 100 / 100)%Z
    by (rewrite Z.div_div by lia; reflexivity).
  replace (b / 10000)%Z with (b / 100 / 100)%Z
    by (rewrite Z.div_div by lia; reflexivity).
  lia.
Qed.

Lemma X2_witness : (hour 95959 < hour 100000)%Z.
Proof.
  apply (X2_hour_increasing 95959 100000);
    [split; reflexivity | split; reflexivity | reflexivity].
Defined.

(** ** The points and the span of a flight *)

(** X3. The coordinates and the times of a flight go together: there are
    as many of the ones as of the others, none for a flight without
    segment and one more than the number of segments otherwise. *)
Theorem X3_coords_and_times_aligned (f : Flight.t) :
  length (Flight.coords f) = length (Flight.times f)
  /\ (Flight.data f = [] -> Flight.coords f = [] /\ Flight.times f = [])
  /\ (Flight.data f <> [] -> length (Flight.coords f) = S (Flight.len f)).
Proof.
  unfold Flight.coords, Flight.times, Flight.len.
  destruct (Flight.data f) as [|r rows].
  - cbn. repeat split; congruence.
  - destruct (last_error_cons_some r rows) as [s ->].
    rewrite !length_app, !length_map. cbn [length].
    repeat split; try discriminate; lia.
Qed.

Lemma fold_min_spec (l : list Z) :
  forall a, In (fold_left Z.min l a) (a :: l)
            /\ (forall x, In x (a :: l) -> fold_left Z.min l a <= x)%Z.
Proof.
  induction l as [|y l IH]; intros a; cbn [fold_left].
  - split; [now left|]. intros x [<-|[]]. lia.
  - destruct (IH (Z.min a y)) as [Hin Hle]. split.
    + destruct Hin as [Hin|Hin]; [|right; now right].
      rewrite <- Hin. destruct (Z.min_spec a y) as [[_ ->]|[_ ->]];
        [now left | right; now left].
    + intros x Hx. assert (fold_left Z.min l (Z.min a y) <= Z.min a y)%Z
        by (apply Hle; now left).
      destruct Hx as [<-|[<-|Hx]]; [lia | lia |]. apply Hle. now right.
Qed.

Lemma fold_max_spec (l : list Z) :
  forall a, In (fold_left Z.max l a) (a :: l)
            /\ (forall x, In x (a :: l) -> x <= fold_left Z.max l a)%Z.
Proof.
  induction l as [|y l IH]; intros a; cbn [fold_left].
  - split; [now left|]. intros x [<-|[]]. lia.
  - destruct (IH (Z.max a y)) as [Hin Hle]. split.
    + destruct Hin as [Hin|Hin]; [|right; now right].
      rewrite <- Hin. destruct (Z.max_spec a y) as [[_ ->]|[_ ->]];
        [right; now left | now left].
    + intros x Hx. assert (Z.max a y <= fold_left Z.max l (Z.max a y))%Z
        by (apply Hle; now left).
      destruct Hx as [<-|[<-|Hx]]; [lia | lia |]. apply Hle. now right.
Qed.

(** X4. A flight without segment has no start and no stop: asking for them
    raises [ValueError].  Otherwise [start] and [stop] are times of the
    flight, and every time of the flight lies between them. *)
Theorem X4_start_and_stop_bound_the_times (f : Flight.t) :
  (Flight.data f = [] ->
   Flight.start f = Raise ValueError /\ Flight.stop f = Raise ValueError)
  /\ (Flight.data f <> [] ->
      exists a b,
        Flight.start f = Ok a /\ Flight.stop f = Ok b
        /\ In a (Flight.times f) /\ In b (Flight.times f)
        /\ forall t, In t (Flight.times f) -> (a <= t <= b)%Z).
Proof.
  split.
  - intros Hnil. unfold Flight.start, Flight.stop, Flight.times.
    rewrite Hnil. split; reflexivity.
  - intros Hne. destruct (flight_shape f Hne) as [K [Hlen [Ht _]]].
    unfold Flight.start, Flight.stop. rewrite Ht.
    destruct (map fst K) as [|x l] eqn:E.
    + destruct K; [cbn in Hlen; lia | discriminate].
    + cbn [py_min py_max].
      destruct (fold_min_spec l x) as [Hmin_in Hmin].
      destruct (fold_max_spec l x) as [Hmax_in Hmax].
      exists (fold_left Z.min l x), (fold_left Z.max l x).
      repeat split; auto.
Qed.

(** ** Interpolating a flight *)

Lemma at_as_interp1d (f : Flight.t) (K : list (datetime * Coord)) (t : datetime) :
  Flight.times f = map fst K -> Flight.coords f = map snd K -> K <> [] ->
  Flight.at_ f t = interp1d (map timed K) (Flight.timestamp t).
Proof.
  intros Ht Hc Hne. unfold Flight.at_. rewrite Ht, Hc.
  destruct K as [|k K]; [congruence|].
  cbn [map stack bind].
  change (Flight.timestamp (fst k) :: map Flight.timestamp (map fst K))
    with (map Flight.timestamp (map fst (k :: K))).
  change (snd k :: map snd K) with (map snd (k :: K)).
  replace (combine (map Flight.timestamp (map fst (k :: K))) (map snd (k :: K)))
    with (map timed (k :: K)); [reflexivity|].
  clear. generalize (k :: K). intros l.
  induction l as [|[a b] l IH]; [reflexivity|].
  cbn. now rewrite <- IH.
Qed.

Lemma timestamp_lt (a b : datetime) :
  (a < b)%Z -> Flight.timestamp a < Flight.timestamp b.
Proof. intros H. unfold Flight.timestamp, Qlt. cbn. lia. Qed.

Lemma Qlt_bool_false_iff (a b : Q) : Qlt_bool a b = false <-> b <= a.
Proof.
  unfold Qlt_bool. rewrite negb_false_iff. apply Qle_bool_iff.
Qed.




Lemma sorted_first_last (l : list Z) (a b t : Z) :
  StronglySorted Z.lt l -> hd_error l = Some a -> last_error l = Some b ->
  In t l -> (a <= t <= b)%Z.
Proof.
  intros Hs Ha Hb Hin.
  pose proof (py_min_sorted l a Hs Ha) as Hmin.
  pose proof (py_max_sorted l b Hs Hb) as Hmax.
  destruct l as [|x l]; [destruct Hin|].
  cbn [py_min py_max] in Hmin, Hmax.
  injection Hmin as Hmin. injection Hmax as Hmax.
  destruct (fold_min_spec l x) as [_ Hlow].
  destruct (fold_max_spec l x) as [_ Hup].
  specialize (Hlow t Hin). specialize (Hup t Hin). lia.
Qed.





Lemma at_outside_span (f : Flight.t) (t start stop : datetime) :
  Flight.data f <> [] ->
  StronglySorted Z.lt (Flight.times f) ->
  Flight.start f = Ok start ->
  Flight.stop f = Ok stop ->
  (t < start \/ stop < t)%Z ->
  Flight.at_ f t = Raise ValueError.
Proof.
  intros Hne Hsorted Hstart Hstop Hout.
  destruct (flight_shape f Hne) as [K [Hlen [Ht Hc]]].
  rewrite Ht in Hsorted.
  assert (HK : K <> []) by (destruct K; [cbn in Hlen; lia | discriminate]).
  rewrite (at_as_interp1d f K t Ht Hc HK).
  unfold Flight.start in Hstart. unfold Flight.stop in Hstop.
  rewrite Ht in Hstart, Hstop.
  destruct K as [|[t0 c0] K]; [congruence|].
  destruct (last_error_cons_some (t0, c0) K) as [[tl_ cl] HlastK].
  assert (Hlast : last_error (map fst ((t0, c0) :: K)) = Some tl_)
    by (rewrite last_error_map, HlastK; reflexivity).
  rewrite (py_min_sorted _ t0 Hsorted eq_refl) in Hstart.
  rewrite (py_max_sorted _ tl_ Hsorted Hlast) in Hstop.
  injection Hstart as ->. injection Hstop as ->.
  assert (Hle : (start <= stop)%Z).
  { apply (sorted_first_last (map fst ((start, c0) :: K)) start stop start);
      auto. now left. }
  unfold interp1d. cbv zeta.
  rewrite (sort_knots_sorted _ (timed_sorted _ Hsorted)).
  assert (Hl : last_error (map timed ((start, c0) :: K))
               = Some (Flight.timestamp stop, cl))
    by (rewrite last_error_map, HlastK; reflexivity).
  cbn [map] in Hl |- *. unfold timed at 1. cbn [fst snd]. 
  unfold timed at 1 in Hl. cbn [fst snd] in Hl. rewrite Hl.
  destruct Hout as [Hout|Hout].
  - now rewrite (proj2 (Qlt_bool_iff _ _) (timestamp_lt _ _ Hout)).
  - rewrite (proj2 (Qlt_bool_false_iff _ _) (timestamp_le start t ltac:(lia))).
    now rewrite (proj2 (Qlt_bool_iff _ _) (timestamp_lt _ _ Hout)).
Qed.

Lemma at_inside_span (f : Flight.t) (t start stop : datetime) :
  Flight.data f <> [] ->
  StronglySorted Z.lt (Flight.times f) ->
  Flight.start f = Ok start ->
  Flight.stop f = Ok stop ->
  (start <= t <= stop)%Z ->
  exists p, Flight.at_ f t = Ok p.
Proof.
  intros Hne Hsorted Hstart Hstop Hin.
  destruct (flight_shape f Hne) as [K [Hlen [Ht Hc]]].
  rewrite Ht in Hsorted.
  unfold Flight.start in Hstart. unfold Flight.stop in Hstop.
  rewrite Ht in Hstart, Hstop.
  destruct K as [|[t0 c0] K]; [cbn in Hlen; lia|].
  destruct (last_error_cons_some (t0, c0) K) as [[tl_ cl] HlastK].
  assert (Hlast : last_error (map fst ((t0, c0) :: K)) = Some tl_)
    by (rewrite last_error_map, HlastK; reflexivity).
  rewrite (py_min_sorted _ t0 Hsorted eq_refl) in Hstart.
  rewrite (py_max_sorted _ tl_ Hsorted Hlast) in Hstop.
  injection Hstart as ->. injection Hstop as ->.
  apply (at_in_range f ((start, c0) :: K) t start stop); auto.
Qed.

(** X6. Interpolation stays within the span: in a flight whose times go
    strictly up, [at] returns a point exactly for the times from the start
    to the stop, both included, and raises [ValueError] exactly for the
    times before the start or after the stop. *)
Theorem X6_at_defined_on_the_span (f : Flight.t) (t start stop : datetime) :
  Flight.data f <> [] ->
  StronglySorted Z.lt (Flight.times f) ->
  Flight.start f = Ok start ->
  Flight.stop f = Ok stop ->
  ((exists p, Flight.at_ f t = Ok p) <-> (start <= t <= stop)%Z)
  /\ (Flight.at_ f t = Raise ValueError <-> (t < start \/ stop < t)%Z).
Proof.
  intros Hne Hsorted Hstart Hstop.
  assert (Hout : (t < start \/ stop < t)%Z -> Flight.at_ f t = Raise ValueError)
    by (apply at_outside_span; assumption).
  assert (Hin : (start <= t <= stop)%Z -> exists p, Flight.at_ f t = Ok p)
    by (apply at_inside_span; assumption).
  split; split.
  - intros [p Hp].
    destruct (Z_lt_le_dec t start) as [H1|H1];
      [rewrite Hout in Hp by lia; discriminate|].
    destruct (Z_lt_le_dec stop t) as [H2|H2];
      [rewrite Hout in Hp by lia; discriminate|].
    lia.
  - exact Hin.
  - intros Hraise.
    destruct (Z_lt_le_dec t start) as [H1|H1]; [now left|].
    destruct (Z_lt_le_dec stop t) as [H2|H2]; [now right|].
    destruct Hin as [p Hp]; [lia|]. congruence.
  - exact Hout.
Qed.

Lemma X6_witness :
  ((exists p, Flight.at_ Sample.single 12%Z = Ok p) <-> (0 <= 12 <= 10)%Z)
  /\ (Flight.at_ Sample.single 12%Z = Raise ValueError
      <-> (12 < 0 \/ 10 < 12)%Z).
Proof.
  apply (X6_at_defined_on_the_span Sample.single 12%Z 0%Z 10%Z).
  - discriminate.
  - repeat (constructor; try reflexivity).
  - reflexivity.
  - reflexivity.
Defined.

(** ** Cutting a flight *)

Lemma span_of_sorted (f : Flight.t) (start stop : datetime) :
  Flight.data f <> [] ->
  StronglySorted Z.lt (Flight.times f) ->
  Flight.start f = Ok start ->
  Flight.stop f = Ok stop ->
  exists K meta,
    (2 <= length K)%nat
    /\ Flight.times f = map fst K /\ Flight.coords f = map snd K
    /\ hd_error (map fst K) = Some start
    /\ last_error (map fst K) = Some stop
    /\ iloc0 (Flight.data f) = Ok meta
    /\ (start <= stop)%Z.
Proof.
  intros Hne Hsorted Hstart Hstop.
  destruct (flight_shape f Hne) as [K [Hlen [Ht Hc]]].
  rewrite Ht in Hsorted.
  unfold Flight.start in Hstart. unfold Flight.stop in Hstop.
  rewrite Ht in Hstart, Hstop.
  destruct K as [|[t0 c0] K]; [cbn in Hlen; lia|].
  destruct (last_error_cons_some (t0, c0) K) as [[tl_ cl] HlastK].
  assert (Hlast : last_error (map fst ((t0, c0) :: K)) = Some tl_)
    by (rewrite last_error_map, HlastK; reflexivity).
  rewrite (py_min_sorted _ t0 Hsorted eq_refl) in Hstart.
  rewrite (py_max_sorted _ tl_ Hsorted Hlast) in Hstop.
  injection Hstart as ->. injection Hstop as ->.
  assert (Hmeta : exists meta, iloc0 (Flight.data f) = Ok meta).
  { destruct (Flight.data f) as [|r rows]; [congruence|]. now exists r. }
  destruct Hmeta as [meta Hmeta].
  exists ((start, c0) :: K), meta. repeat split; auto.
  apply (sorted_first_last (map fst ((start, c0) :: K)) start stop start);
    auto. now left.
Qed.

Lemma between_resolved (f : Flight.t) (t0 : datetime) (after : time_or_delta) :
  Flight.between f t0 after = Flight.between f t0 (Time (resolve_after t0 after)).
Proof. destruct after; reflexivity. Qed.

Lemma between_span_cases
      (f : Flight.t) (t0 start stop : datetime) (after : time_or_delta) :
  Flight.data f <> [] ->
  StronglySorted Z.lt (Flight.times f) ->
  Flight.start f = Ok start ->
  Flight.stop f = Ok stop ->
  let t1 := resolve_after t0 after in
  (Flight.between f t0 after = Raise ValueError
   <-> (stop < t0 \/ t1 < start)%Z)
  /\ ((exists g, Flight.between f t0 after = Ok g)
      <-> (t0 <= stop /\ start <= t1)%Z).
Proof.
  intros Hne Hsorted Hstart Hstop t1.
  destruct (span_of_sorted f start stop Hne Hsorted Hstart Hstop)
    as [K [meta [Hlen [Ht [Hc [Hfirst [Hlast [Hmeta Hle]]]]]]]].
  rewrite between_resolved. fold t1.
  rewrite (between_knots f K t0 t1 start stop meta Ht Hc Hfirst Hlast Hmeta).
  assert (Hout : forall t, (t < start \/ stop < t)%Z ->
                           Flight.at_ f t = Raise ValueError)
    by (intros t; apply at_outside_span; assumption).
  assert (Hin : forall t, (start <= t <= stop)%Z ->
                          exists p, Flight.at_ f t = Ok p)
    by (intros t; apply at_inside_span; assumption).
  assert (Hraise :
            forall P Q : Prop, P -> ~ Q ->
              (@Raise Flight.t ValueError = Raise ValueError <-> P)
              /\ ((exists g, @Raise Flight.t ValueError = Ok g) <-> Q)).
  { intros P Q HP HQ. split; split; try tauto.
    intros [g Hg]. discriminate. }
  assert (Hok :
            forall (g : Flight.t) (P Q : Prop), ~ P -> Q ->
              (Ok g = Raise ValueError <-> P)
              /\ ((exists g', Ok g = Ok g') <-> Q)).
  { intros g P Q HP HQ. split; split; try tauto; try discriminate.
    intros _. now exists g. }
  rewrite Z.gtb_ltb.
  destruct (Z.ltb_spec start t0) as [Hl|Hl].
  - destruct (Z_lt_le_dec stop t0) as [Hfar|Hnear].
    + rewrite (Hout t0) by lia. cbn [bind]. apply Hraise; lia.
    + destruct (Hin t0 ltac:(lia)) as [p0 ->]. cbn [bind].
      destruct (Z.ltb_spec t1 stop) as [Hr|Hr].
      * destruct (Z_lt_le_dec t1 start) as [Hfar|Hnear'].
        -- rewrite (Hout t1) by lia. cbn [bind]. apply Hraise; lia.
        -- destruct (Hin t1 ltac:(lia)) as [p1 ->]. cbn [bind].
           apply Hok; lia.
      * cbn [bind]. apply Hok; lia.
  - cbn [bind]. destruct (Z.ltb_spec t1 stop) as [Hr|Hr].
    + destruct (Z_lt_le_dec t1 start) as [Hfar|Hnear'].
      * rewrite (Hout t1) by lia. cbn [bind]. apply Hraise; lia.
      * destruct (Hin t1 ltac:(lia)) as [p1 ->]. cbn [bind].
        apply Hok; lia.
    + cbn [bind]. apply Hok; lia.
Qed.

(** X7. When [between] fails.  In a flight whose times go strictly up, the
    call raises [ValueError] exactly when the window lies wholly after the
    stop or wholly before the start, and returns a flight in all other
    cases, with the end of the window given as a time or as a duration. *)
Theorem X7_between_fails_off_the_span
        (f : Flight.t) (t0 start stop : datetime) (after : time_or_delta) :
  Flight.data f <> [] ->
  StronglySorted Z.lt (Flight.times f) ->
  Flight.start f = Ok start ->
  Flight.stop f = Ok stop ->
  let t1 := resolve_after t0 after in
  (Flight.between f t0 after = Raise ValueError
   <-> (stop < t0 \/ t1 < start)%Z)
  /\ ((exists g, Flight.between f t0 after = Ok g)
      <-> (t0 <= stop /\ start <= t1)%Z).
Proof. exact (between_span_cases f t0 start stop after). Qed.

Lemma X7_witness :
  (Flight.between Sample.single 12%Z (Delta 3%Z) = Raise ValueError
   <-> (10 < 12 \/ 12 + 3 < 0)%Z)
  /\ ((exists g, Flight.between Sample.single 12%Z (Delta 3%Z) = Ok g)
      <-> (12 <= 10 /\ 0 <= 12 + 3)%Z).
Proof.
  apply (X7_between_fails_off_the_span Sample.single 12%Z 0%Z 10%Z (Delta 3%Z)).
  - discriminate.
  - repeat (constructor; try reflexivity).
  - reflexivity.
  - reflexivity.
Defined.

Lemma segments_of_metadata (meta : Segment) (knots : list (datetime * Coord)) :
  Forall (same_metadata meta) (segments_of meta knots)
  /\ contiguous_rows (segments_of meta knots).
Proof.
  induction knots as [|k1 rest [IHm IHc]]; [split; [constructor | exact I]|].
  destruct rest as [|k2 rest]; [split; [constructor | exact I]|].
  rewrite segments_of_cons2. split.
  - constructor; [|exact IHm].
    destruct k1 as [t1 [[x1 y1] z1]], k2 as [t2 [[x2 y2] z2]].
    repeat split.
  - destruct rest as [|k3 rest]; [exact I|].
    rewrite segments_of_cons2 in IHc |- *.
    cbn [contiguous_rows]. split; [|split].
    + destruct (segment_between_ends meta k1 k2) as [_ [-> _]].
      destruct (segment_between_ends meta k2 k3) as [-> _]. reflexivity.
    + destruct (segment_between_ends meta k1 k2) as [_ [_ [_ ->]]].
      destruct (segment_between_ends meta k2 k3) as [_ [_ [-> _]]]. reflexivity.
    + exact IHc.
Qed.

Lemma Ok_inj {A} (x y : A) : Ok x = Ok y -> x = y.
Proof. intros H. now injection H. Qed.

(** X8. What [between] returns is one flight again: every segment carries
    the identifier, callsign, origin, destination and aircraft of the first
    segment of the flight that was cut, and each segment starts where and
    when the one before it ends.  This holds for every flight, ordered in
    time or not. *)
Theorem X8_between_keeps_metadata_and_joins_segments
        (f g : Flight.t) (t0 : datetime) (after : time_or_delta) :
  Flight.between f t0 after = Ok g ->
  exists meta,
    iloc0 (Flight.data f) = Ok meta
    /\ Forall (same_metadata meta) (Flight.data g)
    /\ contiguous_rows (Flight.data g).
Proof.
  intros Hg.
  destruct (Flight.data f) as [|r rows] eqn:Hdata.
  - exfalso. unfold Flight.between, Flight.times in Hg. rewrite Hdata in Hg.
    discriminate Hg.
  - assert (Hne : Flight.data f <> []) by congruence.
    destruct (flight_shape f Hne) as [K [Hlen [Ht Hc]]].
    destruct K as [|k K]; [cbn in Hlen; lia|].
    destruct (last_error_cons_some (fst k) (map fst K)) as [last_ Hlast].
    rewrite between_resolved in Hg.
    rewrite (between_knots f (k :: K) t0 (resolve_after t0 after) (fst k) last_ r
                           Ht Hc eq_refl Hlast) in Hg
      by (rewrite Hdata; reflexivity).
    exists r. split; [reflexivity|].
    destruct (t0 >? fst k)%Z; [destruct (Flight.at_ f t0); [|discriminate]|];
      cbv beta iota delta [bind] in Hg;
      (destruct (resolve_after t0 after <? last_)%Z;
       [destruct (Flight.at_ f (resolve_after t0 after)); [|discriminate]|]);
      cbv beta iota delta [bind] in Hg; apply Ok_inj in Hg; subst g;
      apply segments_of_metadata.
Qed.

Lemma X8_witness :
  exists g meta,
    Flight.between Sample.single 2%Z (Time 7%Z) = Ok g
    /\ iloc0 (Flight.data Sample.single) = Ok meta
    /\ Forall (same_metadata meta) (Flight.data g)
    /\ contiguous_rows (Flight.data g).
Proof.
  destruct (Flight.between Sample.single 2%Z (Time 7%Z)) as [g|e] eqn:E.
  - destruct (X8_between_keeps_metadata_and_joins_segments
                Sample.single g 2%Z (Time 7%Z) E) as [meta H].
    exists g, meta. split; [reflexivity | exact H].
  - vm_compute in E. discriminate E.
Defined.

(** ** Filtering a table *)

Lemma incl_len (df' df : DataFrame) :
  incl df' df -> (SO6.len (SO6.mk df') <= SO6.len (SO6.mk df))%nat.
Proof.
  intros Hincl. unfold SO6.len, SO6.flight_ids, set_Z. cbn [SO6.data].
  apply NoDup_incl_length; [apply NoDup_nodup|].
  intros i Hi. rewrite nodup_In in *. apply in_map_iff in Hi.
  destruct Hi as [r [<- Hr]]. apply in_map. now apply Hincl.
Qed.

Lemma incl_groupby_filter (df : DataFrame) (f : DataFrame -> bool) :
  incl (groupby_filter df f) df.
Proof. unfold groupby_filter. apply incl_filter. Qed.

(** X9. Filtering only removes: every segment of the table returned by
    [at], [between], [intersects], [inside_bbox] or [select] is a segment
    of the table it was called on, and the table returned has at most as
    many flights. *)
Theorem X9_filters_only_remove {G : Shapely} (s : SO6.t) :
  let smaller (s' : SO6.t) :=
    incl (SO6.data s') (SO6.data s) /\ (SO6.len s' <= SO6.len s)%nat in
  (forall time, smaller (SO6.at_ s time))
  /\ (forall before after, smaller (SO6.between s before after))
  /\ (forall sector, smaller (SO6.intersects s sector))
  /\ (forall b, smaller (SO6.inside_bbox s b))
  /\ (forall query, smaller (SO6.select s query)).
Proof.
  intros smaller.
  assert (H : forall df', incl df' (SO6.data s) -> smaller (SO6.mk df')).
  { intros df' Hincl. split; [exact Hincl|].
    destruct s as [df]. now apply incl_len. }
  repeat split; intros; apply H;
    try apply incl_filter; apply incl_groupby_filter.
Qed.

(** X10. The window of [between] can only be widened: a window that
    contains another keeps all the segments the other keeps, and a window
    that contains the time [t] keeps all the segments that [at(t)]
    keeps. *)
Theorem X10_wider_window_keeps_more (s : SO6.t) (a b a' b' t : datetime) :
  ((a' <= a)%Z -> (b <= b')%Z ->
   incl (SO6.data (SO6.between s a (Time b)))
        (SO6.data (SO6.between s a' (Time b'))))
  /\ ((a <= t <= b)%Z ->
      incl (SO6.data (SO6.at_ s t)) (SO6.data (SO6.between s a (Time b)))).
Proof.
  split.
  - intros Ha Hb r Hr. apply in_between_iff in Hr. apply in_between_iff.
    cbn [resolve_after] in *. intuition lia.
  - intros Ht r Hr. apply in_at_iff in Hr. apply in_between_iff.
    cbn [resolve_after]. intuition lia.
Qed.

Lemma X10_witness :
  incl (SO6.data (SO6.between Sample.table 4%Z (Time 6%Z)))
       (SO6.data (SO6.between Sample.table 0%Z (Time 10%Z)))
  /\ incl (SO6.data (SO6.at_ Sample.table 5%Z))
          (SO6.data (SO6.between Sample.table 4%Z (Time 6%Z))).
Proof.
  destruct (X10_wider_window_keeps_more Sample.table 4%Z 6%Z 0%Z 10%Z 5%Z)
    as [H1 H2].
  split; [apply H1; discriminate | apply H2; split; discriminate].
Defined.

Lemma filter_all {A} (p : A -> bool) (l : list A) :
  (forall x, In x l -> p x = true) -> filter p l = l.
Proof.
  induction l as [|x l IH]; intros H; [reflexivity|]. cbn.
  rewrite (H x) by now left. f_equal. apply IH. intros y Hy. apply H. now right.
Qed.

Lemma filter_filter_implied {A} (p q : A -> bool) (l : list A) :
  (forall x, In x l -> p x = true -> q x = true) ->
  filter p (filter q l) = filter p l.
Proof.
  induction l as [|x l IH]; intros H; [reflexivity|]. cbn [filter].
  assert (IH' : filter p (filter q l) = filter p l)
    by (apply IH; intros y Hy; apply H; now right).
  destruct (p x) eqn:Hp.
  - rewrite (H x (or_introl eq_refl) Hp). cbn [filter]. rewrite Hp.
    now rewrite IH'.
  - destruct (q x); [cbn [filter]; rewrite Hp|]; exact IH'.
Qed.

Lemma get_group_of_kept (df : DataFrame) (f : DataFrame -> bool) (i : Z) :
  f (get_group df i) = true ->
  get_group (groupby_filter df f) i = get_group df i.
Proof.
  intros Hkeep. unfold get_group in *. unfold groupby_filter.
  apply filter_filter_implied. intros r _ Hr.
  apply Z.eqb_eq in Hr. unfold get_group. now rewrite Hr.
Qed.

Lemma groupby_filter_idempotent (df : DataFrame) (f : DataFrame -> bool) :
  groupby_filter (groupby_filter df f) f = groupby_filter df f.
Proof.
  unfold groupby_filter at 1. apply filter_all. intros r Hr.
  apply in_groupby_filter in Hr. destruct Hr as [_ Hkeep].
  now rewrite get_group_of_kept.
Qed.

(** X11. [intersects] works flight by flight: a segment is kept exactly
    when the whole flight it belongs to crosses the sector, so a flight is
    kept in full or not at all; each flight of the result is a flight of
    the table, unchanged; and filtering the result again with the same
    sector changes nothing. *)
Theorem X11_intersects_keeps_whole_flights {G : Shapely}
        (s : SO6.t) (sector : Airac.Sector) :
  (forall r,
      In r (SO6.data (SO6.intersects s sector))
      <-> In r (SO6.data s)
          /\ Flight.intersects
               (Flight.mk (get_group (SO6.data s) (flight_id r))) sector = true)
  /\ (forall r r',
         In r (SO6.data (SO6.intersects s sector)) ->
         In r' (SO6.data s) -> flight_id r' = flight_id r ->
         In r' (SO6.data (SO6.intersects s sector)))
  /\ (forall i fl,
         SO6_getitem_int (SO6.intersects s sector) i = Some fl ->
         SO6_getitem_int s i = Some fl /\ Flight.intersects fl sector = true)
  /\ SO6.intersects (SO6.intersects s sector) sector = SO6.intersects s sector.
Proof.
  set (keep := fun flight => Flight.intersects (Flight.mk flight) sector).
  assert (Hin : forall r,
             In r (SO6.data (SO6.intersects s sector))
             <-> In r (SO6.data s)
                 /\ keep (get_group (SO6.data s) (flight_id r)) = true)
    by (intros r; apply in_groupby_filter).
  split; [exact Hin|]. split; [|split].
  - intros r r' Hr Hr' Hid. apply Hin. apply Hin in Hr.
    rewrite Hid. tauto.
  - intros i fl Hfl. unfold SO6_getitem_int in *.
    cbn [SO6.intersects SO6.data] in Hfl. fold keep in Hfl.
    destruct (get_group (groupby_filter (SO6.data s) keep) i)
      as [|r rows] eqn:Hgroup; [discriminate|].
    injection Hfl as <-.
    assert (Hr : In r (groupby_filter (SO6.data s) keep) /\ flight_id r = i).
    { assert (H : In r (get_group (groupby_filter (SO6.data s) keep) i))
        by (rewrite Hgroup; now left).
      unfold get_group in H. apply filter_In in H.
      destruct H as [H Hi]. apply Z.eqb_eq in Hi. tauto. }
    destruct Hr as [Hr Hi]. apply in_groupby_filter in Hr.
    destruct Hr as [_ Hkeep]. rewrite Hi in Hkeep.
    rewrite (get_group_of_kept _ _ _ Hkeep) in Hgroup.
    rewrite Hgroup in *. split; [reflexivity | exact Hkeep].
  - unfold SO6.intersects. cbn [SO6.data]. f_equal.
    apply groupby_filter_idempotent.
Qed.

Lemma in_select_iff (s : SO6.t) (names : list string) (r : Segment) :
  In r (SO6.data (SO6.select_callsigns s names))
  <-> In r (SO6.data s) /\ In (callsign r) names.
Proof.
  unfold SO6.select_callsigns. cbn [SO6.data]. rewrite filter_In.
  destruct (in_dec string_dec (callsign r) names); intuition discriminate.
Qed.

(** X12. [select] keeps exactly the segments whose callsign is asked for;
    the callsigns of the result are among those asked for; selecting
    twice is selecting once; and a table selects the whole of itself. *)
Theorem X12_select_by_callsign (s : SO6.t) (names : list string) :
  (forall r, In r (SO6.data (SO6.select s (SO6.OfCallsigns names)))
             <-> In r (SO6.data s) /\ In (callsign r) names)
  /\ incl (SO6.callsigns (SO6.select s (SO6.OfCallsigns names))) names
  /\ SO6.select (SO6.select s (SO6.OfCallsigns names)) (SO6.OfCallsigns names)
     = SO6.select s (SO6.OfCallsigns names)
  /\ SO6.select s (SO6.OfSO6 s) = s.
Proof.
  split; [intros r; apply in_select_iff|]. split; [|split].
  - intros c Hc. unfold SO6.callsigns, set_str in Hc.
    rewrite nodup_In, in_map_iff in Hc. destruct Hc as [r [<- Hr]].
    now apply in_select_iff in Hr.
  - unfold SO6.select, SO6.select_callsigns. cbn [SO6.data]. f_equal.
    apply filter_all. intros r Hr. apply filter_In in Hr. tauto.
  - destruct s as [df]. unfold SO6.select, SO6.select_callsigns.
    cbn [SO6.data]. f_equal. apply filter_all. intros r Hr.
    destruct (in_dec string_dec _ _) as [|Hn]; [reflexivity|].
    exfalso. apply Hn. unfold SO6.callsigns, set_str. cbn [SO6.data].
    rewrite nodup_In. now apply in_map.
Qed.

(** ** Looking flights up *)

Lemma in_get_group (df : DataFrame) (i : Z) (r : Segment) :
  In r (get_group df i) <-> In r df /\ flight_id r = i.
Proof. unfold get_group. rewrite filter_In, Z.eqb_eq. tauto. Qed.

(** X13. [s[i]] for an identifier [i]: when some segment of the table
    carries [i], the flight returned is made of exactly the segments that
    carry it, in the order of the table, it is not empty and its own
    identifier is [i]; when no segment carries [i] the lookup fails
    ([KeyError]).  [s[c]] for a callsign [c] gathers likewise all the
    segments with that callsign, whatever their flight identifiers. *)
Theorem X13_getitem (s : SO6.t) :
  (forall i,
      (In i (SO6.flight_ids s) ->
       exists fl,
         SO6_getitem_int s i = Some fl
         /\ Flight.data fl = filter (fun r => (flight_id r =? i)%Z) (SO6.data s)
         /\ Flight.data fl <> []
         /\ Flight.flight_id fl = Ok i)
      /\ (~ In i (SO6.flight_ids s) -> SO6_getitem_int s i = None))
  /\ (forall c,
         (In c (SO6.callsigns s) ->
          exists fl,
            SO6_getitem_str s c = Some fl
            /\ Flight.data fl <> []
            /\ forall r, In r (Flight.data fl)
                         <-> In r (SO6.data s) /\ callsign r = c)
         /\ (~ In c (SO6.callsigns s) -> SO6_getitem_str s c = None)).
Proof.
  split.
  - intros i. unfold SO6_getitem_int, SO6.flight_ids, set_Z.
    rewrite nodup_In, in_map_iff. split.
    + intros [r [Hid Hr]].
      assert (Hin : In r (get_group (SO6.data s) i))
        by (apply in_get_group; tauto).
      destruct (get_group (SO6.data s) i) as [|r0 rows] eqn:Hg;
        [destruct Hin|].
      eexists. split; [reflexivity|]. cbn [Flight.data].
      split; [symmetry; exact Hg|]. split; [discriminate|].
      unfold Flight.flight_id. cbn [Flight.data iloc0 bind]. f_equal.
      assert (H0 : In r0 (get_group (SO6.data s) i))
        by (rewrite Hg; now left).
      apply in_get_group in H0. tauto.
    + intros Hnone.
      destruct (get_group (SO6.data s) i) as [|r0 rows] eqn:Hg;
        [reflexivity|].
      exfalso. apply Hnone. exists r0.
      assert (H0 : In r0 (get_group (SO6.data s) i))
        by (rewrite Hg; now left).
      apply in_get_group in H0. tauto.
  - intros c. unfold SO6_getitem_str, SO6.callsigns, set_str.
    rewrite nodup_In, in_map_iff.
    assert (Hin : forall r,
               In r (filter (fun r => String.eqb (callsign r) c) (SO6.data s))
               <-> In r (SO6.data s) /\ callsign r = c)
      by (intros r; rewrite filter_In, String.eqb_eq; tauto).
    split.
    + intros [r [Hc Hr]].
      destruct (filter _ (SO6.data s)) as [|r0 rows] eqn:Hg.
      * exfalso. apply (proj2 (Hin r)). tauto.
      * eexists. split; [reflexivity|]. cbn [Flight.data].
        split; [discriminate | exact Hin].
    + intros Hnone.
      destruct (filter _ (SO6.data s)) as [|r0 rows] eqn:Hg; [reflexivity|].
      exfalso. apply Hnone. exists r0.
      assert (H0 : In r0 (r0 :: rows)) by now left.
      apply Hin in H0. tauto.
Qed.

Lemma insert_id_in (x z : Z) (l : list Z) :
  In z (insert_id x l) <-> z = x \/ In z l.
Proof.
  induction l as [|y l IH]; cbn.
  - intuition.
  - destruct (Z.ltb_spec x y); [cbn; intuition|].
    destruct (Z.ltb_spec y x); [cbn; rewrite IH; intuition|].
    assert (x = y) by lia. subst. cbn. intuition.
Qed.

Lemma insert_id_sorted (x : Z) (l : list Z) :
  StronglySorted Z.lt l -> StronglySorted Z.lt (insert_id x l).
Proof.
  induction 1 as [|y l Hl IH Hy]; cbn.
  - constructor; constructor.
  - destruct (Z.ltb_spec x y).
    + constructor; [now constructor|]. constructor; [assumption|].
      eapply Forall_impl; [|exact Hy]. cbn. lia.
    + destruct (Z.ltb_spec y x); [|now constructor].
      constructor; [exact IH|]. apply Forall_forall. intros z Hz.
      apply insert_id_in in Hz. destruct Hz as [->|Hz]; [assumption|].
      rewrite Forall_forall in Hy. now apply Hy.
Qed.

Lemma group_keys_spec (df : DataFrame) :
  StronglySorted Z.lt (group_keys df)
  /\ forall i, In i (group_keys df) <-> In i (map flight_id df).
Proof.
  unfold group_keys. induction (map flight_id df) as [|x l [IHs IHi]]; cbn.
  - split; [constructor | tauto].
  - split; [now apply insert_id_sorted|].
    intros i. rewrite insert_id_in, IHi. intuition.
Qed.

Lemma sorted_lt_nodup (l : list Z) : StronglySorted Z.lt l -> NoDup l.
Proof.
  induction 1 as [|x l Hl IH Hx]; constructor; [|exact IH].
  intros Hin. rewrite Forall_forall in Hx. specialize (Hx x Hin). lia.
Qed.

(** X14. Iterating over a table yields its flights, one for each flight
    identifier, in ascending order of the identifiers: as many as
    [len(s)]; the flight yielded with [i] is [s[i]]; and every segment of
    the table is in the flight yielded with its identifier. *)
Theorem X14_iteration_yields_each_flight_once (s : SO6.t) :
  StronglySorted Z.lt (map fst (SO6_iter s))
  /\ length (SO6_iter s) = SO6.len s
  /\ (forall i fl, In (i, fl) (SO6_iter s) <-> SO6_getitem_int s i = Some fl)
  /\ (forall r, In r (SO6.data s) ->
                exists fl, In (flight_id r, fl) (SO6_iter s)
                           /\ In r (Flight.data fl)).
Proof.
  destruct (group_keys_spec (SO6.data s)) as [Hsorted Hkeys].
  assert (Hfst : map fst (SO6_iter s) = group_keys (SO6.data s)).
  { unfold SO6_iter. rewrite map_map. cbn [fst]. apply map_id. }
  assert (Hiter : forall i fl,
             In (i, fl) (SO6_iter s)
             <-> In i (group_keys (SO6.data s))
                 /\ fl = Flight.mk (get_group (SO6.data s) i)).
  { intros i fl. unfold SO6_iter. rewrite in_map_iff. split.
    - intros [j [E Hj]]. injection E as -> <-. tauto.
    - intros [Hi ->]. exists i. tauto. }
  split; [now rewrite Hfst|]. split; [|split].
  - rewrite <- (length_map fst), Hfst.
    unfold SO6.len, SO6.flight_ids, set_Z.
    apply Permutation_length, NoDup_Permutation.
    + now apply sorted_lt_nodup.
    + apply NoDup_nodup.
    + intros i. rewrite nodup_In. apply Hkeys.
  - intros i fl. rewrite Hiter, Hkeys. unfold SO6_getitem_int. split.
    + intros [Hi ->]. apply in_map_iff in Hi. destruct Hi as [r [Hid Hr]].
      assert (H : In r (get_group (SO6.data s) i))
        by (apply in_get_group; tauto).
      destruct (get_group (SO6.data s) i); [destruct H | reflexivity].
    + intros H.
      destruct (get_group (SO6.data s) i) as [|r rows] eqn:Hg;
        [discriminate|].
      injection H as <-. split; [|reflexivity].
      assert (H : In r (get_group (SO6.data s) i)) by (rewrite Hg; now left).
      apply in_get_group in H. destruct H as [H <-]. now apply in_map.
  - intros r Hr. exists (Flight.mk (get_group (SO6.data s) (flight_id r))).
    split.
    + apply Hiter. split; [|reflexivity]. apply Hkeys. now apply in_map.
    + cbn [Flight.data]. apply in_get_group. tauto.
Qed.

(** X15. [s.get(c)] yields one flight for each flight identifier that has a
    segment with the callsign [c], in ascending order of the identifiers
    and each identifier once; the flight yielded with [i] is made of the
    segments that carry both [c] and [i], in the order of the table, so it
    is a part of [s[i]] and may be smaller.  When no segment has the
    callsign, the call fails ([KeyError]). *)
Theorem X15_get_groups_a_callsign_by_flight (s : SO6.t) (c : string) :
  (~ In c (SO6.callsigns s) <-> SO6_get s c = None)
  /\ forall flights,
      SO6_get s c = Some flights ->
      StronglySorted Z.lt (map fst flights)
      /\ (forall i fl,
             In (i, fl) flights
             <-> (exists r, In r (SO6.data s) /\ callsign r = c /\ flight_id r = i)
                 /\ fl = Flight.mk (filter (fun r => String.eqb (callsign r) c
                                                     && (flight_id r =? i)%Z)
                                           (SO6.data s)))
      /\ (forall i fl whole,
             In (i, fl) flights -> SO6_getitem_int s i = Some whole ->
             incl (Flight.data fl) (Flight.data whole)).
Proof.
  unfold SO6_get, SO6.callsigns, set_str.
  rewrite nodup_In, in_map_iff.
  assert (Hin : forall r,
             In r (filter (fun r => String.eqb (callsign r) c) (SO6.data s))
             <-> In r (SO6.data s) /\ callsign r = c)
    by (intros r; rewrite filter_In, String.eqb_eq; tauto).
  assert (Hgroup : forall i,
             get_group (filter (fun r => String.eqb (callsign r) c) (SO6.data s)) i
             = filter (fun r => String.eqb (callsign r) c && (flight_id r =? i)%Z)
                      (SO6.data s)).
  { clear Hin. intros i. unfold get_group.
    induction (SO6.data s) as [|r rows IH]; [reflexivity|].
    cbn [filter]. destruct (String.eqb (callsign r) c); cbn [filter andb];
      rewrite IH; reflexivity. }
  destruct (filter (fun r => String.eqb (callsign r) c) (SO6.data s))
    as [|r0 rows] eqn:Hg.
  - split.
    + split; [reflexivity|]. intros _ [r [Hc Hr]].
      apply (proj2 (Hin r)). tauto.
    + intros flights H. discriminate.
  - split.
    + split; [|discriminate]. intros Hnone. exfalso. apply Hnone.
      exists r0. assert (H0 : In r0 (r0 :: rows)) by now left.
      apply Hin in H0. tauto.
    + intros flights H. injection H as <-.
      destruct (group_keys_spec (r0 :: rows)) as [Hsorted Hkeys].
      assert (Hiter : forall i fl,
                 In (i, fl)
                    (map (fun flight_id =>
                            (flight_id, Flight.mk (get_group (r0 :: rows) flight_id)))
                         (group_keys (r0 :: rows)))
                 <-> (exists r, In r (SO6.data s) /\ callsign r = c
                                /\ flight_id r = i)
                     /\ fl = Flight.mk
                               (filter (fun r => String.eqb (callsign r) c
                                                 && (flight_id r =? i)%Z)
                                       (SO6.data s))).
      { intros i fl. rewrite in_map_iff. split.
        - intros [j [E Hj]]. injection E as -> <-.
          apply Hkeys in Hj. apply in_map_iff in Hj.
          destruct Hj as [r [Hid Hr]]. apply Hin in Hr.
          split; [exists r; tauto|]. now rewrite <- Hgroup.
        - intros [[r [Hr [Hc Hid]]] ->]. exists i. split.
          + now rewrite Hgroup.
          + apply Hkeys. apply in_map_iff. exists r. split; [exact Hid|].
            apply Hin. tauto. }
      split; [|split].
      * rewrite map_map. cbn [fst]. now rewrite map_id.
      * exact Hiter.
      * intros i fl whole Hfl Hwhole. apply Hiter in Hfl.
        destruct Hfl as [_ ->]. unfold SO6_getitem_int in Hwhole.
        assert (Hdata : Flight.data whole = get_group (SO6.data s) i).
        { destruct (get_group (SO6.data s) i); [discriminate|].
          now injection Hwhole as <-. }
        rewrite Hdata. cbn [Flight.data]. intros r Hr.
        apply filter_In in Hr. destruct Hr as [Hr Hb].
        apply andb_true_iff in Hb. destruct Hb as [_ Hb].
        apply in_get_group. apply Z.eqb_eq in Hb. tauto.
Qed.

(** ** Slicing bands whose limits are missing *)

Lemma numeric_bands_none_iff {G : Shapely} (polyalt : list Airac.PolyAlt) :
  Airac.numeric_bands polyalt = None <-> In None (Airac.altitudes polyalt).
Proof.
  induction polyalt as [|[[p low] up] rest IH]; cbn.
  - split; [discriminate | tauto].
  - destruct low as [low|], up as [up|];
      try (split; [intros _; tauto | reflexivity]).
    destruct (Airac.numeric_bands rest).
    + split; [discriminate|]. intros [H|[H|H]]; try discriminate.
      apply IH in H. discriminate.
    + split; [|reflexivity]. intros _. right. right. now apply IH.
Qed.

(** X16. Sorting the limits fails on a mix: [cascaded_union_with_alt]
    raises [TypeError] exactly when its bands mix limits that are numbers
    with limits that are [None]. *)
Theorem X16_mixed_limits_raise_TypeError {G : Shapely}
        (polyalt : list Airac.PolyAlt) :
  Airac.cascaded_union_with_alt polyalt = Raise TypeError
  <-> In None (Airac.altitudes polyalt)
      /\ exists alt, In (Some alt) (Airac.altitudes polyalt).
Proof.
  unfold Airac.cascaded_union_with_alt.
  destruct (negb (is_nil (Airac.altitudes polyalt))
            && forallb Airac.is_None (Airac.altitudes polyalt)) eqn:Hall.
  - split; [discriminate|].
    intros [_ [alt Halt]]. apply andb_true_iff in Hall.
    destruct Hall as [_ Hall]. rewrite forallb_forall in Hall.
    specialize (Hall _ Halt). discriminate.
  - destruct (Airac.numeric_bands polyalt) as [bands|] eqn:Hbands.
    + split; [discriminate|].
      intros [Hnone _]. apply numeric_bands_none_iff in Hnone. congruence.
    + split; [|reflexivity]. intros _.
      apply numeric_bands_none_iff in Hbands. split; [exact Hbands|].
      destruct (Airac.altitudes polyalt) as [|a alts]; [destruct Hbands|].
      cbn [is_nil negb andb] in Hall.
      destruct (forallb_forall Airac.is_None (a :: alts)) as [_ Hforall].
      destruct (existsb (fun o => negb (Airac.is_None o)) (a :: alts)) eqn:Hex.
      * apply existsb_exists in Hex. destruct Hex as [[alt|] [Hin Hsome]];
          [now exists alt | discriminate].
      * exfalso. rewrite Hforall in Hall; [discriminate|].
        intros o Ho. destruct (Airac.is_None o) eqn:Ho'; [reflexivity|].
        assert (Hyes : existsb (fun o => negb (Airac.is_None o)) (a :: alts) = true)
          by (apply existsb_exists; exists o; now rewrite Ho').
        congruence.
Qed.

(** ** The slices stack *)

Lemma stacked_snoc {G : Shapely} (l : Airac.SectorList) (x : Airac.ExtrudedPolygon) :
  stacked (l ++ [x]) <-> stacked l /\ ends_at (Airac.lower x) l.
Proof.
  induction l as [|a l IH].
  - cbn. tauto.
  - destruct l as [|b l].
    + cbn. tauto.
    + change (Airac.upper a = Airac.lower b /\ stacked ((b :: l) ++ [x])
              <-> (Airac.upper a = Airac.lower b /\ stacked (b :: l))
                  /\ ends_at (Airac.lower x) (b :: l)).
      rewrite IH. tauto.
Qed.

Lemma starts_at_snoc {G : Shapely} (cur : pyfloat) (l : Airac.SectorList)
      (x y : Airac.ExtrudedPolygon) :
  Airac.lower x = Airac.lower y ->
  starts_at cur (l ++ [x]) -> starts_at cur (l ++ [y]).
Proof. destruct l; cbn; congruence. Qed.

Lemma sorted_set_in (z : pyfloat) (xs : list pyfloat) :
  In z (Airac.sorted_set xs) -> In z xs.
Proof.
  induction xs as [|x xs IH]; cbn; [tauto|].
  intros H. apply insert_sorted_in in H. intuition.
Qed.

Lemma slice_step_stacked {G : Shapely}
      (bands : list (Polygon * pyfloat * pyfloat)) (S : list pyfloat)
      (results : Airac.SectorList) (low up : pyfloat) :
  In low S -> In up S ->
  stacked results -> ends_at low results ->
  Forall (fun b => In (Airac.lower b) S /\ In (Airac.upper b) S) results ->
  let results' := Airac.slice_step bands results (low, up) in
  stacked results' /\ ends_at up results'
  /\ Forall (fun b => In (Airac.lower b) S /\ In (Airac.upper b) S) results'
  /\ results' <> []
  /\ (results = [] -> starts_at low results')
  /\ (forall x, results <> [] -> starts_at x results -> starts_at x results').
Proof.
  intros Hlow Hup Hst Hend Hin.
  assert (Happend :
            forall new_poly,
              Airac.lower new_poly = low -> Airac.upper new_poly = up ->
              let results' := results ++ [new_poly] in
              stacked results' /\ ends_at up results'
              /\ Forall (fun b => In (Airac.lower b) S /\ In (Airac.upper b) S)
                        results'
              /\ results' <> []
              /\ (results = [] -> starts_at low results')
              /\ (forall x, results <> [] -> starts_at x results ->
                            starts_at x results')).
  { intros new_poly Hlo Hhi. cbv zeta. split; [|split; [|split; [|split; [|split]]]].
    - apply stacked_snoc. rewrite Hlo. tauto.
    - unfold ends_at. now rewrite last_error_snoc.
    - apply Forall_app. split; [exact Hin|].
      constructor; [|constructor]. now rewrite Hlo, Hhi.
    - destruct results; discriminate.
    - intros ->. exact Hlo.
    - intros x Hne. destruct results; [congruence | trivial]. }
  unfold Airac.slice_step.
  destruct (last_error results) as [prev|] eqn:Hlast; [|now apply Happend].
  destruct (equals _ _); [|now apply Happend].
  cbn [Airac.polygon]. cbv zeta.
  pose proof (last_error_split _ _ Hlast) as Hsplit.
  rewrite Hsplit in Hst, Hin.
  apply stacked_snoc in Hst. destruct Hst as [Hst Hprev].
  apply Forall_app in Hin. destruct Hin as [Hin Hp].
  apply Forall_inv in Hp. destruct Hp as [Hp _].
  split; [|split; [|split; [|split; [|split]]]].
  - apply stacked_snoc. split; [exact Hst | exact Hprev].
  - unfold ends_at. now rewrite last_error_snoc.
  - apply Forall_app. split; [exact Hin|].
    constructor; [|constructor]. cbn [Airac.lower Airac.upper]. tauto.
  - destruct (removelast results); discriminate.
  - intros ->. discriminate.
  - intros x _ Hx. rewrite Hsplit in Hx.
    eapply starts_at_snoc; [|exact Hx]. reflexivity.
Qed.

Lemma last_cons {A} (l : list A) (x d : A) : last (x :: l) d = last l x.
Proof.
  revert x d. induction l as [|y l IH]; intros x d; [reflexivity|].
  change (last (y :: l) d = last (y :: l) x). now rewrite !IH.
Qed.

Lemma fold_slices_stacked {G : Shapely}
      (bands : list (Polygon * pyfloat * pyfloat)) (S : list pyfloat)
      (pairs : list (pyfloat * pyfloat)) :
  forall (results : Airac.SectorList) (cur : pyfloat),
    chained cur pairs ->
    Forall (fun low_up => In (fst low_up) S /\ In (snd low_up) S) pairs ->
    stacked results -> ends_at cur results ->
    Forall (fun b => In (Airac.lower b) S /\ In (Airac.upper b) S) results ->
    let out := fold_left (Airac.slice_step bands) pairs results in
    stacked out /\ ends_at (last (map snd pairs) cur) out
    /\ Forall (fun b => In (Airac.lower b) S /\ In (Airac.upper b) S) out
    /\ (pairs <> [] -> out <> [])
    /\ (results = [] -> starts_at cur out).
Proof.
  induction pairs as [|[low up] pairs IH]; intros results cur Hch HS Hst Hend Hin.
  - cbn. split; [|split; [|split; [|split]]]; try assumption.
    + congruence.
    + now intros ->.
  - cbn [fold_left]. destruct Hch as [<- [Hlt Hch]].
    inversion HS as [|? ? [Hlow Hup] HS']; subst. cbn [fst snd] in Hlow, Hup.
    destruct (slice_step_stacked bands S results low up Hlow Hup Hst Hend Hin)
      as [Hst' [Hend' [Hin' [Hne' [Hstart' Hkeep']]]]].
    destruct (IH _ _ Hch HS' Hst' Hend' Hin')
      as [Hst'' [Hend'' [Hin'' [_ _]]]].
    cbv zeta. split; [|split; [|split; [|split]]]; try assumption.
    + replace (last (map snd ((low, up) :: pairs)) low)
        with (last (map snd pairs) up); [exact Hend''|].
      cbn [map snd]. symmetry. apply last_cons.
    + intros _. clear - Hne'.
      revert Hne'. generalize (Airac.slice_step bands results (low, up)).
      induction pairs as [|[l u] pairs IH]; intros rs Hrs; [exact Hrs|].
      cbn [fold_left]. apply IH. unfold Airac.slice_step.
      destruct (last_error rs); [destruct (equals _ _)|];
        intros E; apply app_eq_nil in E; destruct E; discriminate.
    + intros Hnil. specialize (Hstart' Hnil). clear - Hstart' Hne'.
      revert Hne' Hstart'. generalize (Airac.slice_step bands results (low, up)).
      induction pairs as [|[l u] pairs IH]; intros rs Hrs Hstart; [exact Hstart|].
      cbn [fold_left]. apply IH.
      * unfold Airac.slice_step.
        destruct (last_error rs); [destruct (equals _ _)|];
          intros E; apply app_eq_nil in E; destruct E; discriminate.
      * unfold Airac.slice_step.
        destruct (last_error rs) as [prev|] eqn:Hlast.
        -- destruct (equals _ _).
           ++ pose proof (last_error_split _ _ Hlast) as Hsplit.
              rewrite Hsplit in Hstart.
              eapply starts_at_snoc; [|exact Hstart]. reflexivity.
           ++ destruct rs; [congruence | exact Hstart].
        -- apply last_error_none in Hlast. congruence.
Qed.

Lemma map_snd_combine_tl {A} (l : list A) (x : A) :
  map snd (combine (x :: l) l) = l.
Proof.
  revert x. induction l as [|y l IH]; intros x; [reflexivity|].
  cbn [combine map snd]. f_equal. apply IH.
Qed.

Lemma sorted_first_least (x y : pyfloat) (l : list pyfloat) :
  StronglySorted pyfloat_lt (x :: l) -> In y (x :: l) -> pyfloat_le x y.
Proof.
  intros H [<-|Hy]; [apply pyfloat_le_refl|].
  inversion H as [|? ? _ Hx]; subst. rewrite Forall_forall in Hx.
  apply pyfloat_lt_le. now apply Hx.
Qed.

Lemma sorted_last_greatest (l : list pyfloat) :
  forall x y,
    StronglySorted pyfloat_lt (x :: l) -> In y (x :: l) -> pyfloat_le y (last l x).
Proof.
  induction l as [|z l IH]; intros x y H Hy.
  - destruct Hy as [<-|[]]. apply pyfloat_le_refl.
  - rewrite last_cons. inversion H as [|? ? Hl Hx]; subst.
    destruct Hy as [<-|Hy].
    + apply pyfloat_le_trans with z.
      * apply pyfloat_lt_le. now inversion Hx.
      * apply IH; [exact Hl | now left].
    + now apply IH.
Qed.

Lemma in_altitudes_of_bands {G : Shapely}
      (bands : list (Polygon * pyfloat * pyfloat)) (alt : pyfloat) :
  In (Some alt)
     (Airac.altitudes (map (fun '(p, low, up) => (p, Some low, Some up)) bands))
  <-> In alt (Airac.band_limits bands).
Proof.
  unfold Airac.altitudes, Airac.band_limits.
  induction bands as [|[[p low] up] bands IH]; [tauto|].
  cbn [map flat_map app In]. rewrite IH.
  split; intros [H|[H|H]]; try tauto;
    ((left; congruence) || (right; left; congruence)).
Qed.

Lemma numeric_not_all_None {G : Shapely} (polyalt : list Airac.PolyAlt)
      (bands : list (Polygon * pyfloat * pyfloat)) :
  Airac.numeric_bands polyalt = Some bands ->
  negb (is_nil (Airac.altitudes polyalt))
  && forallb Airac.is_None (Airac.altitudes polyalt) = false.
Proof.
  destruct polyalt as [|[[p [low|]] up] rest]; [reflexivity | reflexivity |].
  discriminate.
Qed.

(** X17. When every limit given is a number, the slices returned stack
    without a gap from the lowest limit to the highest: each slice starts
    at the altitude where the slice before it ends, every limit of a slice
    is one of the limits given, the first slice starts at or under every
    limit given and the last one ends at or over it.  No slice is returned
    exactly when all the limits given are equal. *)
Theorem X17_slices_stack_from_lowest_to_highest {G : Shapely}
        (polyalt : list Airac.PolyAlt) :
  Forall (fun '(_, low, up) => low <> None /\ up <> None) polyalt ->
  exists out,
    Airac.cascaded_union_with_alt polyalt = Ok out
    /\ stacked out
    /\ (forall b, In b out ->
                  In (Some (Airac.lower b)) (Airac.altitudes polyalt)
                  /\ In (Some (Airac.upper b)) (Airac.altitudes polyalt))
    /\ (forall first final alt,
           hd_error out = Some first -> last_error out = Some final ->
           In (Some alt) (Airac.altitudes polyalt) ->
           pyfloat_le (Airac.lower first) alt
           /\ pyfloat_le alt (Airac.upper final))
    /\ (out = []
        <-> forall a b, In (Some a) (Airac.altitudes polyalt) ->
                        In (Some b) (Airac.altitudes polyalt) ->
                        pyfloat_same a b).
Proof.
  intros Hnum. destruct (numeric_bands_some _ Hnum) as [bands Hbands].
  unfold Airac.cascaded_union_with_alt.
  rewrite (numeric_not_all_None _ _ Hbands), Hbands.
  rewrite (numeric_bands_map _ _ Hbands).
  eexists. split; [reflexivity|].
  assert (Hrep : forall alt,
             In (Some alt)
                (Airac.altitudes
                   (map (fun '(p, low, up) => (p, Some low, Some up)) bands)) ->
             exists y, In y (Airac.sorted_set (Airac.band_limits bands))
                       /\ pyfloat_same alt y).
  { intros alt Halt. apply in_altitudes_of_bands in Halt.
    now apply sorted_set_holds. }
  assert (Hback : forall z,
             In z (Airac.sorted_set (Airac.band_limits bands)) ->
             In (Some z)
                (Airac.altitudes
                   (map (fun '(p, low, up) => (p, Some low, Some up)) bands))).
  { intros z Hz. apply in_altitudes_of_bands. now apply sorted_set_in. }
  pose proof (sorted_set_sorted (Airac.band_limits bands)) as Hsorted.
  destruct (Airac.sorted_set (Airac.band_limits bands)) as [|x l] eqn:Hs.
  - cbn. split; [exact I|]. split; [tauto|]. split; [discriminate|].
    split; [|reflexivity]. intros _ a b Ha _.
    destruct (Hrep a Ha) as [y [[] _]].
  - cbn [tl].
    assert (HS : Forall (fun low_up => In (fst low_up) (x :: l)
                                       /\ In (snd low_up) (x :: l))
                        (combine (x :: l) l)).
    { apply Forall_forall. intros [a b] Hab. cbn [fst snd]. split.
      - exact (in_combine_l _ _ _ _ Hab).
      - right. exact (in_combine_r _ _ _ _ Hab). }
    destruct (fold_slices_stacked bands (x :: l) (combine (x :: l) l) [] x
                (chained_combine _ _ Hsorted) HS I I (Forall_nil _))
      as [Hst [Hend [Hin [Hne Hstart]]]].
    rewrite map_snd_combine_tl in Hend. specialize (Hstart eq_refl).
    cbv zeta in *.
    set (out := fold_left (Airac.slice_step bands) (combine (x :: l) l) []) in *.
    split; [exact Hst|]. split; [|split].
    + intros b Hb. rewrite Forall_forall in Hin. destruct (Hin b Hb) as [H1 H2].
      split; now apply Hback.
    + intros first final alt Hfirst Hfinal Halt.
      destruct (Hrep alt Halt) as [y [Hy [Hay Hya]]].
      unfold ends_at in Hend. rewrite Hfinal in Hend.
      destruct out as [|b0 out0]; [discriminate|].
      injection Hfirst as ->. cbn [starts_at] in Hstart.
      rewrite Hstart, Hend. split.
      * apply pyfloat_le_trans with y; [|exact Hya].
        exact (sorted_first_least _ _ _ Hsorted Hy).
      * apply pyfloat_le_trans with y; [exact Hay|].
        exact (sorted_last_greatest _ _ _ Hsorted Hy).
    + destruct l as [|y l].
      * split; [|reflexivity]. intros _ a b Ha Hb.
        destruct (Hrep a Ha) as [a' [[<-|[]] [Ha1 Ha2]]].
        destruct (Hrep b Hb) as [b' [[<-|[]] [Hb1 Hb2]]].
        split; eapply pyfloat_le_trans; eassumption.
      * split.
        -- intros Hnil. exfalso. apply Hne; [discriminate | exact Hnil].
        -- intros Hsame. exfalso.
           assert (Hx : In x (x :: y :: l)) by now left.
           assert (Hy : In y (x :: y :: l)) by (right; now left).
           destruct (Hsame x y (Hback _ Hx) (Hback _ Hy)) as [_ Hyx].
           apply Hyx. inversion Hsorted as [|? ? _ Hall]; subst.
           now inversion Hall.
Qed.

Lemma X17_witness :
  exists out,
    Airac.cascaded_union_with_alt two_levels = Ok out
    /\ stacked out
    /\ (forall first final alt,
           hd_error out = Some first -> last_error out = Some final ->
           In (Some alt) (Airac.altitudes two_levels) ->
           pyfloat_le (Airac.lower first) alt
           /\ pyfloat_le alt (Airac.upper final)).
Proof.
  destruct (@X17_slices_stack_from_lowest_to_highest Cells.geometry two_levels)
    as [out [Hrun [Hst [_ [Hspan _]]]]].
  - repeat constructor; discriminate.
  - exists out. split; [exact Hrun|]. split; [exact Hst | exact Hspan].
Defined.

(** ** The faces of an extruded polygon *)

Lemma sequence_Polygon3 (shells : list (list Point3)) :
  Forall (fun shell => (3 <= length shell)%nat) shells ->
  sequence (map Polygon3 shells) = Ok shells.
Proof.
  induction 1 as [|shell shells Hlen _ IH]; [reflexivity|].
  cbn [map sequence]. unfold Polygon3 at 1.
  destruct (Nat.ltb_spec (length shell) 3); [lia|].
  cbn [bind]. rewrite IH. reflexivity.
Qed.

Lemma rows_slice_two {A} (rows : list A) (i j : nat) (a b : A) :
  j = (i + 2)%nat ->
  nth_error rows i = Some a -> nth_error rows (S i) = Some b ->
  rows_slice rows i j = [a; b].
Proof.
  intros -> Ha Hb. unfold rows_slice.
  replace (i + 2 - i)%nat with 2%nat by lia.
  assert (H0 : nth_error (skipn i rows) 0 = Some a)
    by (now rewrite nth_error_skipn, Nat.add_0_r).
  assert (H1 : nth_error (skipn i rows) 1 = Some b)
    by (rewrite nth_error_skipn; now replace (i + 1)%nat with (S i) by lia).
  destruct (skipn i rows) as [|x [|y rest]]; cbn in H0, H1; try discriminate.
  cbn. congruence.
Qed.

Lemma nth_error_combine {A B} (l1 : list A) (l2 : list B) (i : nat) (a : A) (b : B) :
  nth_error l1 i = Some a -> nth_error l2 i = Some b ->
  nth_error (combine l1 l2) i = Some (a, b).
Proof.
  revert l2 i. induction l1 as [|x l1 IH]; intros l2 i Ha Hb.
  - destruct i; discriminate.
  - destruct l2 as [|y l2]; [destruct i; discriminate|].
    destruct i as [|i]; cbn in *; [congruence|]. now apply IH.
Qed.

Lemma nth_error_zip_ranges (n i : nat) :
  (i < n - 1)%nat ->
  nth_error (combine (seq 0 (n - 1)) (range_down_to_2 n)) i = Some (i, (n - i)%nat).
Proof.
  intros Hi. apply nth_error_combine.
  - rewrite nth_error_seq. destruct (Nat.ltb_spec i (n - 1)); [reflexivity | lia].
  - unfold range_down_to_2. rewrite nth_error_rev, length_seq.
    destruct (Nat.ltb_spec i (n - 1)); [|lia].
    rewrite nth_error_seq.
    destruct (Nat.ltb_spec (n - 1 - S i) (n - 1)); [|lia].
    f_equal. lia.
Qed.

Lemma in_zip_ranges (n i j : nat) :
  In (i, j) (combine (seq 0 (n - 1)) (range_down_to_2 n)) ->
  (i + 2 <= n /\ 2 <= j <= n)%nat.
Proof.
  intros H. pose proof (in_combine_l _ _ _ _ H) as Hi.
  pose proof (in_combine_r _ _ _ _ H) as Hj.
  apply in_seq in Hi. unfold range_down_to_2 in Hj.
  apply in_rev in Hj. apply in_seq in Hj. lia.
Qed.

Lemma length_rows_slice {A} (rows : list A) (i j : nat) :
  length (rows_slice rows i j) = Nat.min (j - i) (length rows - i).
Proof. unfold rows_slice. now rewrite length_firstn, length_skipn. Qed.

Lemma hundredths_le (q : Q) : q <= 400 -> (3048 # 100) * q <= 12192.
Proof.
  intros H. setoid_replace 12192 with ((3048 # 100) * 400) by reflexivity.
  apply Qmult_le_l; [reflexivity | exact H].
Qed.

Lemma hundredths_nonneg (q : Q) : 0 <= q -> 0 <= (3048 # 100) * q.
Proof. intros H. apply Qmult_le_0_compat; [discriminate | exact H]. Qed.

(** X18. [decompose] yields the faces of the solid over an extruded
    polygon.  On an empty ring it fails ([ValueError]).  On a ring [c] of
    [n >= 3] points it yields [n + 1] polygons: the ring at the top
    altitude, the ring reversed at the bottom altitude, and a wall for each
    edge of the ring, the wall over the edge from [c[k]] to [c[k+1]] being
    polygon number [n - k], with the two ends of the edge at the bottom
    and then, in the opposite order, at the top.  Altitudes are in
    metres for limits in flight levels: the top is at most 12192 (FL 400)
    and the bottom is never negative. *)
Theorem X18_decompose_yields_the_faces {G : Shapely}
        (exterior_coords : Polygon -> list (Q * Q))
        (extr_p : Airac.ExtrudedPolygon) :
  let c := exterior_coords (Airac.polygon extr_p) in
  let top := pyfloat_scale (3048 # 100)
                           (pyfloat_min (Airac.upper extr_p) (Fin 400)) in
  let bottom := pyfloat_scale (3048 # 100)
                              (pyfloat_max (Fin 0) (Airac.lower extr_p)) in
  (c = [] -> Sector_decompose exterior_coords extr_p = Raise ValueError)
  /\ ((3 <= length c)%nat ->
      exists faces,
        Sector_decompose exterior_coords extr_p = Ok faces
        /\ length faces = S (length c)
        /\ nth_error faces 0 = Some (with_alt top c)
        /\ nth_error faces 1 = Some (rev (with_alt bottom c))
        /\ forall k xa ya xb yb,
            nth_error c k = Some (xa, ya) ->
            nth_error c (S k) = Some (xb, yb) ->
            nth_error faces (length c - k)
            = Some [(xb, yb, bottom); (xa, ya, bottom);
                    (xa, ya, top); (xb, yb, top)])
  /\ pyfloat_le top (Fin 12192)
  /\ pyfloat_le (Fin 0) bottom.
Proof.
  cbv zeta. split; [|split; [|split]].
  - intros Hc. unfold Sector_decompose. now rewrite Hc.
  - unfold Sector_decompose.
    generalize (pyfloat_scale (3048 # 100)
                              (pyfloat_min (Airac.upper extr_p) (Fin 400))).
    generalize (pyfloat_scale (3048 # 100)
                              (pyfloat_max (Fin 0) (Airac.lower extr_p))).
    generalize (exterior_coords (Airac.polygon extr_p)).
    intros c bottom top Hn.
    assert (Hstack : stack c = Ok c)
      by (destruct c; [cbn in Hn; lia | reflexivity]).
    rewrite Hstack. cbn [bind]. cbv zeta.
    set (n := length c) in *.
    set (U := with_alt top c). set (L := rev (with_alt bottom c)).
    assert (HU : length U = n) by (unfold U, with_alt; now rewrite length_map).
    assert (HL : length L = n)
      by (unfold L, with_alt; now rewrite length_rev, length_map).
    set (pairs := combine (seq 0 (n - 1)) (range_down_to_2 n)).
    set (wall := fun ij : nat * nat =>
                   let '(i, j) := ij in
                   rows_slice L i (i + 2) ++ rows_slice U (j - 2) j).
    assert (Hseq :
              sequence
                (Polygon3 U :: Polygon3 L
                   :: map (fun '(i, j) =>
                             Polygon3 (rows_slice L i (i + 2)
                                         ++ rows_slice U (j - 2) j)) pairs)
              = Ok (U :: L :: map wall pairs)).
    { rewrite <- (sequence_Polygon3 (U :: L :: map wall pairs)).
      - cbn [map]. rewrite map_map. do 3 f_equal.
        apply map_ext. intros [i j]. reflexivity.
      - constructor; [lia|]. constructor; [lia|].
        apply Forall_forall. intros shell Hshell.
        apply in_map_iff in Hshell. destruct Hshell as [[i j] [<- Hij]].
        apply in_zip_ranges in Hij. unfold wall.
        rewrite length_app, !length_rows_slice, HU, HL. lia. }
    exists (U :: L :: map wall pairs).
    split; [exact Hseq|]. split; [|split; [reflexivity|split; [reflexivity|]]].
    + cbn [length]. unfold pairs, range_down_to_2.
      rewrite length_map, length_combine, length_rev, !length_seq. lia.
    + intros k xa ya xb yb Ha Hb.
      assert (Hk : (S k < n)%nat) by (apply nth_error_Some; congruence).
      replace (n - k)%nat with (S (S (n - 2 - k))) by lia.
      cbn [nth_error].
      rewrite (map_nth_error wall (n - 2 - k) pairs
                 (nth_error_zip_ranges n (n - 2 - k) ltac:(lia))).
      f_equal. unfold wall.
      assert (HUa : nth_error U k = Some (xa, ya, top))
        by (exact (map_nth_error (fun xy => (fst xy, snd xy, top)) k c Ha)).
      assert (HUb : nth_error U (S k) = Some (xb, yb, top))
        by (exact (map_nth_error (fun xy => (fst xy, snd xy, top)) (S k) c Hb)).
      assert (HLa : nth_error L (S (n - 2 - k)) = Some (xa, ya, bottom)).
      { unfold L. rewrite nth_error_rev.
        unfold with_alt at 1. rewrite length_map. fold n.
        destruct (Nat.ltb_spec (S (n - 2 - k)) n); [|lia].
        unfold with_alt. rewrite length_map. fold n.
        replace (n - S (S (n - 2 - k)))%nat with k by lia.
        exact (map_nth_error (fun xy => (fst xy, snd xy, bottom)) k c Ha). }
      assert (HLb : nth_error L (n - 2 - k) = Some (xb, yb, bottom)).
      { unfold L. rewrite nth_error_rev.
        unfold with_alt at 1. rewrite length_map. fold n.
        destruct (Nat.ltb_spec (n - 2 - k) n); [|lia].
        unfold with_alt. rewrite length_map. fold n.
        replace (n - S (n - 2 - k))%nat with (S k) by lia.
        exact (map_nth_error (fun xy => (fst xy, snd xy, bottom)) (S k) c Hb). }
      rewrite (rows_slice_two L (n - 2 - k) (n - 2 - k + 2) _ _ eq_refl HLb HLa).
      replace (n - (n - 2 - k) - 2)%nat with k by lia.
      rewrite (rows_slice_two U k (n - (n - 2 - k)) _ _ ltac:(lia) HUa HUb).
      reflexivity.
  - unfold pyfloat_le, pyfloat_min.
    destruct (Airac.upper extr_p) as [|q|]; cbn; [tauto| |].
    + unfold Qlt_bool. destruct (Qle_bool q 400) eqn:Hq; cbn.
      * apply Qle_bool_iff in Hq. apply Qle_not_lt. now apply hundredths_le.
      * apply Qle_not_lt. apply hundredths_le. apply Qle_refl.
    + apply Qle_not_lt. apply hundredths_le. apply Qle_refl.
  - unfold pyfloat_le, pyfloat_max.
    destruct (Airac.lower extr_p) as [|q|]; cbn; [| |tauto].
    + apply Qle_not_lt. apply hundredths_nonneg. apply Qle_refl.
    + unfold Qlt_bool. destruct (Qle_bool q 0) eqn:Hq; cbn.
      * apply Qle_not_lt. apply hundredths_nonneg. apply Qle_refl.
      * apply Qle_not_lt. apply hundredths_nonneg.
        destruct (Qlt_le_dec 0 q) as [H|H]; [now apply Qlt_le_weak|].
        apply Qle_bool_iff in H. congruence.
Qed.

(** ** The flights of a filtered table *)

Lemma span_of_rows (g : Flight.t) :
  Flight.data g <> [] ->
  StronglySorted Z.lt (Flight.times g) ->
  exists first final,
    hd_error (Flight.data g) = Some first
    /\ last_error (Flight.data g) = Some final
    /\ Flight.start g = Ok (time1 first)
    /\ Flight.stop g = Ok (time2 final).
Proof.
  intros Hne Hsorted. unfold Flight.start, Flight.stop.
  unfold Flight.times in *.
  destruct (Flight.data g) as [|r rows]; [congruence|].
  destruct (last_error_cons_some r rows) as [s Hs]. rewrite Hs in *.
  exists r, s. split; [reflexivity|]. split; [reflexivity|]. split.
  - apply py_min_sorted; [exact Hsorted | reflexivity].
  - apply py_max_sorted; [exact Hsorted | apply last_error_snoc].
Qed.

Lemma getitem_rows (s : SO6.t) (i : Z) (g : Flight.t) :
  SO6_getitem_int s i = Some g ->
  Flight.data g <> []
  /\ forall r, In r (Flight.data g) -> In r (SO6.data s).
Proof.
  unfold SO6_getitem_int. intros H.
  destruct (get_group (SO6.data s) i) as [|r0 rows] eqn:Hg; [discriminate|].
  injection H as <-. cbn [Flight.data]. split; [discriminate|].
  intros r Hr. rewrite <- Hg in Hr. apply in_get_group in Hr. tauto.
Qed.

Lemma hd_error_in {A} (l : list A) (x : A) : hd_error l = Some x -> In x l.
Proof. destruct l; [discriminate|]. intros H. injection H as ->. now left. Qed.

Lemma last_error_in {A} (l : list A) (x : A) : last_error l = Some x -> In x l.
Proof.
  intros H. rewrite (last_error_split _ _ H). apply in_or_app. right. now left.
Qed.

(** X19. The flights of a table filtered at a time can be interpolated at
    that time: when [g] is a flight of [s.at(t)] and its times go strictly
    up, [g.at(t)] returns a position. *)
Theorem X19_flights_at_a_time_have_a_position
        (s : SO6.t) (t : datetime) (i : Z) (g : Flight.t) :
  SO6_getitem_int (SO6.at_ s t) i = Some g ->
  StronglySorted Z.lt (Flight.times g) ->
  exists p, Flight.at_ g t = Ok p.
Proof.
  intros Hg Hsorted. destruct (getitem_rows _ _ _ Hg) as [Hne Hrows].
  destruct (span_of_rows g Hne Hsorted)
    as [first [final [Hfirst [Hfinal [Hstart Hstop]]]]].
  assert (Hkept : forall r, In r (Flight.data g) ->
                            (time1 r <= t /\ t < time2 r)%Z).
  { intros r Hr. apply Hrows in Hr. unfold SO6.at_ in Hr. cbn [SO6.data] in Hr.
    apply filter_In in Hr. destruct Hr as [_ Hr].
    apply andb_true_iff in Hr. rewrite Z.gtb_ltb in Hr. lia. }
  pose proof (Hkept _ (hd_error_in _ _ Hfirst)) as H1.
  pose proof (Hkept _ (last_error_in _ _ Hfinal)) as H2.
  apply (at_inside_span g t _ _ Hne Hsorted Hstart Hstop). lia.
Qed.

Lemma X19_witness :
  exists p, Flight.at_ (Flight.mk [Sample.leg1]) 3%Z = Ok p.
Proof.
  apply (X19_flights_at_a_time_have_a_position
           Sample.table 3%Z 1%Z (Flight.mk [Sample.leg1])).
  - reflexivity.
  - repeat (constructor; try reflexivity).
Defined.

(** X20. The flights of a table filtered on a window can be cut on that
    window: when [g] is a flight of [s.between(before, after)] and its
    times go strictly up, [g.between(before, after)] returns a flight; it
    does not raise. *)
Theorem X20_flights_of_a_window_can_be_cut
        (s : SO6.t) (before : datetime) (after : time_or_delta)
        (i : Z) (g : Flight.t) :
  SO6_getitem_int (SO6.between s before after) i = Some g ->
  StronglySorted Z.lt (Flight.times g) ->
  exists g', Flight.between g before after = Ok g'.
Proof.
  intros Hg Hsorted. destruct (getitem_rows _ _ _ Hg) as [Hne Hrows].
  destruct (span_of_rows g Hne Hsorted)
    as [first [final [Hfirst [Hfinal [Hstart Hstop]]]]].
  assert (Hkept : forall r, In r (Flight.data g) ->
                            (time1 r <= resolve_after before after
                             /\ before <= time2 r)%Z).
  { intros r Hr. apply Hrows in Hr. unfold SO6.between in Hr.
    cbn [SO6.data] in Hr. apply filter_In in Hr. destruct Hr as [_ Hr].
    apply andb_true_iff in Hr. rewrite Z.geb_leb in Hr. lia. }
  pose proof (Hkept _ (hd_error_in _ _ Hfirst)) as H1.
  pose proof (Hkept _ (last_error_in _ _ Hfinal)) as H2.
  apply (between_span_cases g before _ _ after Hne Hsorted Hstart Hstop). lia.
Qed.

Lemma X20_witness :
  exists g', Flight.between (Flight.mk [Sample.leg2]) 7%Z (Delta 20%Z) = Ok g'.
Proof.
  apply (X20_flights_of_a_window_can_be_cut
           Sample.table 7%Z (Delta 20%Z) 1%Z (Flight.mk [Sample.leg2])).
  - reflexivity.
  - repeat (constructor; try reflexivity).
Defined.

(** ** The sign of the limits of a volume *)

Lemma digit_not_space (c : ascii) :
  Airac.is_digit c = true -> Airac.is_space c = false.
Proof.
  unfold Airac.is_digit, Airac.is_space. cbv zeta. intros H.
  apply andb_true_iff in H. destruct H as [H1 H2].
  apply Nat.leb_le in H1, H2.
  destruct (Nat.eqb_spec (nat_of_ascii c) 32); [lia|].
  destruct (Nat.leb_spec (nat_of_ascii c) 13); [lia|].
  now rewrite andb_false_r.
Qed.

Lemma digit_not_sign (c : ascii) :
  Airac.is_digit c = true ->
  Ascii.eqb c "-" = false /\ Ascii.eqb c "+" = false.
Proof.
  intros H. split.
  - destruct (Ascii.eqb_spec c "-"); [subst; discriminate | reflexivity].
  - destruct (Ascii.eqb_spec c "+"); [subst; discriminate | reflexivity].
Qed.

Lemma lstrip_snoc (l : list ascii) (a : ascii) :
  Airac.is_space a = false -> exists l', Airac.lstrip (l ++ [a]) = l' ++ [a].
Proof.
  intros Ha. induction l as [|x l [l' IH]]; cbn.
  - rewrite Ha. now exists [].
  - destruct (Airac.is_space x); [now exists l' | now exists (x :: l)].
Qed.

Lemma strip_head (a : ascii) (t : list ascii) :
  Airac.is_space a = false -> exists t', Airac.strip (a :: t) = a :: t'.
Proof.
  intros Ha. unfold Airac.strip. cbn [Airac.lstrip]. rewrite Ha.
  cbn [rev]. destruct (lstrip_snoc (rev t) a Ha) as [l' ->].
  rewrite rev_app_distr. now exists (rev l').
Qed.

Lemma digit_value_nonneg (c : ascii) : (0 <= Airac.digit_value c)%Z.
Proof. unfold Airac.digit_value. lia. Qed.

Lemma digitpart_rest_nonneg (m : nat) :
  forall (s : list ascii) (acc : Z) (n : nat),
    (length s <= m)%nat -> (0 <= acc)%Z ->
    (0 <= fst (fst (Airac.digitpart_rest acc n s)))%Z.
Proof.
  induction m as [|m IH]; intros s acc n Hlen Hacc.
  - destruct s; [exact Hacc | cbn in Hlen; lia].
  - destruct s as [|c s']; [exact Hacc|]. cbn [Airac.digitpart_rest].
    cbn [length] in Hlen.
    destruct (Airac.is_digit c).
    + apply IH; [lia|]. pose proof (digit_value_nonneg c). lia.
    + destruct (Ascii.eqb c "_"); [|exact Hacc].
      destruct s' as [|d s'']; [exact Hacc|].
      destruct (Airac.is_digit d); [|exact Hacc].
      cbn [length] in Hlen. apply IH; [lia|].
      pose proof (digit_value_nonneg d). lia.
Qed.

Lemma digitpart_nonneg (s r : list ascii) (v : Z) (k : nat) :
  Airac.digitpart s = Some (v, k, r) -> (0 <= v)%Z.
Proof.
  unfold Airac.digitpart. destruct s as [|c s']; [discriminate|].
  destruct (Airac.is_digit c); [|discriminate]. intros H.
  pose proof (digitpart_rest_nonneg (length s') s' (Airac.digit_value c) 1
                (le_n _) (digit_value_nonneg c)) as Hnn.
  injection H as H. rewrite H in Hnn. exact Hnn.
Qed.

Lemma read_mantissa_nonneg (s r : list ascii) (m : Z) (k : nat) :
  Airac.read_mantissa s = Some (m, k, r) -> (0 <= m)%Z.
Proof.
  unfold Airac.read_mantissa.
  destruct (Airac.digitpart s) as [[[i n] r0]|] eqn:Hi.
  - apply digitpart_nonneg in Hi.
    destruct r0 as [|c r']; [intros H; injection H as <- _ _; exact Hi|].
    destruct (Ascii.eqb c ".");
      [|intros H; injection H as <- _ _; exact Hi].
    destruct (Airac.digitpart r') as [[[f k'] r'']|] eqn:Hf;
      [|intros H; injection H as <- _ _; exact Hi].
    apply digitpart_nonneg in Hf. intros H. injection H as <- _ _.
    assert (0 <= 10 ^ Z.of_nat k')%Z by (apply Z.pow_nonneg; lia). nia.
  - destruct s as [|c r']; [discriminate|].
    destruct (Ascii.eqb c "."); [|discriminate].
    destruct (Airac.digitpart r') as [[[f k'] r'']|] eqn:Hf; [|discriminate].
    apply digitpart_nonneg in Hf. intros H. injection H as <- _ _. exact Hf.
Qed.

Lemma float_of_digits_nonneg (s : string) (v : pyfloat) :
  Airac.starts_with_three_digits s = true ->
  Airac.float_ s = Ok v ->
  exists q, v = Fin q /\ 0 <= q.
Proof.
  intros Hd. destruct s as [|a s]; [discriminate|].
  assert (Ha : Airac.is_digit a = true).
  { cbn in Hd. destruct s as [|b [|c s]]; try discriminate.
    apply andb_true_iff in Hd. destruct Hd as [Hd _].
    apply andb_true_iff in Hd. tauto. }
  unfold Airac.float_. cbn [list_ascii_of_string].
  destruct (strip_head a (list_ascii_of_string s) (digit_not_space a Ha))
    as [t' ->].
  destruct (digit_not_sign a Ha) as [Hminus Hplus].
  cbn [Airac.read_sign]. rewrite Hminus, Hplus.
  destruct (Airac.read_mantissa (a :: t')) as [[[m k] r]|] eqn:Hm;
    [|discriminate].
  apply read_mantissa_nonneg in Hm.
  destruct (Airac.read_exponent r) as [e|]; [|discriminate].
  intros H. injection H as <-. eexists. split; [reflexivity|].
  apply Qmult_le_0_compat.
  - change (inject_Z 0 <= inject_Z (1 * m)). rewrite <- Zle_Qle. lia.
  - apply Qpower_0_le. discriminate.
Qed.

Lemma limit_or_cases (default v : pyfloat) (e : option Airac.Element) :
  Airac.limit_or default e = Ok v ->
  (read_from_text e /\ exists q, v = Fin q /\ 0 <= q)
  \/ (~ read_from_text e /\ v = default).
Proof.
  unfold Airac.limit_or, read_from_text.
  destruct e as [[[s|]]|]; cbn.
  - destruct (Airac.starts_with_three_digits s) eqn:Hd.
    + intros H. left. split; [now exists (Airac.mkElement (Some s)), s|].
      exact (float_of_digits_nonneg s v Hd H).
    + intros H. injection H as <-. right. split; [|reflexivity].
      intros [elt [s' [E [Ht Hd']]]]. injection E as <-. cbn in Ht.
      injection Ht as <-. congruence.
  - discriminate.
  - intros H. injection H as <-. right. split; [|reflexivity].
    intros [elt [s' [E _]]]. discriminate.
Qed.

(** X21. The limits [make_polygon] reads for a volume are never negative
    numbers: a limit read from a text is a number that is zero or more,
    since the text has to start with three digits, and a limit that is not
    read is the default.  So the upper limit is zero or more, and the
    lower limit is minus infinity exactly when it was not read from a
    text. *)
Theorem X21_limits_of_a_volume_are_not_negative
        (block : Airac.VolumeBlock) (upper lower : pyfloat) :
  Airac.block_limits block = Ok (upper, lower) ->
  pyfloat_le (Fin 0) upper
  /\ (lower = NegInf \/ pyfloat_le (Fin 0) lower)
  /\ (lower = NegInf <-> ~ read_from_text (Airac.lowerLimit block)).
Proof.
  unfold Airac.block_limits. intros H.
  destruct (Airac.limit_or PosInf (Airac.upperLimit block)) as [u|] eqn:Hu;
    [|discriminate].
  destruct (Airac.limit_or NegInf (Airac.lowerLimit block)) as [l|] eqn:Hl;
    [|discriminate].
  cbn [bind] in H. injection H as <- <-.
  apply limit_or_cases in Hu, Hl.
  split; [|split].
  - destruct Hu as [[_ [q [-> Hq]]]|[_ ->]]; [|exact (fun H => H)].
    unfold pyfloat_le. cbn. now apply Qle_not_lt.
  - destruct Hl as [[_ [q [-> Hq]]]|[_ ->]]; [|now left].
    right. unfold pyfloat_le. cbn. now apply Qle_not_lt.
  - destruct Hl as [[Hread [q [-> Hq]]]|[Hread ->]]; [|tauto].
    split; [discriminate | tauto].
Qed.

Lemma X21_witness :
  pyfloat_le (Fin 0)
             (Fin (inject_Z (1 * 245) * Qpower 10 (0 - Z.of_nat 0)))
  /\ ~ read_from_text (Some (Airac.mkElement (Some "GND"%string))).
Proof.
  destruct (X21_limits_of_a_volume_are_not_negative
              (Airac.mkVolumeBlock (Some (Airac.mkElement (Some "245"%string)))
                                   (Some (Airac.mkElement (Some "GND"%string))))
              (Fin (inject_Z (1 * 245) * Qpower 10 (0 - Z.of_nat 0))) NegInf
              eq_refl)
    as [Hupper [_ Hlower]].
  split; [exact Hupper | exact (proj1 Hlower eq_refl)].
Defined.

(** ** The times of a flight that was cut *)

Lemma sorted_filter (idx : Z -> bool) (T : list Z) :
  StronglySorted Z.lt T -> StronglySorted Z.lt (filter idx T).
Proof.
  induction 1 as [|x T HT IH Hx]; cbn; [constructor|].
  destruct (idx x); [|exact IH]. constructor; [exact IH|].
  apply Forall_forall. intros y Hy. apply filter_In in Hy.
  rewrite Forall_forall in Hx. apply Hx. tauto.
Qed.

Lemma window_times_sorted (T pre post : list Z) (t0 t1 : Z) :
  StronglySorted Z.lt T -> (t0 < t1)%Z ->
  pre = [] \/ pre = [t0] -> post = [] \/ post = [t1] ->
  let inner := filter (fun x => (t0 <? x)%Z && (x <? t1)%Z) T in
  StronglySorted Z.lt (pre ++ inner ++ post)
  /\ Forall (fun t => (t0 <= t <= t1)%Z) (pre ++ inner ++ post).
Proof.
  intros HT Hlt Hpre Hpost inner.
  assert (Hin : Forall (fun x => (t0 < x < t1)%Z) inner).
  { apply Forall_forall. intros x Hx. apply filter_In in Hx.
    destruct Hx as [_ Hx]. apply andb_true_iff in Hx.
    rewrite !Z.ltb_lt in Hx. exact Hx. }
  assert (Hs : StronglySorted Z.lt inner) by now apply sorted_filter.
  assert (Hmid : StronglySorted Z.lt (inner ++ post)
                 /\ Forall (fun x => (t0 < x <= t1)%Z) (inner ++ post)).
  { destruct Hpost as [->| ->].
    - rewrite app_nil_r. split; [exact Hs|].
      eapply Forall_impl; [|exact Hin]. cbn. lia.
    - split.
      + apply StronglySorted_snoc. split; [exact Hs|].
        eapply Forall_impl; [|exact Hin]. cbn. lia.
      + apply Forall_app. split.
        * eapply Forall_impl; [|exact Hin]. cbn. lia.
        * constructor; [lia | constructor]. }
  destruct Hmid as [Hs' Hin'].
  destruct Hpre as [->| ->]; cbn [app].
  - split; [exact Hs'|]. eapply Forall_impl; [|exact Hin']. cbn. lia.
  - split.
    + constructor; [exact Hs'|]. eapply Forall_impl; [|exact Hin']. cbn. lia.
    + constructor; [lia|]. eapply Forall_impl; [|exact Hin']. cbn. lia.
Qed.

Lemma knots_times (meta : Segment) (knots : list (datetime * Coord))
      (P : datetime -> Prop) :
  StronglySorted Z.lt (map fst knots) -> Forall P (map fst knots) ->
  StronglySorted Z.lt (Flight.times (Flight.mk (segments_of meta knots)))
  /\ Forall P (Flight.times (Flight.mk (segments_of meta knots))).
Proof.
  intros Hs HP. destruct (segments_of_follows meta knots) as [Hmany Hfew].
  destruct (le_lt_dec 2 (length knots)) as [Hlen|Hlen].
  - destruct (Hmany Hlen) as [-> _]. split; assumption.
  - specialize (Hfew Hlen). unfold Flight.times. rewrite Hfew.
    split; constructor.
Qed.

(** X22. Cutting keeps a flight in order and inside the window: when the
    times of the flight go strictly up and the window is not empty, the
    times of the flight that [between] returns go strictly up too, and
    every one of them lies in the window.  So what [between] returns can be
    interpolated and cut again. *)
Theorem X22_between_keeps_times_in_order_and_in_window
        (f g : Flight.t) (t0 : datetime) (after : time_or_delta) :
  StronglySorted Z.lt (Flight.times f) ->
  (t0 < resolve_after t0 after)%Z ->
  Flight.between f t0 after = Ok g ->
  StronglySorted Z.lt (Flight.times g)
  /\ Forall (fun t => (t0 <= t <= resolve_after t0 after)%Z) (Flight.times g).
Proof.
  intros Hsorted Hlt Hg.
  destruct (Flight.data f) as [|r rows] eqn:Hdata.
  - exfalso. unfold Flight.between, Flight.times in Hg. rewrite Hdata in Hg.
    discriminate Hg.
  - assert (Hne : Flight.data f <> []) by congruence.
    destruct (flight_shape f Hne) as [K [Hlen [Ht Hc]]].
    destruct K as [|k K]; [cbn in Hlen; lia|].
    destruct (last_error_cons_some (fst k) (map fst K)) as [last_ Hlast].
    rewrite between_resolved in Hg.
    set (t1 := resolve_after t0 after) in *.
    rewrite (between_knots f (k :: K) t0 t1 (fst k) last_ r
                           Ht Hc eq_refl Hlast) in Hg
      by (rewrite Hdata; reflexivity).
    unfold recorded_between in Hg. rewrite (recorded_shape f _ Ht Hc) in Hg.
    rewrite Ht in Hsorted.
    assert (Hknots :
              forall pre post : list (datetime * Coord),
                map fst pre = [] \/ map fst pre = [t0] ->
                map fst post = [] \/ map fst post = [t1] ->
                g = Flight.mk
                      (segments_of r
                         (pre ++ filter (fun tc => (t0 <? fst tc)%Z
                                                   && (fst tc <? t1)%Z)
                                        (k :: K) ++ post)) ->
                StronglySorted Z.lt (Flight.times g)
                /\ Forall (fun t => (t0 <= t <= t1)%Z) (Flight.times g)).
    { intros pre post Hpre Hpost ->.
      destruct (window_times_sorted (map fst (k :: K)) (map fst pre)
                                    (map fst post) t0 t1 Hsorted Hlt Hpre Hpost)
        as [Hs Hw].
      cbv zeta in Hs, Hw. rewrite filter_map_fst, <- !map_app in Hs, Hw.
      now apply knots_times. }
    destruct (t0 >? fst k)%Z; [destruct (Flight.at_ f t0) as [p0|]; [|discriminate]|];
      cbv beta iota delta [bind] in Hg;
      (destruct (t1 <? last_)%Z;
       [destruct (Flight.at_ f t1) as [p1|]; [|discriminate]|]);
      cbv beta iota delta [bind] in Hg; apply Ok_inj in Hg; symmetry in Hg;
      (eapply Hknots; [| |exact Hg]); cbn; tauto.
Qed.

Lemma X22_witness :
  exists g,
    Flight.between Sample.single 2%Z (Time 7%Z) = Ok g
    /\ StronglySorted Z.lt (Flight.times g)
    /\ Forall (fun t => (2 <= t <= 7)%Z) (Flight.times g).
Proof.
  destruct (Flight.between Sample.single 2%Z (Time 7%Z)) as [g|e] eqn:E.
  - exists g. split; [reflexivity|].
    apply (X22_between_keeps_times_in_order_and_in_window
             Sample.single g 2%Z (Time 7%Z)).
    + repeat (constructor; try reflexivity).
    + reflexivity.
    + exact E.
  - vm_compute in E. discriminate E.
Defined.
